(** * datamine.py: the TSCN parser, the path query and the selector

    A shallow embedding of [src/datamine.py]: the classes [TSCNResource],
    [Selector] and [TSCN], and the loops of [parse_monsters] and
    [parse_items].

    - Text is [string]; its characters are read as the code points 0..255
      (Latin-1), with the classes [\w], [\s] and [str.isnumeric] as Python
      has them on these code points.
    - Python objects are [Py.pyval]; a call that an exception leaves is
      the [Raise] case of [Py.result].
    - The regular expressions of the source are syntax trees, run by a
      backtracking matcher with the semantics of Python's [re]: ordered
      alternatives, greedy and lazy repetition, groups, look-ahead, and
      the scan of [findall] and [sub].
    - An instance of [TSCNResource] is its [__dict__], an insertion-ordered
      mapping; [getattr], [hasattr] and [setattr] follow the attribute
      protocol of CPython 3.11, the names of [object] included.
    - A [TSCN] document keeps its Resources in a heap and refers to them by
      their place in it, since the same object is reached from several
      lists and is modified after it has been listed.
    - [TSCN.parse_file] starts from the text that [file.read()] returns;
      the file system is not modelled.
    - [Game.parse_monsters] and [Game.parse_items] start from the names
      that [listdir] returns, each with the text of its file, and end with
      the list of records; the rows written to the output files are not
      modelled. *)

From Stdlib Require Import String Ascii List ZArith NArith Bool Lia.
Import ListNotations.
Local Open Scope string_scope.

Set Implicit Arguments.
Set Warnings "-register-all".

(* ------------------------------------------------------------------ *)
(** ** Characters: the classes of [re] and [str] on code points 0..255 *)

Module Latin1.

Definition code (c : ascii) : N := N_of_ascii c.

Definition between (lo hi : N) (c : ascii) : bool :=
  ((lo <=? code c) && (code c <=? hi))%N.

Definition code_is (n : N) (c : ascii) : bool := (code c =? n)%N.

(** [str.isspace], which is also [\s] of a [str] pattern. *)
Definition isspace (c : ascii) : bool :=
  between 9 13 c || between 28 32 c || code_is 133 c || code_is 160 c.

(** [str.isdecimal]: the digits [int] accepts. *)
Definition isdecimal (c : ascii) : bool := between 48 57 c.

(** [str.isnumeric] on one character: the digits and the superscripts
    and vulgar fractions of Latin-1. *)
Definition isnumeric (c : ascii) : bool :=
  isdecimal c || code_is 178 c || code_is 179 c || code_is 185 c || between 188 190 c.

(** [\w] of a [str] pattern: alphanumeric or underscore. *)
Definition isword (c : ascii) : bool :=
  isnumeric c || between 65 90 c || between 97 122 c || code_is 95 c
  || code_is 170 c || code_is 181 c || code_is 186 c
  || between 192 214 c || between 216 246 c || between 248 255 c.

(** The blanks [int] strips: the ASCII ones, and NEL and NBSP, which it
    first turns into a space. *)
Definition int_space (c : ascii) : bool :=
  between 9 13 c || code_is 32 c || code_is 133 c || code_is 160 c.

Definition newline : ascii := "010"%char.
Definition dquote : ascii := "034"%char.

Definition is_newline (c : ascii) : bool := Ascii.eqb c newline.

End Latin1.

(* ------------------------------------------------------------------ *)
(** ** The [str] methods the program calls *)

Module PyStr.

Definition nl : string := String Latin1.newline "".
Definition dq : string := String Latin1.dquote "".

(** [s.split("/")] *)
Fixpoint split_on (sep : ascii) (s : string) : list string :=
  match s with
  | "" => [""]
  | String c s' =>
      if Ascii.eqb c sep then "" :: split_on sep s'
      else match split_on sep s' with
           | [] => [String c ""]
           | w :: ws => String c w :: ws
           end
  end.

(** [s.replace(c, by)] for a one-character [c]. *)
Fixpoint replace_char (c : ascii) (by_ : string) (s : string) : string :=
  match s with
  | "" => ""
  | String x s' =>
      if Ascii.eqb x c then by_ ++ replace_char c by_ s'
      else String x (replace_char c by_ s')
  end.

(** [s.startswith(p)] *)
Definition startswith (p s : string) : bool := String.prefix p s.

(** [p in s] for two strings. *)
Fixpoint contains (p s : string) : bool :=
  String.prefix p s ||
  match s with
  | "" => false
  | String _ s' => contains p s'
  end.

Fixpoint forallb (p : ascii -> bool) (s : string) : bool :=
  match s with
  | "" => true
  | String c s' => p c && forallb p s'
  end.

(** [s.isnumeric()]: at least one character, all of them numeric. *)
Definition isnumeric (s : string) : bool :=
  match s with
  | "" => false
  | _ => forallb Latin1.isnumeric s
  end.

Fixpoint take (n : nat) (s : string) : string :=
  match n, s with
  | S n', String c s' => String c (take n' s')
  | _, _ => ""
  end.

Fixpoint drop_while (p : ascii -> bool) (s : string) : string :=
  match s with
  | String c s' => if p c then drop_while p s' else s
  | "" => ""
  end.

(** [s[i]] for [0 <= i]. *)
Fixpoint nth_char (i : nat) (s : string) : option ascii :=
  match s, i with
  | "", _ => None
  | String c _, O => Some c
  | String _ s', S i' => nth_char i' s'
  end.

End PyStr.

(* ------------------------------------------------------------------ *)
(** ** Regular expressions as Python's [re] runs them *)

Module Re.

(** The patterns of the program quantify single characters only, so
    repetition is over a class; [r+] is [r r*] and [r?] is [r|]. *)
Inductive regex : Type :=
| Eps                                        (* the empty pattern *)
| Cls (p : ascii -> bool)                    (* one character of a class *)
| Star (greedy : bool) (p : ascii -> bool)   (* [p*] and [p*?] *)
| Seq (r1 r2 : regex)
| Alt (r1 r2 : regex)
| Grp (n : nat) (r : regex)                  (* capturing group number n *)
| Bos                                        (* [^] *)
| Bol                                        (* [^] under MULTILINE *)
| Eos                                        (* [$] *)
| Eol                                        (* [$] under MULTILINE *)
| Ahead (r : regex).                         (* [(?=r)] *)

Definition Plus (greedy : bool) (p : ascii -> bool) : regex :=
  Seq (Cls p) (Star greedy p).
Definition Opt (p : ascii -> bool) : regex := Alt (Cls p) Eps.
Definition Lit (c : ascii) : regex := Cls (Ascii.eqb c).

Fixpoint seqs (rs : list regex) : regex :=
  match rs with
  | [] => Eps
  | [r] => r
  | r :: rs' => Seq r (seqs rs')
  end.

Fixpoint alts (r : regex) (rs : list regex) : regex :=
  match rs with
  | [] => r
  | r' :: rs' => Alt r (alts r' rs')
  end.

(** Character classes. *)
Definition any : ascii -> bool := fun _ => true.            (* [.] under DOTALL *)
Definition dot : ascii -> bool := fun c => negb (Latin1.is_newline c).
Definition word : ascii -> bool := Latin1.isword.
Definition space : ascii -> bool := Latin1.isspace.
Definition nonspace : ascii -> bool := fun c => negb (Latin1.isspace c).
Definition one_of (s : string) : ascii -> bool :=
  fun c => PyStr.contains (String c "") s.

(** A position in the subject: the character before it, the text after
    it, its offset, and the groups captured so far. *)
Record mstate : Type := MState {
  prev : option ascii;
  rest : string;
  pos : nat;
  caps : list (nat * string)
}.

Definition start (s : string) : mstate := MState None s 0 [].

Definition step (c : ascii) (s' : string) (st : mstate) : mstate :=
  MState (Some c) s' (S (pos st)) (caps st).

Definition capture (n : nat) (from to : mstate) : mstate :=
  MState (prev to) (rest to) (pos to)
         ((n, PyStr.take (pos to - pos from) (rest from)) :: caps to).

Fixpoint group (n : nat) (cs : list (nat * string)) : string :=
  match cs with
  | [] => ""
  | (m, s) :: cs' => if Nat.eqb m n then s else group n cs'
  end.

Section Exec.
Variable A : Type.

(** [p*]: as many as possible first, then one fewer, and so on. *)
Fixpoint star_greedy (p : ascii -> bool) (s : string) (st : mstate)
         (k : mstate -> option A) : option A :=
  match s with
  | String c s' =>
      if p c then
        match star_greedy p s' (step c s' st) k with
        | Some x => Some x
        | None => k st
        end
      else k st
  | "" => k st
  end.

(** [p*?]: as few as possible first. *)
Fixpoint star_lazy (p : ascii -> bool) (s : string) (st : mstate)
         (k : mstate -> option A) : option A :=
  match k st with
  | Some x => Some x
  | None =>
      match s with
      | String c s' => if p c then star_lazy p s' (step c s' st) k else None
      | "" => None
      end
  end.
End Exec.

(** The backtracking matcher, in continuation-passing style: [k] is the
    rest of the pattern, and [None] makes the caller try its next choice. *)
Fixpoint exec (r : regex) {A : Type} (st : mstate)
         (k : mstate -> option A) : option A :=
  match r with
  | Eps => k st
  | Cls p =>
      match rest st with
      | String c s' => if p c then k (step c s' st) else None
      | "" => None
      end
  | Star true p => star_greedy p (rest st) st k
  | Star false p => star_lazy p (rest st) st k
  | Seq r1 r2 => exec r1 st (fun st' => exec r2 st' k)
  | Alt r1 r2 =>
      match exec r1 st k with
      | Some x => Some x
      | None => exec r2 st k
      end
  | Grp n r1 => exec r1 st (fun st' => k (capture n st st'))
  | Bos => if Nat.eqb (pos st) 0 then k st else None
  | Bol =>
      match prev st with
      | None => k st
      | Some c => if Latin1.is_newline c then k st else None
      end
  | Eos =>
      match rest st with
      | "" => k st
      | String c "" => if Latin1.is_newline c then k st else None
      | _ => None
      end
  | Eol =>
      match rest st with
      | "" => k st
      | String c _ => if Latin1.is_newline c then k st else None
      end
  | Ahead r1 =>
      match exec r1 st (fun _ => Some tt) with
      | Some _ => k st
      | None => None
      end
  end.

(** One attempt at the position [st].  [must_advance] refuses the empty
    match there, as the engine does right after an empty match. *)
Definition match_at (must_advance : bool) (r : regex) (st : mstate)
  : option mstate :=
  exec r st (fun st' =>
    if must_advance && Nat.eqb (pos st') (pos st) then None else Some st').

(** [re.match(r, s)]: group 0 of a match at the start of [s]. *)
Definition re_match (r : regex) (s : string) : option string :=
  match match_at false r (start s) with
  | Some st' => Some (PyStr.take (pos st') s)
  | None => None
  end.

(** What a left-to-right scan of the subject meets: a character no match
    covers, or a match with its text and groups. *)
Inductive piece : Type :=
| Skip (c : ascii)
| Hit (text : string) (groups : list (nat * string)).

Definition fresh (st : mstate) : mstate :=
  MState (prev st) (rest st) (pos st) [].

Fixpoint scan (fuel : nat) (r : regex) (must_advance : bool) (st : mstate)
  : list piece :=
  match fuel with
  | O => []
  | S fuel' =>
      match match_at must_advance r st with
      | Some st' =>
          Hit (PyStr.take (pos st' - pos st) (rest st)) (caps st')
          :: scan fuel' r (Nat.eqb (pos st') (pos st)) (fresh st')
      | None =>
          match rest st with
          | "" => []
          | String c s' => Skip c :: scan fuel' r false (step c s' st)
          end
      end
  end.

(** Every round of [scan] moves on or turns [must_advance] on, so twice
    the length, and two, is fuel enough. *)
Definition pieces (r : regex) (s : string) : list piece :=
  scan (2 * String.length s + 2) r false (start s).

Fixpoint groups_upto (n : nat) (cs : list (nat * string)) : list string :=
  match n with
  | O => []
  | S n' => groups_upto n' cs ++ [group n cs]
  end.

(** [re.findall(r, s)] for a pattern with [n] groups: the groups of each
    match, a group that took no part being the empty string. *)
Fixpoint hits (n : nat) (ps : list piece) : list (list string) :=
  match ps with
  | [] => []
  | Skip _ :: ps' => hits n ps'
  | Hit _ cs :: ps' => groups_upto n cs :: hits n ps'
  end.

Definition findall (n : nat) (r : regex) (s : string) : list (list string) :=
  hits n (pieces r s).

(** [re.sub(r, "\1", s)] *)
Fixpoint rebuild (ps : list piece) : string :=
  match ps with
  | [] => ""
  | Skip c :: ps' => String c (rebuild ps')
  | Hit _ cs :: ps' => group 1 cs ++ rebuild ps'
  end.

Definition sub_group1 (r : regex) (s : string) : string :=
  rebuild (pieces r s).

End Re.

(* ------------------------------------------------------------------ *)
(** ** Python values, exceptions and the built-ins the program calls *)

Module Py.

Inductive exn : Type :=
| TypeError | ValueError | KeyError | IndexError | AttributeError.

(** A call returns a value or is left by an exception. *)
Inductive result (A : Type) : Type :=
| Ok (a : A)
| Raise (e : exn).
Arguments Ok {A} a.
Arguments Raise {A} e.

Definition bind {A B : Type} (m : result A) (f : A -> result B) : result B :=
  match m with
  | Ok a => f a
  | Raise e => Raise e
  end.

Fixpoint mapM {A B : Type} (f : A -> result B) (l : list A) : result (list B) :=
  match l with
  | [] => Ok []
  | a :: l' =>
      bind (f a) (fun b => bind (mapM f l') (fun bs => Ok (b :: bs)))
  end.

(** The objects the program handles.  A [dict] keeps its insertion order
    and has [str] keys; [VObj] stands for an object that is neither
    indexable nor convertible (a bound method, a class). *)
Inductive pyval : Type :=
| VNone
| VInt (z : Z)
| VStr (s : string)
| VList (l : list pyval)
| VDict (d : list (string * pyval))
| VObj (name : string).

Definition dict : Type := list (string * pyval).

Section Dict.
Variable V : Type.

Fixpoint lookup (k : string) (d : list (string * V)) : option V :=
  match d with
  | [] => None
  | (k', v) :: d' => if String.eqb k' k then Some v else lookup k d'
  end.

(** [d[k] = v]: a key already present keeps its place. *)
Fixpoint store (k : string) (v : V) (d : list (string * V))
  : list (string * V) :=
  match d with
  | [] => [(k, v)]
  | (k', v') :: d' =>
      if String.eqb k' k then (k, v) :: d' else (k', v') :: store k v d'
  end.

Definition has_key (k : string) (d : list (string * V)) : bool :=
  match lookup k d with
  | Some _ => true
  | None => false
  end.
End Dict.

(** *** [int(s)] *)

Definition digit (c : ascii) : Z := Z.of_N (Latin1.code c) - 48.

(** Digits, single underscores between digits, then blanks only.  The
    result comes with the number of digits read. *)
Fixpoint int_digits (s : string) (acc : Z) (n : nat) (after_digit : bool)
  : option (Z * nat) :=
  match s with
  | "" => if after_digit then Some (acc, n) else None
  | String c s' =>
      if Latin1.isdecimal c then
        int_digits s' (10 * acc + digit c) (S n) true
      else if Ascii.eqb c "_" then
        if after_digit then int_digits s' acc n false else None
      else if Latin1.int_space c then
        if after_digit && PyStr.forallb Latin1.int_space s'
        then Some (acc, n) else None
      else None
  end.

(** The default of [sys.set_int_max_str_digits]. *)
Definition int_max_str_digits : nat := 4300.

Definition int_of_str (s : string) : option Z :=
  let body := PyStr.drop_while Latin1.int_space s in
  let signed :=
    match body with
    | String "+" s' => (1, s')
    | String "-" s' => (-1, s')
    | _ => (1, body)
    end%Z in
  match int_digits (snd signed) 0 0 false with
  | Some (z, n) =>
      if Nat.leb n int_max_str_digits then Some (fst signed * z)%Z else None
  | None => None
  end.

(** [int(v)] *)
Definition py_int (v : pyval) : result Z :=
  match v with
  | VInt z => Ok z
  | VStr s =>
      match int_of_str s with
      | Some z => Ok z
      | None => Raise ValueError
      end
  | _ => Raise TypeError
  end.

(** *** [operator.getitem] *)

(** A path segment after [query] has converted it. *)
Inductive seg : Type :=
| SInt (i : Z)
| SStr (s : string).

(** The place of index [i] in a sequence of length [len]; a negative
    index counts from the end. *)
Definition index_of (i : Z) (len : nat) : option nat :=
  let j := (if i <? 0 then i + Z.of_nat len else i)%Z in
  if ((0 <=? j) && (j <? Z.of_nat len))%Z then Some (Z.to_nat j) else None.

Definition getitem (v : pyval) (s : seg) : result pyval :=
  match v, s with
  | VStr t, SInt i =>
      match index_of i (String.length t) with
      | Some j =>
          match PyStr.nth_char j t with
          | Some c => Ok (VStr (String c ""))
          | None => Raise IndexError
          end
      | None => Raise IndexError
      end
  | VStr _, SStr _ => Raise TypeError
  | VList l, SInt i =>
      match index_of i (List.length l) with
      | Some j =>
          match nth_error l j with
          | Some x => Ok x
          | None => Raise IndexError
          end
      | None => Raise IndexError
      end
  | VList _, SStr _ => Raise TypeError
  | VDict d, SStr k =>
      match lookup k d with
      | Some x => Ok x
      | None => Raise KeyError
      end
  | VDict _, SInt _ => Raise KeyError
  | VNone, _ | VInt _, _ | VObj _, _ => Raise TypeError
  end.

(** [reduce(getitem, path, v)] *)
Fixpoint reduce_getitem (v : pyval) (path : list seg) : result pyval :=
  match path with
  | [] => Ok v
  | s :: path' => bind (getitem v s) (fun v' => reduce_getitem v' path')
  end.

(** [k in v] for a [str] [k]. *)
Definition contains (k : string) (v : pyval) : result bool :=
  match v with
  | VDict d => Ok (has_key k d)
  | VStr s => Ok (PyStr.contains k s)
  | VList l =>
      Ok (existsb (fun x => match x with
                            | VStr s => String.eqb s k
                            | _ => false
                            end) l)
  | VNone | VInt _ | VObj _ => Raise TypeError
  end.

End Py.

Declare Scope py_scope.
Delimit Scope py_scope with py.
Notation "x <- m ;; k" := (Py.bind m (fun x => k))
  (at level 61, m at next level, right associativity) : py_scope.
Notation "m ;;; k" := (Py.bind m (fun _ => k))
  (at level 61, right associativity) : py_scope.
Local Open Scope py_scope.

(* ------------------------------------------------------------------ *)
(** ** class TSCNResource *)

Module TSCNResource.
Import Py.

(** An instance is its [__dict__]: [resource_type], [entries] and
    whatever the keyword arguments of the constructor set. *)
Record t : Type := Make { fields : dict }.

(** The names an instance finds on its class and on [object]. *)
Definition method_names : list string :=
  ["__init__"; "query"; "__str__"; "__getitem__";
   "__delattr__"; "__dir__"; "__eq__"; "__format__"; "__ge__";
   "__getattribute__"; "__getstate__"; "__gt__"; "__hash__";
   "__init_subclass__"; "__le__"; "__lt__"; "__ne__"; "__new__";
   "__reduce__"; "__reduce_ex__"; "__repr__"; "__setattr__";
   "__sizeof__"; "__subclasshook__"].

Definition mem (k : string) (l : list string) : bool :=
  existsb (String.eqb k) l.

(** [getattr(self, name)]: the descriptors of the class that hold data,
    then the instance, then the rest of the class. *)
Definition getattr (self : t) (name : string) : result pyval :=
  if String.eqb name "__class__" then Ok (VObj "TSCNResource")
  else if String.eqb name "__dict__" then Ok (VDict (fields self))
  else if String.eqb name "__weakref__" then Ok VNone
  else match lookup name (fields self) with
       | Some v => Ok v
       | None =>
           if String.eqb name "__module__" then Ok (VStr "__main__")
           else if String.eqb name "__doc__" then Ok VNone
           else if mem name method_names then Ok (VObj name)
           else Raise AttributeError
       end.

(** [hasattr(self, name)]; a name that is not a [str] is a [TypeError]. *)
Definition hasattr (self : t) (name : seg) : result bool :=
  match name with
  | SInt _ => Raise TypeError
  | SStr n =>
      match getattr self n with
      | Ok _ => Ok true
      | Raise _ => Ok false
      end
  end.

(** [setattr(self, k, v)] *)
Definition setattr (self : t) (k : string) (v : pyval) : result t :=
  if String.eqb k "__class__" then Raise TypeError
  else if String.eqb k "__dict__" then
    match v with
    | VDict d => Ok (Make d)
    | _ => Raise TypeError
    end
  else if String.eqb k "__weakref__" then Raise AttributeError
  else Ok (Make (store k v (fields self))).

Fixpoint setattrs (self : t) (attr : dict) : result t :=
  match attr with
  | [] => Ok self
  | (k, v) :: attr' => self' <- setattr self k v ;; setattrs self' attr'
  end.

(** [TSCNResource(resource_type, **attr)].  A keyword that names a
    positional parameter is refused when the call binds its arguments. *)
Definition init (resource_type : pyval) (attr : dict) : result t :=
  if has_key "self" attr || has_key "resource_type" attr then Raise TypeError
  else setattrs (Make [("resource_type", resource_type);
                       ("entries", VDict [])]) attr.

(** [self[key]], which is [getattr(self, key)]. *)
Definition self_getitem (self : t) (key : seg) : result pyval :=
  match key with
  | SInt _ => Raise TypeError
  | SStr n => getattr self n
  end.

(** The [lambda] of [query]: a numeric segment becomes an [int]. *)
Definition convert (x : pyval) : result seg :=
  match x with
  | VStr s =>
      if PyStr.isnumeric s then
        match int_of_str s with
        | Some z => Ok (SInt z)
        | None => Raise ValueError
        end
      else Ok (SStr s)
  | _ => Raise AttributeError
  end.

(** The list [query] walks: a [str] is split, a [list] is taken as it
    is, anything else is no path. *)
Definition segments (path : pyval) : option (list pyval) :=
  match path with
  | VStr s => Some (map VStr (PyStr.split_on "/" s))
  | VList l => Some l
  | _ => None
  end.

Definition query (self : t) (path : pyval) (default : pyval) : result pyval :=
  match segments path with
  | None | Some [] => Ok default
  | Some (x :: xs) =>
      path' <- mapM convert (x :: xs) ;;
      match path' with
      | [] => Ok default
      | p0 :: ps =>
          has <- hasattr self p0 ;;
          if has then
            v <- self_getitem self p0 ;; reduce_getitem v ps
          else
            match p0 with
            | SInt _ => Raise TypeError   (* not reached: [hasattr] raised *)
            | SStr k =>
                entries <- getattr self "entries" ;;
                isin <- contains k entries ;;
                if isin then reduce_getitem entries (p0 :: ps)
                else Ok default
            end
      end
  end.

(** [obj.query(path)] as a caller writes it: the attribute [query] is
    looked up first, and an instance attribute of that name, which a
    header can only set to a string, hides the method and is not
    callable. *)
Definition call_query (self : t) (path : pyval) (default : pyval)
  : result pyval :=
  match lookup "query" (fields self) with
  | Some _ => Raise TypeError
  | None => query self path default
  end.

End TSCNResource.

(* ------------------------------------------------------------------ *)
(** ** class Selector *)

Module Selector.
Import Py Re.

(** What a selector compiles to: for a kind, the clauses as a [dict]
    from path to the pair of operator and right-hand side. *)
Definition clauses : Type := list (string * (string * string)).
Definition t : Type := list (string * clauses).

(** The pattern of the kind: from the start, as few characters of the
    line as possible, up to a place followed by an opening bracket or
    by the end. *)
Definition kind_re : regex :=
  seqs [Bos; Star false dot; Ahead (Alt (Lit "[") Eos)].

Definition path_char (c : ascii) : bool :=
  negb (one_of "!<>=" c || space c).

(** The pattern of a clause: an opening bracket, group 1 of one or more
    characters other than [!<>=] and blanks, an optional blank, group 2
    of one or more of [!<>=], an optional blank, group 3 of as many
    characters of the line as possible, and a closing bracket. *)
Definition clause_re : regex :=
  seqs [Lit "["; Grp 1 (Plus true path_char); Opt space;
        Grp 2 (Plus true (one_of "!<>=")); Opt space;
        Grp 3 (Star true dot); Lit "]"].

(** The loop over [queries]: [attrs[attr] = relation]. *)
Fixpoint collect (queries : list (list string)) (attrs : clauses) : clauses :=
  match queries with
  | [attr; op; rhs] :: queries' => collect queries' (store attr (op, rhs) attrs)
  | _ :: queries' => collect queries' attrs
  | [] => attrs
  end.

(** [Selector.parse(string)].  [re.match] refuses what is not a [str]
    with a [TypeError], and so does [None[0]] when nothing matches; both
    leave as the [ValueError] of an invalid selector. *)
Definition parse (string : pyval) : result t :=
  match string with
  | VStr s =>
      match re_match kind_re s with
      | Some type => Ok [(type, collect (findall 3 clause_re s) [])]
      | None => Raise ValueError
      end
  | _ => Raise ValueError
  end.

End Selector.

(* ------------------------------------------------------------------ *)
(** ** class TSCN *)

Module TSCN.
Import Py Re.

(** A document.  The resources live in [heap], in the order of their
    creation, and the lists hold their places in it, so that an entry
    added to the open resource is seen through every list. *)
Record t : Type := Make {
  heap : list TSCNResource.t;
  resources : list nat;
  node : list nat;
  ext_resource : list nat;
  sub_resource : list nat;
  connection : list nat;
  scene : option nat
}.

(** [__init__], before it parses. *)
Definition empty : t := Make [] [] [] [] [] [] None.

Definition obj (doc : t) (id : nat) : TSCNResource.t :=
  nth id (heap doc) (TSCNResource.Make []).

(** The value of a body line and of a header attribute, under DOTALL:
    a word and a parenthesised text, or a text between double quotes,
    or a text between brackets, each as short as possible, or else one
    or more characters that are not blank. *)
Definition value_re : regex :=
  alts (seqs [Plus true word; Lit "("; Plus false any; Lit ")"])
       [seqs [Lit Latin1.dquote; Plus false any; Lit Latin1.dquote];
        seqs [Lit "["; Plus false any; Lit "]"];
        Plus true nonspace].

Definition key_char (c : ascii) : bool := word c || Ascii.eqb c "/".

(** The pattern of [lines], under DOTALL and MULTILINE: a header in
    groups 1 and 2, or a body line in groups 3 and 4. *)
Definition line_re : regex :=
  Alt (seqs [Bol; Lit "["; Grp 1 (Plus true word); Grp 2 (Star false any);
             Lit "]"; Eol])
      (seqs [Bol; Grp 3 (Plus true key_char); Star true space; Lit "=";
             Star true space; Grp 4 value_re; Eol]).

(** The pattern of [pairs], under DOTALL. *)
Definition pair_re : regex :=
  seqs [Grp 1 (Plus true key_char); Star true space; Lit "=";
        Star true space; Grp 2 value_re].

(** The pattern of the surrounding quotes: from the start a double
    quote, group 1 of as many characters as possible, a double quote,
    the end. *)
Definition unquote_re : regex :=
  seqs [Bos; Lit Latin1.dquote; Grp 1 (Star true dot); Lit Latin1.dquote; Eos].

(** The dict comprehension of the header: every double quote of a
    value is removed. *)
Fixpoint header_attr (pairs : list (list string)) (attr : dict) : dict :=
  match pairs with
  | [k; v] :: pairs' =>
      header_attr pairs'
        (store k (VStr (PyStr.replace_char Latin1.dquote "" v)) attr)
  | _ :: pairs' => header_attr pairs' attr
  | [] => attr
  end.

(** What a body line stores: newlines escaped, one pair of surrounding
    quotes removed, a leading plus guarded. *)
Definition body_value (value : string) : string :=
  let value := PyStr.replace_char Latin1.newline "\n" value in
  let value := sub_group1 unquote_re value in
  if PyStr.startswith "+" value
  then "=" ++ PyStr.dq ++ value ++ PyStr.dq
  else value.

(** The names a document finds on its class and on [object]. *)
Definition class_names : list string :=
  ["__init__"; "parse_file"; "select"; "__doc__"; "__module__";
   "__dict__"; "__weakref__"; "__class__";
   "__delattr__"; "__dir__"; "__eq__"; "__format__"; "__ge__";
   "__getattribute__"; "__getstate__"; "__gt__"; "__hash__";
   "__init_subclass__"; "__le__"; "__lt__"; "__ne__"; "__new__";
   "__reduce__"; "__reduce_ex__"; "__repr__"; "__setattr__";
   "__sizeof__"; "__str__"; "__subclasshook__"].

(** [setattr(self, kind, getattr(self, kind) + [rsc])].  Only a list
    can be added to a list; a name the document does not have is an
    [AttributeError]. *)
Definition add_to_kind (doc : t) (kind : string) (id : nat) : result t :=
  let '(Make h rs n e s c sc) := doc in
  if String.eqb kind "node" then Ok (Make h rs (n ++ [id]) e s c sc)
  else if String.eqb kind "ext_resource" then Ok (Make h rs n (e ++ [id]) s c sc)
  else if String.eqb kind "sub_resource" then Ok (Make h rs n e (s ++ [id]) c sc)
  else if String.eqb kind "connection" then Ok (Make h rs n e s (c ++ [id]) sc)
  else if String.eqb kind "resources" then Ok (Make h (rs ++ [id]) n e s c sc)
  else if String.eqb kind "scene" then
    match sc with
    | Some _ => Raise TypeError
    | None => Raise AttributeError
    end
  else if TSCNResource.mem kind class_names then Raise TypeError
  else Raise AttributeError.

(** A new object takes the next place of the heap. *)
Definition alloc (doc : t) (rsc : TSCNResource.t) : t :=
  let '(Make h rs n e s c sc) := doc in Make (h ++ [rsc]) rs n e s c sc.

Definition set_scene (doc : t) (id : nat) : t :=
  let '(Make h rs n e s c _) := doc in Make h rs n e s c (Some id).

(** [self.resources.append(rsc)] *)
Definition append_resource (doc : t) (id : nat) : t :=
  let '(Make h rs n e s c sc) := doc in Make h (rs ++ [id]) n e s c sc.

(** The header branch of the loop; it returns the document and the
    resource it opened. *)
Definition header (doc : t) (resource_type rest : string) : result (t * nat) :=
  let pairs := findall 2 pair_re rest in
  rsc <- TSCNResource.init (VStr resource_type) (header_attr pairs []) ;;
  let id := List.length (heap doc) in
  let doc := alloc doc rsc in
  doc <- (if String.eqb resource_type "gd_scene"
          then Ok (set_scene doc id)
          else add_to_kind doc resource_type id) ;;
  Ok (append_resource doc id, id).

(** [rsc.entries[key] = value] on the object at [id]. *)
Definition set_entry (doc : t) (id : nat) (key value : string) : result t :=
  let self := obj doc id in
  entries <- TSCNResource.getattr self "entries" ;;
  match entries with
  | VDict d =>
      let self' :=
        TSCNResource.Make
          (store "entries" (VDict (store key (VStr value) d))
                 (TSCNResource.fields self)) in
      let '(Make h rs n e s c sc) := doc in
      Ok (Make (firstn id h ++ self' :: skipn (S id) h) rs n e s c sc)
  | _ => Raise TypeError
  end.

(** The body branch of the loop; [rsc] is [None] before the first
    header. *)
Definition body (doc : t) (rsc : option nat) (key value : string) : result t :=
  let value := body_value value in
  match rsc with
  | None => Raise AttributeError
  | Some id => set_entry doc id key value
  end.

(** The loop over [lines]. *)
Fixpoint parse_lines (lines : list (list string)) (doc : t) (rsc : option nat)
  : result t :=
  match lines with
  | [] => Ok doc
  | [resource_type; rest; key; value] :: lines' =>
      if Nat.ltb 0 (String.length resource_type) then
        opened <- header doc resource_type rest ;;
        parse_lines lines' (fst opened) (Some (snd opened))
      else
        doc' <- body doc rsc key value ;;
        parse_lines lines' doc' rsc
  | _ :: lines' => parse_lines lines' doc rsc
  end.

(** [TSCN(path)], from the text [data] that [file.read()] returns. *)
Definition parse_file (data : string) : result t :=
  parse_lines (findall 4 line_re data) empty None.

(** *** select *)

Inductive source : Type :=
| Text (s : string)            (* a selector expression *)
| Compiled (d : Selector.t).   (* a dict, used as it is *)

(** The [match op] of the [try]. *)
Definition numeric (op : string) (lhs rhs : Z) : bool :=
  if String.eqb op "=" || String.eqb op "==" then (lhs =? rhs)%Z
  else if String.eqb op ">=" then (lhs >=? rhs)%Z
  else if String.eqb op "<=" then (lhs <=? rhs)%Z
  else if String.eqb op ">" then (lhs >? rhs)%Z
  else if String.eqb op "<" then (lhs <? rhs)%Z
  else if String.eqb op "!=" then negb (lhs =? rhs)%Z
  else false.

(** [lhs == rhs] for a [str] [rhs]. *)
Definition equal (lhs : pyval) (rhs : string) : bool :=
  match lhs with
  | VStr l => String.eqb l rhs
  | _ => false
  end.

(** The [match op] of the [except ValueError]. *)
Definition textual (op : string) (lhs : pyval) (rhs : string) : bool :=
  if String.eqb op "=" || String.eqb op "==" then equal lhs rhs
  else if String.eqb op "!=" then negb (equal lhs rhs)
  else false.

(** The body of the loop over the clauses; every path through it
    returns.  When [int(lhs)] has succeeded and [int(rhs)] fails, the
    handler compares the converted [lhs]. *)
Definition clause (self : TSCNResource.t) (path op rhs : string) : result bool :=
  lhs <- TSCNResource.call_query self (VStr path) VNone ;;
  match lhs with
  | VNone => Ok false
  | _ =>
      match py_int lhs with
      | Ok l =>
          match int_of_str rhs with
          | Some r => Ok (numeric op l r)
          | None => Ok (textual op (VInt l) rhs)
          end
      | Raise ValueError => Ok (textual op lhs rhs)
      | Raise e => Raise e
      end
  end.

(** [obj.resource_type not in selectors], then [selectors[...]]. *)
Definition clauses_for (selectors : Selector.t) (self : TSCNResource.t)
  : result (option Selector.clauses) :=
  kind <- TSCNResource.getattr self "resource_type" ;;
  match kind with
  | VStr k => Ok (lookup k selectors)
  | VList _ | VDict _ => Raise TypeError
  | VNone | VInt _ | VObj _ => Ok None
  end.

Definition predicate (selectors : Selector.t) (self : TSCNResource.t)
  : result bool :=
  found <- clauses_for selectors self ;;
  match found with
  | None => Ok false
  | Some [] => Ok true
  | Some ((path, (op, rhs)) :: _) => clause self path op rhs
  end.

(** The list comprehension: the resources the predicate accepts, in
    the order of [self.resources]. *)
Fixpoint keep (p : nat -> result bool) (ids : list nat) : result (list nat) :=
  match ids with
  | [] => Ok []
  | id :: ids' =>
      b <- p id ;;
      rest <- keep p ids' ;;
      Ok (if b then id :: rest else rest)
  end.

(** [if isinstance(selectors, str): selectors = Selector.parse(selectors)] *)
Definition compile (selectors : source) : result Selector.t :=
  match selectors with
  | Text s => Selector.parse (VStr s)
  | Compiled d => Ok d
  end.

Definition select (doc : t) (selectors : source) : result (option (list nat)) :=
  selectors <- compile selectors ;;
  resources <- keep (fun id => predicate selectors (obj doc id)) (resources doc) ;;
  match resources with
  | [] => Ok None
  | _ => Ok (Some resources)
  end.

End TSCN.

(* ------------------------------------------------------------------ *)
(** ** The records of the game and their extraction *)

Module Game.
Import Py.

(** [s.endswith(suffix)] *)
Fixpoint endswith (suffix s : string) : bool :=
  String.eqb s suffix ||
  match s with
  | "" => false
  | String _ s' => endswith suffix s'
  end.

(** [path.split('.', 1)[0]]: the text before the first dot. *)
Fixpoint stem (path : string) : string :=
  match path with
  | "" => ""
  | String c path' => if Ascii.eqb c "." then "" else String c (stem path')
  end.

Module Monster.
(** The slots of a [Monster]; a slot that was never assigned is [None]. *)
Record t : Type := Make {
  file : string;
  damage : option pyval;
  radius : option pyval;
  health : option pyval;
  hitsToKill : option pyval
}.
End Monster.

Module Item.
Record t : Type := Make {
  file : string;
  slot : option pyval;
  name : option pyval;
  desc : option pyval;
  grade : option pyval;
  price : option pyval;
  prereqs_any : option pyval;
  prereqs_and : option pyval;
  exclude_any : option pyval
}.
End Item.

(** [nodes[0]] under [if nodes := tscn.select(...)]: the first Resource
    selected, when there is one. *)
Definition first_selected (doc : TSCN.t) (selector : string)
  : result (option TSCNResource.t) :=
  nodes <- TSCN.select doc (TSCN.Text selector) ;;
  match nodes with
  | Some (id :: _) => Ok (Some (TSCN.obj doc id))
  | _ => Ok None
  end.

(** The body of the loop of [parse_monsters], for the file [path] whose
    text is [data]. *)
Definition monster (path data : string) : result Monster.t :=
  tscn <- TSCN.parse_file data ;;
  let file := stem path in
  area <- first_selected tscn "node[name=AreaOfEffect]" ;;
  aoe <- match area with
         | Some node =>
             damage <- TSCNResource.call_query node (VStr "ApplyDamage") (VStr "0") ;;
             radius <- TSCNResource.call_query node (VStr "Radius") (VStr "0") ;;
             Ok (Some damage, Some radius)
         | None => Ok (None, None)
         end ;;
  vital <- first_selected tscn "node[name=Health]" ;;
  hp <- match vital with
        | Some node =>
            health <- TSCNResource.call_query node (VStr "StartHealth") (VStr "0") ;;
            hits <- TSCNResource.call_query node (VStr "KillAfterNumberOfHits")
                                            (VStr "N/A") ;;
            Ok (Some health, Some hits)
        | None => Ok (None, None)
        end ;;
  Ok (Monster.Make file (fst aoe) (snd aoe) (fst hp) (snd hp)).

(** A directory: the names [listdir] returns, each with the text of its
    file. *)
Definition directory : Type := list (string * string).

(** The loop of [parse_monsters], up to the list [monsters]. *)
Fixpoint parse_monsters (dir : directory) : result (list Monster.t) :=
  match dir with
  | [] => Ok []
  | (path, data) :: dir' =>
      if endswith ".tscn" path then
        m <- monster path data ;;
        ms <- parse_monsters dir' ;;
        Ok (m :: ms)
      else parse_monsters dir'
  end.

Definition slots : list pyval :=
  [VStr "Head"; VStr "Neck"; VStr "Ring"; VStr "Body"; VStr "Feet";
   VStr "Gloves"; VStr "Consumable"].

(** [if (slot := ...).isnumeric(): item.slot = slots[int(slot)]]; only a
    [str] has the method [isnumeric]. *)
Definition slot_label (slot : pyval) : result (option pyval) :=
  match slot with
  | VStr s =>
      if PyStr.isnumeric s then
        i <- py_int slot ;;
        label <- getitem (VList slots) (SInt i) ;;
        Ok (Some label)
      else Ok None
  | _ => Raise AttributeError
  end.




End Game.

(* ------------------------------------------------------------------ *)
(** * Notions and sample inputs of the properties *)

Import Py.
Unset Implicit Arguments.

(** A Resource with the entry [k = ab] and the attribute [name]. *)
Definition sample_resource : TSCNResource.t :=
  TSCNResource.Make
    [("resource_type", VStr "node");
     ("entries", VDict [("k", VStr "ab")]);
     ("name", VStr "Health")].

(** A Resource whose attribute [name] and entry [name] collide. *)
Definition colliding_resource : TSCNResource.t :=
  TSCNResource.Make
    [("resource_type", VStr "node");
     ("entries", VDict [("name", VStr "entry"); ("k", VStr "v")]);
     ("name", VStr "attribute")].



(** The Resource of the header [[node name="Health"]] with the entries
    [StartHealth = 100] and [Title = Boss]. *)
Definition health_node : TSCNResource.t :=
  TSCNResource.Make
    [("resource_type", VStr "node");
     ("entries", VDict [("StartHealth", VStr "100"); ("Title", VStr "Boss")]);
     ("name", VStr "Health")].

(** A scene descriptor and three nodes named [Body], [Health] and
    [AreaOfEffect]. *)
Definition three_nodes_text : string :=
  "[gd_scene load_steps=2 format=2]" ++ PyStr.nl ++
  "[node name=" ++ PyStr.dq ++ "Body" ++ PyStr.dq ++ "]" ++ PyStr.nl ++
  "[node name=" ++ PyStr.dq ++ "Health" ++ PyStr.dq ++ " type=" ++ PyStr.dq
    ++ "Node" ++ PyStr.dq ++ "]" ++ PyStr.nl ++
  "StartHealth = 50" ++ PyStr.nl ++
  "KillAfterNumberOfHits = 3" ++ PyStr.nl ++
  "[node name=" ++ PyStr.dq ++ "AreaOfEffect" ++ PyStr.dq ++ "]" ++ PyStr.nl ++
  "Radius = 4" ++ PyStr.nl.

Definition three_nodes : TSCN.t :=
  Eval vm_compute in
    match TSCN.parse_file three_nodes_text with
    | Ok doc => doc
    | Raise _ => TSCN.empty
    end.

(** The text has no occurrence of the character. *)
Definition lacks (x : ascii) (s : string) : bool :=
  PyStr.forallb (fun c => negb (Ascii.eqb x c)) s.

(** Neither an opening bracket nor a newline. *)
Definition plain (s : string) : bool :=
  PyStr.forallb (fun c => negb (Ascii.eqb "[" c) && Re.dot c) s.

(** Where the look-ahead of the kind holds: before an opening bracket, at
    the end, and before a newline that ends the text. *)
Definition at_kind_end (s : string) : bool :=
  match s with
  | "" => true
  | String c s' =>
      Ascii.eqb "[" c ||
      (Latin1.is_newline c && match s' with "" => true | _ => false end)
  end.

(** The length of the kind, when there is one. *)
Fixpoint kind_length (s : string) : option nat :=
  if at_kind_end s then Some 0
  else match s with
       | String c s' => if Re.dot c then option_map S (kind_length s') else None
       | "" => None
       end.

(** Every value of the mapping is a string. *)
Definition text_values (d : dict) : Prop :=
  Forall (fun kv => exists s, snd kv = VStr s) d.

(** Every value of the mapping is a string that satisfies [Q]. *)
Definition values_hold (Q : string -> Prop) (d : dict) : Prop :=
  Forall (fun kv => exists s, snd kv = VStr s /\ Q s) d.

(** The entries of the Resource, when they are a mapping, hold such
    strings only. *)
Definition entries_hold (Q : string -> Prop) (r : TSCNResource.t) : Prop :=
  forall d, lookup "entries" (TSCNResource.fields r) = Some (VDict d) ->
            values_hold Q d.

(** A node with a bonus, a rate and a quoted description. *)
Definition bonus_text : string :=
  "[node name=" ++ PyStr.dq ++ "Ring" ++ PyStr.dq ++ "]" ++ PyStr.nl ++
  "Bonus = +10%" ++ PyStr.nl ++
  "Rate = 10%" ++ PyStr.nl ++
  "Description = " ++ PyStr.dq ++ "+5 armor" ++ PyStr.dq ++ PyStr.nl.


(** The kinds the parser provides for. *)
Definition recognized (kind : string) : bool :=
  TSCNResource.mem kind
    ["gd_scene"; "node"; "ext_resource"; "sub_resource"; "connection"].


(** The Document after the header [[node name="Health"]] alone. *)
Definition health_header : TSCN.t :=
  Eval vm_compute in
    match TSCN.header TSCN.empty "node"
                      (" name=" ++ PyStr.dq ++ "Health" ++ PyStr.dq) with
    | Ok (doc, _) => doc
    | Raise _ => TSCN.empty
    end.

(** A header whose [name] begins with a plus and whose [desc] spans two
    lines, and a body line with the same value as [name]. *)
Definition quoted_header_text : string :=
  "[node name=" ++ PyStr.dq ++ "+x" ++ PyStr.dq ++
  " desc=" ++ PyStr.dq ++ "a" ++ PyStr.nl ++ "b" ++ PyStr.dq ++ "]" ++ PyStr.nl ++
  "label = " ++ PyStr.dq ++ "+x" ++ PyStr.dq ++ PyStr.nl ++
  "note = " ++ PyStr.dq ++ "a" ++ PyStr.nl ++ "b" ++ PyStr.dq ++ PyStr.nl.

(** Neither an opening bracket nor an equals sign. *)
Definition inert (s : string) : bool := lacks "[" s && lacks "=" s.

(** A node between lines that are neither headers nor body lines: plain
    words, a value without a key, and a value of two words. *)
Definition tolerant_text : string :=
  "[node name=" ++ PyStr.dq ++ "Body" ++ PyStr.dq ++ "]" ++ PyStr.nl ++
  "this line is malformed" ++ PyStr.nl ++
  "Speed = 3" ++ PyStr.nl ++
  "= orphan value" ++ PyStr.nl ++
  "Title = two words" ++ PyStr.nl.

(** The Resource of an item whose slot type is the code of the gloves. *)
Definition gloves_node : TSCNResource.t :=
  TSCNResource.Make
    [("resource_type", VStr "node");
     ("entries", VDict [("Name", VStr "Sparking Tips"); ("SlotType", VStr "5")]);
     ("name", VStr "SparkingTips")].

(** The kind a Resource was created with. *)
Definition kind_of (r : TSCNResource.t) : string :=
  match lookup "resource_type" (TSCNResource.fields r) with
  | Some (VStr k) => k
  | _ => ""
  end.

(** The Resource at the place [id] of the Document is of the kind. *)
Definition is_kind (doc : TSCN.t) (kind : string) (id : nat) : bool :=
  String.eqb (kind_of (TSCN.obj doc id)) kind.

(** The places of the heap, in the order of creation. *)
Definition ids (doc : TSCN.t) : list nat := seq 0 (List.length (TSCN.heap doc)).

(** How often a place is in the flat list: once, and twice for a header
    of the kind [resources]. *)
Definition listing (doc : TSCN.t) (id : nat) : list nat :=
  if is_kind doc "resources" id then [id; id] else [id].

Fixpoint last_of (l : list nat) : option nat :=
  match l with
  | [] => None
  | [x] => Some x
  | _ :: l' => last_of l'
  end.

(** The lists of a Document are laid out after its heap. *)
Definition laid_out (doc : TSCN.t) : Prop :=
  Forall (fun r => exists k, lookup "resource_type" (TSCNResource.fields r)
                             = Some (VStr k)) (TSCN.heap doc) /\
  TSCN.resources doc = flat_map (listing doc) (ids doc) /\
  TSCN.node doc = filter (is_kind doc "node") (ids doc) /\
  TSCN.ext_resource doc = filter (is_kind doc "ext_resource") (ids doc) /\
  TSCN.sub_resource doc = filter (is_kind doc "sub_resource") (ids doc) /\
  TSCN.connection doc = filter (is_kind doc "connection") (ids doc) /\
  TSCN.scene doc = last_of (filter (is_kind doc "gd_scene") (ids doc)).

(** A scene with two descriptors, two nodes and an external resource. *)
Definition mixed_text : string :=
  "[gd_scene load_steps=2 format=2]" ++ PyStr.nl ++
  "[ext_resource path=" ++ PyStr.dq ++ "res://a.gd" ++ PyStr.dq ++ " id=1]" ++ PyStr.nl ++
  "[node name=" ++ PyStr.dq ++ "Body" ++ PyStr.dq ++ "]" ++ PyStr.nl ++
  "Speed = 3" ++ PyStr.nl ++
  "[gd_scene format=3]" ++ PyStr.nl ++
  "[node name=" ++ PyStr.dq ++ "Health" ++ PyStr.dq ++ "]" ++ PyStr.nl ++
  "StartHealth = 50" ++ PyStr.nl.

Definition mixed : TSCN.t :=
  Eval vm_compute in
    match TSCN.parse_file mixed_text with
    | Ok doc => doc
    | Raise _ => TSCN.empty
    end.

(** The relation of the last clause whose path is [path]. *)
Fixpoint last_relation (path : string) (queries : list (list string))
  : option (string * string) :=
  match queries with
  | [] => None
  | [attr; op; rhs] :: queries' =>
      match last_relation path queries' with
      | Some r => Some r
      | None => if String.eqb attr path then Some (op, rhs) else None
      end
  | _ :: queries' => last_relation path queries'
  end.

(** The value of the last pair whose key is [k]. *)
Fixpoint last_value (k : string) (pairs : list (list string)) : option string :=
  match pairs with
  | [] => None
  | [k'; v] :: pairs' =>
      match last_value k pairs' with
      | Some x => Some x
      | None => if String.eqb k' k then Some v else None
      end
  | _ :: pairs' => last_value k pairs'
  end.

(** A selector that names the path [a] twice, on two lines. *)
Definition repeated_selector : string :=
  "node[a=1]" ++ PyStr.nl ++ "[b<2]" ++ PyStr.nl ++ "[a>=3]".

(** The attribute names that a header cannot set without an exception or
    without hiding [entries], [query] or the kind of its Resource. *)
Definition reserved : list string :=
  ["self"; "resource_type"; "__class__"; "__dict__"; "__weakref__";
   "entries"; "query"].

(** A header the parser provides for: a kind it has a list for, and no
    reserved attribute name. *)
Definition plain_header (kind rest : string) : bool :=
  (recognized kind || String.eqb kind "resources") &&
  forallb (fun k => negb (TSCNResource.mem k reserved))
          (map fst (TSCN.header_attr (Re.findall 2 TSCN.pair_re rest) [])).

Definition plain_line (line : list string) : bool :=
  match line with
  | [kind; rest; _; _] =>
      if Nat.ltb 0 (String.length kind) then plain_header kind rest else true
  | _ => true
  end.

Definition begins_with_header (lines : list (list string)) : bool :=
  match lines with
  | [] => true
  | [kind; _; _; _] :: _ => Nat.ltb 0 (String.length kind)
  | _ :: _ => false
  end.

(** The text of a scene as the parser expects it: its first recognized
    line is a header, and every header is plain. *)
Definition well_formed (data : string) : bool :=
  let lines := Re.findall 4 TSCN.line_re data in
  begins_with_header lines && forallb plain_line lines.

(** A Resource as a plain header and body lines make it: a kind, a
    mapping of entries that are strings, the method [query] not hidden,
    and strings for all other attributes. *)
Definition ordinary (r : TSCNResource.t) : Prop :=
  (exists k, lookup "resource_type" (TSCNResource.fields r) = Some (VStr k)) /\
  (exists d, lookup "entries" (TSCNResource.fields r) = Some (VDict d) /\
             text_values d) /\
  lookup "query" (TSCNResource.fields r) = None /\
  (forall k v, lookup k (TSCNResource.fields r) = Some v ->
               k = "entries" \/ exists s, v = VStr s).

(** A path that names an entry or a header attribute: one segment, not
    numeric, and not the name of a method or of a mapping of the
    instance. *)
Definition plain_name (k : string) : bool :=
  negb (PyStr.isnumeric k) && lacks "/" k &&
  negb (TSCNResource.mem k ("entries" :: "__class__" :: "__dict__"
                            :: TSCNResource.method_names)).

(** Every kind of the selector has no clause or a first clause on a plain
    name. *)
Definition plain_selector (selectors : Selector.t) : bool :=
  forallb (fun kc => match snd kc with
                     | [] => true
                     | (path, _) :: _ => plain_name path
                     end) selectors.

(** A slot that is unset or holds a string. *)
Definition textual_slot (v : option pyval) : Prop :=
  match v with
  | None => True
  | Some x => exists s, x = VStr s
  end.

(** The slots of a monster are set in pairs, to strings. *)
Definition textual_monster (m : Game.Monster.t) : Prop :=
  textual_slot (Game.Monster.damage m) /\
  textual_slot (Game.Monster.radius m) /\
  textual_slot (Game.Monster.health m) /\
  textual_slot (Game.Monster.hitsToKill m) /\
  (Game.Monster.damage m = None <-> Game.Monster.radius m = None) /\
  (Game.Monster.health m = None <-> Game.Monster.hitsToKill m = None).


Definition is_tscn (entry : string * string) : bool :=
  Game.endswith ".tscn" (fst entry).

(** A directory with a scene, a note and a scene without a health node. *)
Definition sample_directory : Game.directory :=
  [("Bat.tscn", three_nodes_text);
   ("notes.txt", "StartHealth = 1");
   ("Ghost.gd.tscn", mixed_text)].



(** The text before a final double quote. *)
Fixpoint ends_quoted (s : string) : option string :=
  match s with
  | "" => None
  | String c s' =>
      match s' with
      | "" => if Ascii.eqb Latin1.dquote c then Some "" else None
      | _ => option_map (String c) (ends_quoted s')
      end
  end.

(** The text between a first and a last double quote. *)
Definition between_quotes (s : string) : option string :=
  match s with
  | String c s' => if Ascii.eqb Latin1.dquote c then ends_quoted s' else None
  | "" => None
  end.

(** A node whose description runs over two lines. *)
Definition two_line_text : string :=
  "[node name=" ++ PyStr.dq ++ "Ring" ++ PyStr.dq ++ "]" ++ PyStr.nl ++
  "Description = " ++ PyStr.dq ++ "first" ++ PyStr.nl ++ "second" ++ PyStr.dq
  ++ PyStr.nl.

Definition two_line : TSCN.t :=
  Eval vm_compute in
    match TSCN.parse_file two_line_text with
    | Ok doc => doc
    | Raise _ => TSCN.empty
    end.

(** The position [st'] is reached from [st] by reading on: its text is
    what is left of the text of [st]. *)
Definition follows (st st' : Re.mstate) : Prop :=
  exists read, Re.rest st = read ++ Re.rest st' /\
               Re.pos st' = Re.pos st + String.length read.

(** The attribute names a header cannot set: the call of the constructor
    or the assignment raises. *)
Definition refused : list string :=
  ["self"; "resource_type"; "__class__"; "__dict__"; "__weakref__"].

(** The lines the loop of the parser gets through.  [opened] is [None]
    before the first header; after a header it tells whether the entries
    of the open Resource are still a mapping, which they are unless the
    header has set an attribute [entries]. *)
Fixpoint accepted (lines : list (list string)) (opened : option bool) : bool :=
  match lines with
  | [] => true
  | [kind; rest; _; _] :: lines' =>
      if Nat.ltb 0 (String.length kind) then
        let attr := TSCN.header_attr (Re.findall 2 TSCN.pair_re rest) [] in
        (recognized kind || String.eqb kind "resources") &&
        forallb (fun k => negb (TSCNResource.mem k refused)) (map fst attr) &&
        accepted lines' (Some (negb (has_key "entries" attr)))
      else
        match opened with
        | Some true => accepted lines' opened
        | _ => false
        end
  | _ :: lines' => accepted lines' opened
  end.

(** The open Resource of the loop is as [opened] tells. *)
Definition tracks (doc : TSCN.t) (rsc : option nat) (opened : option bool)
  : Prop :=
  match rsc, opened with
  | None, None => True
  | Some id, Some true =>
      exists d, lookup "entries" (TSCNResource.fields (TSCN.obj doc id))
                = Some (VDict d)
  | Some id, Some false =>
      exists s, lookup "entries" (TSCNResource.fields (TSCN.obj doc id))
                = Some (VStr s)
  | _, _ => False
  end.

(** A body line before any header. *)
Definition orphan_text : string := "Speed = 3" ++ PyStr.nl.

(* ------------------------------------------------------------------ *)
(** * Properties *)

(** ** Walking a path *)

Section QueryFacts.
Import TSCNResource.

Variable self : TSCNResource.t.
Variables (path default : pyval).

Lemma getitem_errors (v : pyval) (s : seg) (e : exn) :
  getitem v s = Raise e ->
  e = IndexError \/ e = KeyError \/ e = TypeError.
Proof.
  destruct v, s; simpl; intros H;
    repeat match type of H with
           | context [match ?x with _ => _ end] => destruct x
           end;
    inversion H; auto.
Qed.

Lemma reduce_getitem_errors (ps : list seg) :
  forall (v : pyval) (e : exn),
    reduce_getitem v ps = Raise e ->
    e = IndexError \/ e = KeyError \/ e = TypeError.
Proof.
  induction ps as [|s ps IH]; simpl; intros v e H.
  - discriminate.
  - destruct (getitem v s) as [v'|e'] eqn:Hs; simpl in H.
    + eapply IH; eassumption.
    + inversion H; subst. eapply getitem_errors; eassumption.
Qed.

Lemma mapM_convert_nonempty (xs : list pyval) (p0 : seg) (ps : list seg) :
  mapM convert xs = Ok (p0 :: ps) -> exists x xs', xs = x :: xs'.
Proof.
  destruct xs as [|x xs']; simpl; intros H.
  - discriminate.
  - eauto.
Qed.

(** The attribute named by the first segment is found: the walk starts
    from its value and the entries are not looked at. *)
Lemma query_attribute (xs : list pyval) (k : string) (ps : list seg) (v : pyval) :
  segments path = Some xs ->
  mapM convert xs = Ok (SStr k :: ps) ->
  getattr self k = Ok v ->
  query self path default = reduce_getitem v ps.
Proof.
  intros Hseg Hconv Hattr. unfold query. rewrite Hseg.
  destruct (mapM_convert_nonempty _ _ _ Hconv) as (x & xs' & ->).
  rewrite Hconv. simpl. rewrite Hattr. simpl. reflexivity.
Qed.

(** No attribute has the name of the first segment: the entries decide. *)
Lemma query_entries (xs : list pyval) (k : string) (ps : list seg)
      (e : exn) (entries : pyval) (isin : bool) :
  segments path = Some xs ->
  mapM convert xs = Ok (SStr k :: ps) ->
  getattr self k = Raise e ->
  getattr self "entries" = Ok entries ->
  contains k entries = Ok isin ->
  query self path default =
    if isin then reduce_getitem entries (SStr k :: ps) else Ok default.
Proof.
  intros Hseg Hconv Hattr Hent Hin. unfold query. rewrite Hseg.
  destruct (mapM_convert_nonempty _ _ _ Hconv) as (x & xs' & ->).
  rewrite Hconv. simpl. rewrite Hattr. simpl. rewrite Hent. simpl.
  rewrite Hin. simpl. reflexivity.
Qed.

End QueryFacts.

(** C1 (as amended).  When the first segment of a path resolves, as an
    attribute of the Resource or else as a key of its entries, and a later
    step of the walk fails, [query] does not fall back on the default: it
    is left by the exception of the failing step, which is an [IndexError]
    (index out of range), a [KeyError] (key absent) or a [TypeError]
    (value not indexable that way). *)
Theorem query_raises_when_a_later_step_fails
        (self : TSCNResource.t) (path default : pyval)
        (xs : list pyval) (k : string) (ps : list seg)
        (first : pyval) (e : exn) :
  TSCNResource.segments path = Some xs ->
  mapM TSCNResource.convert xs = Ok (SStr k :: ps) ->
  (TSCNResource.getattr self k = Ok first \/
   exists d, TSCNResource.getattr self k = Raise AttributeError /\
             TSCNResource.getattr self "entries" = Ok (VDict d) /\
             lookup k d = Some first) ->
  reduce_getitem first ps = Raise e ->
  TSCNResource.query self path default = Raise e /\
  (e = IndexError \/ e = KeyError \/ e = TypeError).
Proof.
  intros Hseg Hconv Hfirst Hwalk. split.
  - destruct Hfirst as [Hattr | (d & Hattr & Hent & Hkey)].
    + rewrite (query_attribute self path default xs k ps first Hseg Hconv Hattr).
      exact Hwalk.
    + assert (Hin : contains k (VDict d) = Ok true).
      { simpl. unfold has_key. rewrite Hkey. reflexivity. }
      rewrite (query_entries self path default xs k ps AttributeError (VDict d)
                 true Hseg Hconv Hattr Hent Hin).
      simpl. rewrite Hkey. simpl. exact Hwalk.
  - eapply reduce_getitem_errors; eassumption.
Qed.

Lemma query_raises_when_a_later_step_fails_witness :
  TSCNResource.query sample_resource (VStr "k/5") (VStr "X") = Raise IndexError /\
  (IndexError = IndexError \/ IndexError = KeyError \/ IndexError = TypeError).
Proof.
  apply (query_raises_when_a_later_step_fails
           sample_resource (VStr "k/5") (VStr "X")
           [VStr "k"; VStr "5"] "k" [SInt 5] (VStr "ab") IndexError).
  - reflexivity.
  - reflexivity.
  - right. exists [("k", VStr "ab")]. repeat split; reflexivity.
  - reflexivity.
Defined.

(** C1, refuted as stated: the first segment resolves and a later step
    fails, yet the default ["X"] is not what comes back.  The text
    [[node name="Health"]] followed by [k = ab] parses to one Resource; on
    it an index out of range, an absent key and a value indexed by a name
    each raise.  So does index 0 of an empty sequence held by an attribute
    [A]. *)
Lemma query_step_failure_is_not_the_default :
  exists doc seq_holder,
    TSCN.parse_file ("[node name=" ++ PyStr.dq ++ "Health" ++ PyStr.dq ++ "]"
                     ++ PyStr.nl ++ "k = ab" ++ PyStr.nl) = Ok doc /\
    TSCNResource.query (TSCN.obj doc 0) (VStr "k/5") (VStr "X") = Raise IndexError /\
    TSCNResource.query (TSCN.obj doc 0) (VStr "entries/zz") (VStr "X") = Raise KeyError /\
    TSCNResource.query (TSCN.obj doc 0) (VStr "name/first") (VStr "X") = Raise TypeError /\
    TSCNResource.query (TSCN.obj doc 0) (VList [VStr "k"; VStr "5"]) (VStr "X")
      <> Ok (VStr "X") /\
    TSCNResource.init (VStr "node") [("A", VList [])] = Ok seq_holder /\
    TSCNResource.query seq_holder (VStr "A/0/B") (VStr "X") = Raise IndexError.
Proof.
  eexists. eexists.
  split; [vm_compute; reflexivity|].
  split; [vm_compute; reflexivity|].
  split; [vm_compute; reflexivity|].
  split; [vm_compute; reflexivity|].
  split; [vm_compute; discriminate|].
  split; vm_compute; reflexivity.
Qed.





(** ** The predicate of a selector *)

Section PredicateFacts.
Import TSCN.

Lemma numeric_table (a b : Z) :
  (numeric "=" a b = (a =? b) /\
   numeric "==" a b = (a =? b) /\
   numeric ">=" a b = (b <=? a) /\
   numeric "<=" a b = (a <=? b) /\
   numeric ">" a b = (b <? a) /\
   numeric "<" a b = (a <? b) /\
   numeric "!=" a b = negb (a =? b))%Z.
Proof.
  unfold numeric; simpl.
  rewrite Z.geb_leb, Z.gtb_ltb. repeat split; reflexivity.
Qed.

Lemma numeric_other (op : string) (a b : Z) :
  ~ In op ["="; "=="; ">="; "<="; ">"; "<"; "!="] ->
  numeric op a b = false.
Proof.
  intros Hop. unfold numeric.
  repeat match goal with
         | |- context [String.eqb op ?s] =>
             let E := fresh "E" in
             destruct (String.eqb_spec op s) as [E|E];
             [exfalso; apply Hop; rewrite E; simpl; tauto|]
         end.
  reflexivity.
Qed.

(** The handler compares the converted left-hand side when only the
    right-hand side fails to parse; the two texts differ then, so the
    verdict is that of the texts. *)
Lemma textual_after_conversion (op l rhs : string) (a : Z) :
  int_of_str l = Some a ->
  int_of_str rhs = None ->
  textual op (VInt a) rhs = textual op (VStr l) rhs.
Proof.
  intros Hl Hr. unfold textual, equal.
  destruct (String.eqb_spec l rhs) as [E|E].
  - subst. congruence.
  - reflexivity.
Qed.

Lemma predicate_unfold (selectors : Selector.t) (self : TSCNResource.t)
      (kind path op rhs : string) (others : Selector.clauses) :
  TSCNResource.getattr self "resource_type" = Ok (VStr kind) ->
  lookup kind selectors = Some ((path, (op, rhs)) :: others) ->
  predicate selectors self = clause self path op rhs.
Proof.
  intros Hkind Hsel. unfold predicate, clauses_for.
  rewrite Hkind. simpl. rewrite Hsel. reflexivity.
Qed.

Lemma keep_filter (p : nat -> result bool) (verdict : nat -> bool) (ids : list nat) :
  (forall id, In id ids -> p id = Ok (verdict id)) ->
  keep p ids = Ok (filter verdict ids).
Proof.
  induction ids as [|id ids IH]; simpl; intros H.
  - reflexivity.
  - rewrite (H id) by auto. simpl.
    rewrite IH by auto. simpl.
    destruct (verdict id); reflexivity.
Qed.

End PredicateFacts.

(** C4 (as amended).  For a selector whose clauses for a kind begin with
    [(path, op, rhs)] and a Resource of that kind, the first clause alone
    decides, whatever clauses follow.  A query that gives [None] rejects.
    When the queried value is a string: if it and [rhs] both parse as
    integers the verdict is the numeric comparison, with the usual meaning
    of [=], [==], [>=], [<=], [>], [<] and [!=] and a rejection for any
    other operator; if one of them does not parse, [=] and [==] are
    equality of the two texts, [!=] is their inequality, and any other
    operator rejects.  A queried value that [int] refuses with a
    [TypeError], such as a mapping, makes the predicate raise it. *)
Theorem predicate_decided_by_first_clause
        (selectors : Selector.t) (self : TSCNResource.t)
        (kind path op rhs : string) (others : Selector.clauses) :
  TSCNResource.getattr self "resource_type" = Ok (VStr kind) ->
  lookup kind selectors = Some ((path, (op, rhs)) :: others) ->
  (TSCNResource.call_query self (VStr path) VNone = Ok VNone ->
   TSCN.predicate selectors self = Ok false) /\
  (forall l a b,
      TSCNResource.call_query self (VStr path) VNone = Ok (VStr l) ->
      int_of_str l = Some a -> int_of_str rhs = Some b ->
      TSCN.predicate selectors self = Ok (TSCN.numeric op a b)) /\
  (forall l,
      TSCNResource.call_query self (VStr path) VNone = Ok (VStr l) ->
      int_of_str l = None \/ int_of_str rhs = None ->
      TSCN.predicate selectors self =
        Ok (if String.eqb op "=" || String.eqb op "==" then String.eqb l rhs
            else if String.eqb op "!=" then negb (String.eqb l rhs)
            else false)) /\
  (forall a b,
      TSCN.numeric "=" a b = (a =? b) /\
      TSCN.numeric "==" a b = (a =? b) /\
      TSCN.numeric ">=" a b = (b <=? a) /\
      TSCN.numeric "<=" a b = (a <=? b) /\
      TSCN.numeric ">" a b = (b <? a) /\
      TSCN.numeric "<" a b = (a <? b) /\
      TSCN.numeric "!=" a b = negb (a =? b))%Z /\
  (forall a b,
      ~ In op ["="; "=="; ">="; "<="; ">"; "<"; "!="] ->
      TSCN.numeric op a b = false) /\
  (forall v,
      TSCNResource.call_query self (VStr path) VNone = Ok v ->
      v <> VNone -> py_int v = Raise TypeError ->
      TSCN.predicate selectors self = Raise TypeError).
Proof.
  intros Hkind Hsel.
  rewrite (predicate_unfold selectors self kind path op rhs others Hkind Hsel).
  unfold TSCN.clause.
  split; [|split; [|split; [|split; [|split]]]]; cycle 5.
  { intros v -> Hv Hint. cbn [bind]. rewrite Hint.
    destruct v; try reflexivity. congruence. }
  - intros ->. reflexivity.
  - intros l a b -> Hl Hr. simpl. rewrite Hl, Hr. reflexivity.
  - intros l -> Hfail. simpl.
    destruct (int_of_str l) as [a|] eqn:Hl.
    + destruct Hfail as [Hfail|Hr]; [discriminate|]. rewrite Hr.
      rewrite (textual_after_conversion op l rhs a Hl Hr). reflexivity.
    + reflexivity.
  - apply numeric_table.
  - intros a b. apply numeric_other.
Qed.

Lemma predicate_decided_by_first_clause_witness :
  TSCN.predicate [("node", [("StartHealth", (">=", "50")); ("Title", ("=", "Minion"))])]
                 health_node
  = Ok (TSCN.numeric ">=" 100 50).
Proof.
  destruct (predicate_decided_by_first_clause
              [("node", [("StartHealth", (">=", "50")); ("Title", ("=", "Minion"))])]
              health_node "node" "StartHealth" ">=" "50"
              [("Title", ("=", "Minion"))])
    as (_ & Hnum & _).
  - reflexivity.
  - reflexivity.
  - apply (Hnum "100" 100%Z 50%Z); reflexivity.
Defined.

(** C4, refuted as stated: the path [entries] resolves to the mapping of
    the entries, which is not [None]; converting it to an integer fails
    with a [TypeError], which the handler of the predicate does not
    catch, so the operator [=] is not decided by an equality and the
    selection is left by the exception. *)
Lemma predicate_raises_on_a_mapping :
  exists doc selectors,
    TSCN.parse_file ("[node]" ++ PyStr.nl) = Ok doc /\
    TSCN.compile (TSCN.Text "node[entries=1]") = Ok selectors /\
    lookup "node" selectors = Some [("entries", ("=", "1"))] /\
    TSCNResource.getattr (TSCN.obj doc 0) "resource_type" = Ok (VStr "node") /\
    TSCNResource.call_query (TSCN.obj doc 0) (VStr "entries") VNone = Ok (VDict []) /\
    TSCN.predicate selectors (TSCN.obj doc 0) = Raise TypeError /\
    TSCN.select doc (TSCN.Text "node[entries=1]") = Raise TypeError.
Proof.
  eexists. eexists.
  split; [vm_compute; reflexivity|].
  split; [vm_compute; reflexivity|].
  repeat split; vm_compute; reflexivity.
Qed.

(** ** Selection *)





(** ** Compiling a selector *)

Section KindFacts.
Import Re Selector.

Lemma star_lazy_ext (A : Type) (p : ascii -> bool) (k1 k2 : mstate -> option A) :
  (forall st, k1 st = k2 st) ->
  forall s st, star_lazy p s st k1 = star_lazy p s st k2.
Proof.
  intros Hk. induction s as [|c s IH]; intros st; simpl; rewrite Hk.
  - reflexivity.
  - destruct (k2 st); [reflexivity|].
    destruct (p c); [apply IH | reflexivity].
Qed.

Lemma kind_re_exec (s : string) :
  match_at false kind_re (start s) =
    star_lazy dot s (start s)
      (fun st' => if at_kind_end (rest st') then Some st' else None).
Proof.
  unfold match_at, kind_re.
  cbn -[Ascii.eqb Latin1.is_newline at_kind_end].
  apply star_lazy_ext. intros st. unfold at_kind_end.
  destruct (rest st) as [|c s']; cbn -[Ascii.eqb Latin1.is_newline].
  - reflexivity.
  - destruct (Ascii.eqb "[" c); cbn -[Ascii.eqb Latin1.is_newline].
    + reflexivity.
    + destruct s'; destruct (Latin1.is_newline c); reflexivity.
Qed.

Lemma kind_scan (s : string) :
  forall st, rest st = s ->
    option_map pos
      (star_lazy dot s st
         (fun st' => if at_kind_end (rest st') then Some st' else None))
    = option_map (fun n => pos st + n) (kind_length s).
Proof.
  induction s as [|c s IH]; intros st Hr.
  - simpl. rewrite Hr. simpl. f_equal. lia.
  - cbn [star_lazy kind_length]. rewrite Hr.
    destruct (at_kind_end (String c s)) eqn:E.
    + simpl. f_equal. lia.
    + destruct (dot c); [|reflexivity].
      rewrite IH by reflexivity.
      destruct (kind_length s); simpl; [f_equal; lia | reflexivity].
Qed.

Lemma re_match_kind (s : string) :
  re_match kind_re s = option_map (fun n => PyStr.take n s) (kind_length s).
Proof.
  unfold re_match. rewrite kind_re_exec.
  pose proof (kind_scan s (start s) eq_refl) as H.
  destruct (star_lazy dot s (start s) _) as [st'|];
    destruct (kind_length s) as [n|]; simpl in H; inversion H; reflexivity.
Qed.

Lemma plain_cons (c : ascii) (s : string) :
  plain (String c s) = true ->
  Ascii.eqb "[" c = false /\ dot c = true /\ plain s = true.
Proof.
  unfold plain. simpl. intros H.
  apply andb_true_iff in H. destruct H as [H1 H2].
  apply andb_true_iff in H1. destruct H1 as [H1 H3].
  apply negb_true_iff in H1. auto.
Qed.

Lemma at_kind_end_plain (c : ascii) (s : string) :
  Ascii.eqb "[" c = false -> dot c = true -> at_kind_end (String c s) = false.
Proof.
  unfold dot. intros H1 H2. apply negb_true_iff in H2.
  unfold at_kind_end. rewrite H1, H2. reflexivity.
Qed.

Lemma kind_length_found (pre tail : string) :
  plain pre = true -> at_kind_end tail = true ->
  kind_length (pre ++ tail) = Some (String.length pre).
Proof.
  intros Hpre Htail. induction pre as [|c pre IH].
  - change ("" ++ tail) with tail. destruct tail as [|c t]; [reflexivity|].
    cbn [kind_length]. rewrite Htail. reflexivity.
  - apply plain_cons in Hpre. destruct Hpre as (H1 & H2 & H3).
    change (String c pre ++ tail) with (String c (pre ++ tail)).
    cbn [kind_length]. rewrite (at_kind_end_plain _ _ H1 H2), H2, (IH H3).
    reflexivity.
Qed.

Lemma kind_length_newline (pre post : string) :
  plain pre = true -> post <> "" ->
  kind_length (pre ++ String Latin1.newline post) = None.
Proof.
  intros Hpre Hpost. induction pre as [|c pre IH].
  - simpl. destruct post; [congruence | reflexivity].
  - apply plain_cons in Hpre. destruct Hpre as (H1 & H2 & H3).
    change (String c pre ++ String Latin1.newline post)
      with (String c (pre ++ String Latin1.newline post)).
    cbn [kind_length]. rewrite (at_kind_end_plain _ _ H1 H2), H2, (IH H3).
    reflexivity.
Qed.

(** Every text is of one of the two shapes. *)
Lemma kind_shapes (s : string) :
  (exists pre tail, s = pre ++ tail /\ plain pre = true /\ at_kind_end tail = true) \/
  (exists pre post,
      s = pre ++ String Latin1.newline post /\ post <> "" /\ plain pre = true).
Proof.
  induction s as [|c s IH].
  - left. exists "", "". auto.
  - destruct (Ascii.eqb "[" c) eqn:Eb.
    { left. exists "", (String c s). unfold at_kind_end. rewrite Eb. auto. }
    destruct (Latin1.is_newline c) eqn:En.
    { apply Ascii.eqb_eq in En. subst c. destruct s as [|c' s'].
      - left. exists "", (String Latin1.newline ""). auto.
      - right. exists "", (String c' s'). repeat split; congruence. }
    assert (Hc : forall p, plain p = true -> plain (String c p) = true).
    { intros p Hp.
      assert (Hd : dot c = true) by (unfold dot; rewrite En; reflexivity).
      unfold plain in *. cbn [PyStr.forallb]. rewrite Eb, Hd, Hp. reflexivity. }
    destruct IH as [(pre & tail & -> & Hp & Ht) | (pre & post & -> & Hn & Hp)].
    + left. exists (String c pre), tail. auto.
    + right. exists (String c pre), post. auto.
Qed.

Lemma take_length_app (pre tail : string) :
  PyStr.take (String.length pre) (pre ++ tail) = pre.
Proof.
  induction pre as [|c pre IH]; simpl.
  - destruct tail; reflexivity.
  - rewrite IH. reflexivity.
Qed.

Lemma parse_str (s : string) :
  parse (VStr s) =
    match kind_length s with
    | Some n => Ok [(PyStr.take n s, collect (findall 3 clause_re s) [])]
    | None => Raise ValueError
    end.
Proof.
  unfold parse. rewrite re_match_kind.
  destruct (kind_length s); reflexivity.
Qed.

(** A text without an opening bracket has no clause. *)
Lemma scan_without_bracket (fuel : nat) :
  forall (must_advance : bool) (st : mstate),
    lacks "[" (rest st) = true ->
    hits 3 (scan fuel clause_re must_advance st) = [].
Proof.
  induction fuel as [|fuel IH]; intros b st Hl.
  - reflexivity.
  - cbn [scan].
    assert (Hm : match_at b clause_re st = None).
    { unfold match_at, clause_re. cbn -[Ascii.eqb].
      destruct (rest st) as [|c s']; [reflexivity|].
      unfold lacks in Hl. cbn [PyStr.forallb] in Hl.
      apply andb_true_iff in Hl. destruct Hl as [Hl _].
      apply negb_true_iff in Hl. rewrite Hl. reflexivity. }
    rewrite Hm. destruct (rest st) as [|c s'] eqn:Hr.
    + reflexivity.
    + cbn [hits]. apply IH. cbn [rest step].
      unfold lacks in Hl. cbn [PyStr.forallb] in Hl.
      apply andb_true_iff in Hl. apply Hl.
Qed.

Lemma findall_without_bracket (s : string) :
  lacks "[" s = true -> findall 3 clause_re s = [].
Proof.
  intros H. unfold findall, pieces. apply scan_without_bracket. exact H.
Qed.

Lemma at_kind_end_cases (tail : string) :
  at_kind_end tail = true <->
  tail = "" \/ tail = PyStr.nl \/ exists t, tail = String "[" t.
Proof.
  split.
  - destruct tail as [|c t]; [auto|]. unfold at_kind_end. intros H.
    apply orb_true_iff in H. destruct H as [H|H].
    + apply Ascii.eqb_eq in H. subst. eauto.
    + apply andb_true_iff in H. destruct H as [Hn Ht].
      unfold Latin1.is_newline in Hn.
      apply Ascii.eqb_eq in Hn. subst. destruct t; [auto | discriminate].
  - intros [->|[->|(t & ->)]]; reflexivity.
Qed.

Lemma plain_lacks (s : string) :
  plain s = true <-> lacks "[" s = true /\ lacks Latin1.newline s = true.
Proof.
  unfold plain, lacks, dot, Latin1.is_newline.
  induction s as [|c s IH]; simpl.
  - tauto.
  - rewrite !andb_true_iff, IH, (Ascii.eqb_sym c Latin1.newline). tauto.
Qed.

End KindFacts.

(** C7 (as amended).  Compilation fails with the invalid-selector error
    exactly when the kind cannot be extracted.  That is so for every source
    that is not a string, and for a string exactly when a newline that is
    not its last character comes before its first opening bracket.  Every
    other string compiles, to a mapping from its kind (the text before the
    first opening bracket, or the whole text up to a final newline) to a
    clause mapping, which is empty when the text has no opening bracket;
    under an empty clause mapping every Resource of that kind matches. *)
Theorem selector_compilation :
  (forall s, Selector.parse (VStr s) = Raise ValueError <->
             Re.re_match Selector.kind_re s = None) /\
  (forall v, (forall s, v <> VStr s) -> Selector.parse v = Raise ValueError) /\
  (forall s, Selector.parse (VStr s) = Raise ValueError <->
             exists pre post,
               s = pre ++ String Latin1.newline post /\ post <> "" /\
               lacks "[" pre = true /\ lacks Latin1.newline pre = true) /\
  (forall pre tail,
      lacks "[" pre = true -> lacks Latin1.newline pre = true ->
      tail = "" \/ tail = PyStr.nl \/ (exists t, tail = String "[" t) ->
      exists clauses, Selector.parse (VStr (pre ++ tail)) = Ok [(pre, clauses)]) /\
  (forall s compiled,
      lacks "[" s = true -> Selector.parse (VStr s) = Ok compiled ->
      exists kind, compiled = [(kind, [])]) /\
  (forall self kind,
      TSCNResource.getattr self "resource_type" = Ok (VStr kind) ->
      TSCN.predicate [(kind, [])] self = Ok true).
Proof.
  split; [|split; [|split; [|split; [|split]]]].
  - intros s. unfold Selector.parse.
    destruct (Re.re_match Selector.kind_re s); split; congruence.
  - intros v Hv. destruct v; try reflexivity. exfalso. eapply Hv. reflexivity.
  - intros s. rewrite parse_str. split.
    + intros Hfail.
      destruct (kind_shapes s) as [(pre & tail & -> & Hp & Ht) | (pre & post & -> & Hn & Hp)].
      * rewrite (kind_length_found _ _ Hp Ht) in Hfail. discriminate.
      * apply plain_lacks in Hp. exists pre, post. tauto.
    + intros (pre & post & -> & Hn & Hb & Hl).
      rewrite kind_length_newline; [reflexivity | | exact Hn].
      apply plain_lacks. auto.
  - intros pre tail Hb Hl Ht. rewrite parse_str.
    rewrite kind_length_found.
    + rewrite take_length_app. eauto.
    + apply plain_lacks. auto.
    + apply at_kind_end_cases. exact Ht.
  - intros s compiled Hb. rewrite parse_str, (findall_without_bracket _ Hb).
    destruct (kind_length s); intros H; inversion H. eauto.
  - intros self kind Hk. unfold TSCN.predicate, TSCN.clauses_for.
    rewrite Hk. simpl. rewrite String.eqb_refl. reflexivity.
Qed.

Lemma selector_compilation_witness :
  Selector.parse (VInt 5) = Raise ValueError /\
  Selector.parse (VStr ("node" ++ "[name=Health]")) = Ok [("node", [("name", ("=", "Health"))])] /\
  (exists kind, [("node", @nil (string * (string * string)))] = [(kind, [])]).
Proof.
  destruct selector_compilation as (_ & Hother & _ & Hok & Hnone & _).
  split; [|split].
  - apply Hother. intros s; discriminate.
  - destruct (Hok "node" "[name=Health]") as (clauses & H).
    + reflexivity.
    + reflexivity.
    + right; right. eexists. reflexivity.
    + rewrite H. vm_compute in H. inversion H. reflexivity.
  - apply (Hnone "node"); reflexivity.
Defined.

(** C7, refuted as stated: a string source whose first line ends before
    any bracket does not compile.  Nothing matches at the start of the
    text, so its kind cannot be extracted and the invalid-selector error is
    raised; [select] raises it as well. *)
Lemma selector_with_a_newline_does_not_compile :
  Selector.parse (VStr ("node" ++ PyStr.nl ++ "[name=Health]")) = Raise ValueError /\
  Re.re_match Selector.kind_re ("node" ++ PyStr.nl ++ "[name=Health]") = None /\
  TSCN.select TSCN.empty (TSCN.Text ("node" ++ PyStr.nl ++ "[name=Health]"))
    = Raise ValueError.
Proof. repeat split; vm_compute; reflexivity. Qed.

(** ** Mappings and the attributes of a Resource *)

Section DictFacts.
Variable V : Type.

Lemma lookup_store_same (k : string) (v : V) (d : list (string * V)) :
  lookup k (store k v d) = Some v.
Proof.
  induction d as [|[k' v'] d IH]; simpl.
  - rewrite String.eqb_refl. reflexivity.
  - destruct (String.eqb_spec k' k) as [E|E]; simpl.
    + rewrite String.eqb_refl. reflexivity.
    + destruct (String.eqb_spec k' k); [contradiction | exact IH].
Qed.

Lemma lookup_store_other (k k' : string) (v : V) (d : list (string * V)) :
  k' <> k -> lookup k (store k' v d) = lookup k d.
Proof.
  intros Hne. induction d as [|[k0 v0] d IH]; simpl.
  - destruct (String.eqb_spec k' k); [contradiction | reflexivity].
  - destruct (String.eqb_spec k0 k') as [E|E]; simpl.
    + subst k0. destruct (String.eqb_spec k' k); [contradiction | reflexivity].
    + destruct (String.eqb_spec k0 k); [reflexivity | exact IH].
Qed.

Lemma lookup_store (k k' : string) (v : V) (d : list (string * V)) :
  lookup k (store k' v d) = if String.eqb k' k then Some v else lookup k d.
Proof.
  destruct (String.eqb_spec k' k) as [E|E].
  - subst. apply lookup_store_same.
  - apply lookup_store_other. exact E.
Qed.

Lemma lookup_In (k : string) (v : V) (d : list (string * V)) :
  lookup k d = Some v -> In (k, v) d.
Proof.
  induction d as [|[k' v'] d IH]; simpl; intros H.
  - discriminate.
  - destruct (String.eqb_spec k' k) as [E|E].
    + inversion H. subst. auto.
    + auto.
Qed.

Lemma store_Forall (P : string * V -> Prop) (k : string) (v : V)
      (d : list (string * V)) :
  P (k, v) -> Forall P d -> Forall P (store k v d).
Proof.
  intros Hv Hd. induction Hd as [|[k' v'] d Hx Hd IH]; simpl.
  - auto.
  - destruct (String.eqb k' k); auto.
Qed.

End DictFacts.

Section ResourceFacts.
Import TSCNResource.

Lemma text_values_store (k s : string) (d : dict) :
  text_values d -> text_values (store k (VStr s) d).
Proof.
  intros Hd. apply store_Forall; [simpl; eauto | exact Hd].
Qed.

Lemma text_values_lookup (d : dict) (k : string) (v : pyval) :
  text_values d -> lookup k d = Some v -> exists s, v = VStr s.
Proof.
  intros Hd Hk. apply lookup_In in Hk.
  unfold text_values in Hd. rewrite Forall_forall in Hd.
  apply (Hd (k, v) Hk).
Qed.

Lemma getattr_entries (self : t) :
  getattr self "entries" =
    match lookup "entries" (fields self) with
    | Some v => Ok v
    | None => Raise AttributeError
    end.
Proof.
  unfold getattr. cbn. destruct (lookup "entries" (fields self)); reflexivity.
Qed.

(** Setting an attribute to a string stores it in the instance, or is
    refused. *)
Lemma setattr_text (self self' : t) (k s : string) :
  setattr self k (VStr s) = Ok self' ->
  fields self' = store k (VStr s) (fields self) /\
  k <> "__class__" /\ k <> "__dict__" /\ k <> "__weakref__".
Proof.
  unfold setattr.
  destruct (String.eqb_spec k "__class__"); [discriminate|].
  destruct (String.eqb_spec k "__dict__"); [discriminate|].
  destruct (String.eqb_spec k "__weakref__"); [discriminate|].
  intros H. inversion H. auto.
Qed.

(** After the keyword arguments, all strings, have been set, an attribute
    is one of them or what it was. *)
Lemma setattrs_text (attr : dict) :
  text_values attr ->
  forall self self',
    setattrs self attr = Ok self' ->
    forall k v, lookup k (fields self') = Some v ->
                lookup k (fields self) = Some v \/ exists s, v = VStr s.
Proof.
  induction 1 as [|[k0 v0] attr (s0 & Hv) Htext IH]; intros self self' Hset k v Hk.
  - simpl in Hset. inversion Hset. subst. auto.
  - simpl in Hv. subst v0. simpl in Hset.
    destruct (setattr self k0 (VStr s0)) as [self1|] eqn:H1; [|discriminate].
    simpl in Hset. apply setattr_text in H1. destruct H1 as (Hf & _).
    destruct (IH self1 self' Hset k v Hk) as [Hkeep|Hkeep]; [|auto].
    rewrite Hf, lookup_store in Hkeep.
    destruct (String.eqb k0 k); [right; inversion Hkeep; eauto | auto].
Qed.

End ResourceFacts.

(** ** The parser *)

Section ParserFacts.
Import TSCN.

Lemma heap_alloc (doc : t) (rsc : TSCNResource.t) :
  heap (alloc doc rsc) = (heap doc ++ [rsc])%list.
Proof. destruct doc. reflexivity. Qed.

Lemma heap_set_scene (doc : t) (id : nat) : heap (set_scene doc id) = heap doc.
Proof. destruct doc. reflexivity. Qed.

Lemma heap_append_resource (doc : t) (id : nat) :
  heap (append_resource doc id) = heap doc.
Proof. destruct doc. reflexivity. Qed.

Lemma heap_add_to_kind (doc doc' : t) (kind : string) (id : nat) :
  add_to_kind doc kind id = Ok doc' -> heap doc' = heap doc.
Proof.
  destruct doc as [h rs n e s c sc]. unfold add_to_kind.
  repeat match goal with
         | |- context [if ?b then _ else _] => destruct b
         end;
    try destruct sc; intros H; inversion H; reflexivity.
Qed.

(** A header that succeeds puts the Resource it builds at the end of the
    heap. *)
Lemma header_heap (doc doc' : t) (kind rest : string) (id : nat) :
  header doc kind rest = Ok (doc', id) ->
  id = List.length (heap doc) /\
  exists rsc,
    TSCNResource.init (VStr kind) (header_attr (Re.findall 2 pair_re rest) []) = Ok rsc /\
    heap doc' = (heap doc ++ [rsc])%list.
Proof.
  unfold header.
  destruct (TSCNResource.init _ _) as [rsc|] eqn:Hinit; [|discriminate].
  cbn [bind].
  destruct (String.eqb kind "gd_scene").
  - cbn [bind]. intros H. inversion H. split; [reflexivity|].
    exists rsc. split; [reflexivity|].
    rewrite heap_append_resource, heap_set_scene, heap_alloc. reflexivity.
  - destruct (add_to_kind _ _ _) as [doc1|] eqn:Hadd; [|discriminate].
    cbn [bind]. intros H. inversion H. split; [reflexivity|].
    exists rsc. split; [reflexivity|].
    rewrite heap_append_resource, (heap_add_to_kind _ _ _ _ Hadd), heap_alloc.
    reflexivity.
Qed.

Lemma obj_new (doc : t) (h : list TSCNResource.t) (rsc : TSCNResource.t) :
  heap doc = (h ++ [rsc])%list -> obj doc (List.length h) = rsc.
Proof. intros H. unfold obj. rewrite H. apply nth_middle. Qed.

Lemma header_attr_text (pairs : list (list string)) :
  forall attr, text_values attr -> text_values (header_attr pairs attr).
Proof.
  induction pairs as [|p pairs IH]; intros attr Ha; simpl.
  - exact Ha.
  - destruct p as [|k [|v [|x p]]]; auto.
    apply IH. apply text_values_store. exact Ha.
Qed.

(** What [set_entry] does to the heap when it succeeds. *)
Lemma set_entry_heap (doc doc' : t) (id : nat) (key value : string) :
  set_entry doc id key value = Ok doc' ->
  exists d,
    lookup "entries" (TSCNResource.fields (obj doc id)) = Some (VDict d) /\
    heap doc' =
      (firstn id (heap doc)
       ++ TSCNResource.Make
            (store "entries" (VDict (store key (VStr value) d))
                   (TSCNResource.fields (obj doc id)))
       :: skipn (S id) (heap doc))%list.
Proof.
  unfold set_entry. rewrite getattr_entries.
  destruct (lookup "entries" _) as [v|] eqn:Hl; [|discriminate].
  cbn [bind]. destruct v; try discriminate.
  destruct doc as [h rs n e s c sc]. intros H. inversion H.
  exists d. split; reflexivity.
Qed.

Section Invariant.
Variable Q : string -> Prop.
Hypothesis Q_body : forall value, Q (body_value value).

Lemma values_hold_store (k s : string) (d : dict) :
  Q s -> values_hold Q d -> values_hold Q (store k (VStr s) d).
Proof.
  intros Hs Hd. apply store_Forall; [simpl; eauto | exact Hd].
Qed.

Lemma init_entries_hold (kind : pyval) (attr : dict) (rsc : TSCNResource.t) :
  text_values attr ->
  TSCNResource.init kind attr = Ok rsc ->
  entries_hold Q rsc.
Proof.
  intros Ha. unfold TSCNResource.init.
  destruct (has_key "self" attr || has_key "resource_type" attr); [discriminate|].
  intros Hset d Hd.
  destruct (setattrs_text attr Ha _ _ Hset "entries" (VDict d) Hd) as [H|(s & H)].
  - cbn in H. inversion H. constructor.
  - discriminate.
Qed.

Lemma obj_entries_hold (doc : t) (id : nat) :
  Forall (entries_hold Q) (heap doc) -> entries_hold Q (obj doc id).
Proof.
  intros Hh. unfold obj.
  destruct (nth_in_or_default id (heap doc) (TSCNResource.Make [])) as [Hin|Hd].
  - rewrite Forall_forall in Hh. apply Hh. exact Hin.
  - rewrite Hd. intros d H. discriminate.
Qed.

Lemma set_entry_hold (doc doc' : t) (id : nat) (key value : string) :
  Q value ->
  Forall (entries_hold Q) (heap doc) ->
  set_entry doc id key value = Ok doc' ->
  Forall (entries_hold Q) (heap doc').
Proof.
  intros Hv Hh Hset.
  destruct (set_entry_heap _ _ _ _ _ Hset) as (d & Hd & ->).
  pose proof (obj_entries_hold doc id Hh d Hd) as Hold.
  apply Forall_app. split; [|constructor].
  - rewrite <- (firstn_skipn id (heap doc)) in Hh.
    apply Forall_app in Hh. apply Hh.
  - intros d'. cbn [TSCNResource.fields]. rewrite lookup_store_same.
    intros H. inversion H. apply values_hold_store; assumption.
  - rewrite <- (firstn_skipn (S id) (heap doc)) in Hh.
    apply Forall_app in Hh. apply Hh.
Qed.

Lemma header_hold (doc doc' : t) (kind rest : string) (id : nat) :
  Forall (entries_hold Q) (heap doc) ->
  header doc kind rest = Ok (doc', id) ->
  Forall (entries_hold Q) (heap doc').
Proof.
  intros Hh Hhead.
  destruct (header_heap _ _ _ _ _ Hhead) as (_ & rsc & Hinit & ->).
  apply Forall_app. split; [exact Hh|].
  constructor; [|constructor].
  eapply init_entries_hold; [|exact Hinit].
  apply header_attr_text. constructor.
Qed.

(** What holds of every stored value holds of every entry, all along the
    loop. *)
Lemma parse_lines_hold (lines : list (list string)) :
  forall (doc doc' : t) (rsc : option nat),
    Forall (entries_hold Q) (heap doc) ->
    parse_lines lines doc rsc = Ok doc' ->
    Forall (entries_hold Q) (heap doc').
Proof.
  induction lines as [|line lines IH]; intros doc doc' rsc Hh Hp.
  - simpl in Hp. inversion Hp. subst. exact Hh.
  - destruct line as [|kind [|rest [|key [|value [|x line]]]]];
      try (simpl in Hp; eapply IH; eassumption).
    cbn [parse_lines] in Hp.
    destruct (Nat.ltb 0 (String.length kind)).
    + destruct (header doc kind rest) as [[doc1 id]|] eqn:Hhead; [|discriminate].
      cbn [bind fst snd] in Hp.
      eapply IH; [|exact Hp]. eapply header_hold; eassumption.
    + unfold body in Hp. destruct rsc as [id|]; [|discriminate].
      destruct (set_entry doc id key (body_value value)) as [doc1|] eqn:Hset;
        [|discriminate].
      cbn [bind] in Hp.
      eapply IH; [|exact Hp].
      eapply set_entry_hold; [apply Q_body | eassumption | eassumption].
Qed.

(** The invariant, read on a parsed Document. *)
Lemma parse_file_hold (data : string) (doc : t) :
  parse_file data = Ok doc ->
  forall r d k v,
    In r (heap doc) ->
    TSCNResource.getattr r "entries" = Ok (VDict d) ->
    In (k, v) d ->
    exists s, v = VStr s /\ Q s.
Proof.
  intros Hp r d k v Hr Hent Hin. unfold parse_file in Hp.
  assert (Hall : Forall (entries_hold Q) (heap doc)).
  { eapply parse_lines_hold; [|exact Hp]. constructor. }
  rewrite Forall_forall in Hall. specialize (Hall r Hr).
  rewrite getattr_entries in Hent.
  destruct (lookup "entries" (TSCNResource.fields r)) as [x|] eqn:Hl;
    [|discriminate].
  inversion Hent. subst x.
  specialize (Hall d Hl). unfold values_hold in Hall.
  rewrite Forall_forall in Hall. apply (Hall (k, v) Hin).
Qed.

End Invariant.

Lemma body_value_no_plus (value : string) :
  PyStr.startswith "+" (body_value value) = false.
Proof.
  unfold body_value.
  set (stripped := Re.sub_group1 unquote_re _).
  destruct (PyStr.startswith "+" stripped) eqn:E; [reflexivity | exact E].
Qed.

Lemma nth_replace (A : Type) (h : list A) (id : nat) (x dflt : A) :
  id < List.length h ->
  nth id (firstn id h ++ x :: skipn (S id) h)%list dflt = x.
Proof.
  intros Hid.
  assert (Hlen : List.length (firstn id h) = id).
  { rewrite length_firstn. lia. }
  rewrite <- Hlen at 1. apply nth_middle.
Qed.

(** A body line on an open Resource whose entries are a mapping stores
    the value under the key. *)
Lemma body_stores (doc : t) (id : nat) (key value : string) (d : dict) :
  id < List.length (heap doc) ->
  TSCNResource.getattr (obj doc id) "entries" = Ok (VDict d) ->
  exists doc',
    body doc (Some id) key value = Ok doc' /\
    TSCNResource.getattr (obj doc' id) "entries"
      = Ok (VDict (store key (VStr (body_value value)) d)).
Proof.
  intros Hid Hent. unfold body, set_entry. rewrite Hent. cbn [bind].
  destruct doc as [h rs n e s c sc]. eexists. split; [reflexivity|].
  unfold obj at 1. cbn [heap]. cbn [heap] in Hid.
  rewrite (nth_replace _ h id _ _ Hid).
  rewrite getattr_entries. cbn [TSCNResource.fields].
  rewrite lookup_store_same. reflexivity.
Qed.

End ParserFacts.

(** C8.  The value of a body line, once its newlines are escaped and its
    surrounding quotes removed, is stored guarded as [="<value>"] when it
    begins with a plus, and as it is otherwise: [+10%] is stored as
    [="+10%"] and [10%] as [10%].  The stored value is the entry of the
    open Resource under the key of the line, so that no entry of a parsed
    Document begins with a plus. *)
Theorem plus_values_are_guarded :
  (forall value,
      let stripped :=
        Re.sub_group1 TSCN.unquote_re
          (PyStr.replace_char Latin1.newline "\n" value) in
      (PyStr.startswith "+" stripped = true ->
       TSCN.body_value value = "=" ++ PyStr.dq ++ stripped ++ PyStr.dq) /\
      (PyStr.startswith "+" stripped = false ->
       TSCN.body_value value = stripped)) /\
  TSCN.body_value "+10%" = "=" ++ PyStr.dq ++ "+10%" ++ PyStr.dq /\
  TSCN.body_value "10%" = "10%" /\
  (forall doc id key value d,
      id < List.length (TSCN.heap doc) ->
      TSCNResource.getattr (TSCN.obj doc id) "entries" = Ok (VDict d) ->
      exists doc' d',
        TSCN.body doc (Some id) key value = Ok doc' /\
        TSCNResource.getattr (TSCN.obj doc' id) "entries" = Ok (VDict d') /\
        lookup key d' = Some (VStr (TSCN.body_value value))) /\
  (forall data doc r d k v,
      TSCN.parse_file data = Ok doc ->
      In r (TSCN.heap doc) ->
      TSCNResource.getattr r "entries" = Ok (VDict d) ->
      In (k, v) d ->
      exists s, v = VStr s /\ PyStr.startswith "+" s = false) /\
  (exists doc,
      TSCN.parse_file bonus_text = Ok doc /\
      TSCNResource.query (TSCN.obj doc 0) (VStr "Bonus") VNone
        = Ok (VStr ("=" ++ PyStr.dq ++ "+10%" ++ PyStr.dq)) /\
      TSCNResource.query (TSCN.obj doc 0) (VStr "Rate") VNone = Ok (VStr "10%") /\
      TSCNResource.query (TSCN.obj doc 0) (VStr "Description") VNone
        = Ok (VStr ("=" ++ PyStr.dq ++ "+5 armor" ++ PyStr.dq))).
Proof.
  split; [|split; [|split; [|split; [|split]]]].
  - intros value stripped. unfold TSCN.body_value. fold stripped.
    split; intros ->; reflexivity.
  - vm_compute. reflexivity.
  - vm_compute. reflexivity.
  - intros doc id key value d Hid Hent.
    destruct (body_stores doc id key value d Hid Hent) as (doc' & Hb & He).
    exists doc', (store key (VStr (TSCN.body_value value)) d).
    repeat split; try assumption. apply lookup_store_same.
  - intros data doc r d k v Hp Hr Hent Hin.
    apply (parse_file_hold (fun s => PyStr.startswith "+" s = false)
             body_value_no_plus data doc Hp r d k v Hr Hent Hin).
  - eexists. split; [vm_compute; reflexivity|].
    repeat split; vm_compute; reflexivity.
Qed.

Lemma plus_values_are_guarded_witness :
  exists doc' d',
    TSCN.body three_nodes (Some 2) "Bonus" "+10%" = Ok doc' /\
    TSCNResource.getattr (TSCN.obj doc' 2) "entries" = Ok (VDict d') /\
    lookup "Bonus" d' = Some (VStr (TSCN.body_value "+10%")).
Proof.
  destruct plus_values_are_guarded as (_ & _ & _ & Hstore & _ & _).
  apply (Hstore three_nodes 2 "Bonus" "+10%"
                [("StartHealth", VStr "50"); ("KillAfterNumberOfHits", VStr "3")]).
  - vm_compute. lia.
  - reflexivity.
Defined.

Lemma nth_char_lt (s : string) :
  forall (j : nat) (c : ascii),
    PyStr.nth_char j s = Some c -> j < String.length s.
Proof.
  induction s as [|c' s IH]; intros j c Hc.
  - destruct j; discriminate.
  - destruct j as [|j]; simpl in *; [lia|].
    apply IH in Hc. lia.
Qed.



(** ** Header lines *)

Section HeaderFacts.
Import TSCN.

Lemma recognized_false (kind : string) :
  recognized kind = false ->
  String.eqb kind "gd_scene" = false /\ String.eqb kind "node" = false /\
  String.eqb kind "ext_resource" = false /\
  String.eqb kind "sub_resource" = false /\
  String.eqb kind "connection" = false.
Proof.
  unfold recognized, TSCNResource.mem. cbn [existsb].
  rewrite !orb_false_iff. tauto.
Qed.

Lemma add_to_kind_raises (doc : t) (kind : string) (id : nat) :
  recognized kind = false -> kind <> "resources" ->
  exists e, add_to_kind doc kind id = Raise e /\
            (e = AttributeError \/ e = TypeError).
Proof.
  intros Hr Hres. apply recognized_false in Hr.
  destruct Hr as (_ & H1 & H2 & H3 & H4).
  apply String.eqb_neq in Hres.
  destruct doc as [h rs n e s c sc]. unfold add_to_kind.
  rewrite H1, H2, H3, H4, Hres.
  destruct (String.eqb kind "scene").
  - destruct sc; eauto.
  - destruct (TSCNResource.mem kind class_names); eauto.
Qed.

Lemma setattrs_errors (attr : dict) :
  forall self e,
    TSCNResource.setattrs self attr = Raise e ->
    e = AttributeError \/ e = TypeError.
Proof.
  induction attr as [|[k v] attr IH]; intros self e H; simpl in H.
  - discriminate.
  - destruct (TSCNResource.setattr self k v) as [self1|e1] eqn:H1; simpl in H.
    + eapply IH; eassumption.
    + inversion H; subst. unfold TSCNResource.setattr in H1.
      repeat match type of H1 with
             | context [if ?b then _ else _] => destruct b
             | context [match ?x with _ => _ end] => destruct x
             end; inversion H1; auto.
Qed.

Lemma init_errors (kind : pyval) (attr : dict) (e : exn) :
  TSCNResource.init kind attr = Raise e ->
  e = AttributeError \/ e = TypeError.
Proof.
  unfold TSCNResource.init.
  destruct (has_key "self" attr || has_key "resource_type" attr).
  - intros H. inversion H. auto.
  - apply setattrs_errors.
Qed.

Lemma header_raises (doc : t) (kind rest : string) :
  recognized kind = false -> kind <> "resources" ->
  exists e, header doc kind rest = Raise e /\
            (e = AttributeError \/ e = TypeError).
Proof.
  intros Hr Hres. unfold header.
  destruct (TSCNResource.init _ _) as [rsc|e] eqn:Hinit; cbn [bind].
  - destruct (recognized_false _ Hr) as (-> & _).
    destruct (add_to_kind_raises (alloc doc rsc) kind
                (List.length (heap doc)) Hr Hres) as (e & -> & He).
    exists e. auto.
  - exists e. split; [reflexivity|]. eapply init_errors. exact Hinit.
Qed.


End HeaderFacts.




(** ** Header attributes *)

Section AttributeFacts.
Import TSCN TSCNResource.

Lemma store_keys (V : Type) (k : string) (v : V) (d : list (string * V)) :
  forall x, In x (map fst (store k v d)) -> x = k \/ In x (map fst d).
Proof.
  induction d as [|[k' v'] d IH]; simpl; intros x Hx.
  - destruct Hx as [<-|[]]. auto.
  - destruct (String.eqb_spec k' k) as [E|E]; simpl in Hx.
    + subst k'. destruct Hx as [<-|Hx]; auto.
    + destruct Hx as [<-|Hx]; auto.
      destruct (IH x Hx); auto.
Qed.

Lemma store_NoDup (V : Type) (k : string) (v : V) (d : list (string * V)) :
  NoDup (map fst d) -> NoDup (map fst (store k v d)).
Proof.
  induction d as [|[k' v'] d IH]; simpl; intros Hd.
  - constructor; [intros [] | constructor].
  - inversion Hd as [|? ? Hnot Hd']; subst.
    destruct (String.eqb_spec k' k) as [E|E]; simpl.
    + subst k'. constructor; assumption.
    + constructor; [|apply IH; exact Hd'].
      intros Hin. destruct (store_keys _ _ _ _ _ Hin); [congruence | contradiction].
Qed.

Lemma header_attr_NoDup (pairs : list (list string)) :
  forall attr, NoDup (map fst attr) -> NoDup (map fst (header_attr pairs attr)).
Proof.
  induction pairs as [|p pairs IH]; intros attr Ha; simpl.
  - exact Ha.
  - destruct p as [|k [|v [|x p]]]; auto.
    apply IH. apply store_NoDup. exact Ha.
Qed.

(** Where a header attribute comes from: a pair of the header, with the
    double quotes of its value removed. *)
Lemma header_attr_origin (pairs : list (list string)) :
  forall attr k v,
    lookup k (header_attr pairs attr) = Some v ->
    lookup k attr = Some v \/
    exists raw, In [k; raw] pairs /\
                v = VStr (PyStr.replace_char Latin1.dquote "" raw).
Proof.
  induction pairs as [|p pairs IH]; intros attr k v H; simpl in H.
  - auto.
  - destruct p as [|k0 [|v0 [|x p]]];
      try (destruct (IH _ _ _ H) as [|(raw & Hin & Hv)];
           [auto | right; exists raw; simpl; auto]).
    destruct (IH _ _ _ H) as [Hs|(raw & Hin & Hv)].
    + rewrite lookup_store in Hs.
      destruct (String.eqb_spec k0 k) as [E|E]; [|auto].
      subst k0. inversion Hs. right. exists v0. simpl. auto.
    + right. exists raw. simpl. auto.
Qed.

Lemma setattrs_keeps (attr : dict) :
  text_values attr ->
  forall self self' k,
    setattrs self attr = Ok self' ->
    ~ In k (map fst attr) ->
    lookup k (fields self') = lookup k (fields self).
Proof.
  induction 1 as [|[k0 v0] attr (s0 & Hv) Htext IH]; intros self self' k Hset Hk.
  - simpl in Hset. inversion Hset. reflexivity.
  - simpl in Hv. subst v0. simpl in Hset, Hk.
    destruct (setattr self k0 (VStr s0)) as [self1|] eqn:H1; [|discriminate].
    simpl in Hset. apply setattr_text in H1. destruct H1 as (Hf & _).
    rewrite (IH self1 self' k Hset) by tauto.
    rewrite Hf. apply lookup_store_other. tauto.
Qed.

(** Every keyword argument becomes an attribute of the instance. *)
Lemma setattrs_sets (attr : dict) :
  text_values attr -> NoDup (map fst attr) ->
  forall self self' k v,
    setattrs self attr = Ok self' ->
    lookup k attr = Some v ->
    lookup k (fields self') = Some v /\
    k <> "__class__" /\ k <> "__dict__" /\ k <> "__weakref__".
Proof.
  induction 1 as [|[k0 v0] attr (s0 & Hv) Htext IH];
    intros Hnd self self' k v Hset Hk.
  - discriminate.
  - simpl in Hv. subst v0. simpl in Hset, Hk, Hnd.
    inversion Hnd as [|? ? Hnot Hnd']; subst.
    destruct (setattr self k0 (VStr s0)) as [self1|] eqn:H1; [|discriminate].
    simpl in Hset. apply setattr_text in H1. destruct H1 as (Hf & Hspecial).
    destruct (String.eqb_spec k0 k) as [E|E].
    + subst k0. inversion Hk. subst v. split; [|exact Hspecial].
      rewrite (setattrs_keeps attr Htext self1 self' k Hset Hnot).
      rewrite Hf. apply lookup_store_same.
    + eapply IH; eassumption.
Qed.

Lemma getattr_field (self : t) (k : string) (v : pyval) :
  lookup k (fields self) = Some v ->
  k <> "__class__" -> k <> "__dict__" -> k <> "__weakref__" ->
  getattr self k = Ok v.
Proof.
  intros Hl H1 H2 H3. unfold getattr.
  apply String.eqb_neq in H1, H2, H3. rewrite H1, H2, H3, Hl. reflexivity.
Qed.

End AttributeFacts.

(** C3 (as amended).  Each inline attribute of a header line is set on
    the Resource as a typed attribute whose value is the matched text with
    every double quote removed, and is otherwise left as it is: a header
    value undergoes neither the newline escaping nor the guard of a
    leading plus that body values undergo. *)
Theorem header_values_lose_their_quotes
        (doc doc' : TSCN.t) (kind rest : string) (id : nat) (k : string) (v : pyval) :
  TSCN.header doc kind rest = Ok (doc', id) ->
  lookup k (TSCN.header_attr (Re.findall 2 TSCN.pair_re rest) []) = Some v ->
  TSCNResource.getattr (TSCN.obj doc' id) k = Ok v /\
  exists raw,
    In [k; raw] (Re.findall 2 TSCN.pair_re rest) /\
    v = VStr (PyStr.replace_char Latin1.dquote "" raw).
Proof.
  intros Hhead Hk.
  destruct (header_heap _ _ _ _ _ Hhead) as (-> & rsc & Hinit & Hheap).
  rewrite (obj_new doc' (TSCN.heap doc) rsc Hheap).
  split.
  - unfold TSCNResource.init in Hinit.
    destruct (has_key "self" _ || has_key "resource_type" _); [discriminate|].
    destruct (setattrs_sets _ (header_attr_text _ [] (Forall_nil _))
                (header_attr_NoDup _ [] (NoDup_nil _))
                _ _ k v Hinit Hk) as (Hl & H1 & H2 & H3).
    apply getattr_field; assumption.
  - destruct (header_attr_origin _ _ _ _ Hk) as [Habs|H]; [discriminate | exact H].
Qed.

Lemma header_values_lose_their_quotes_witness :
  TSCNResource.getattr (TSCN.obj health_header 0) "name" = Ok (VStr "Health") /\
  exists raw,
    In ["name"; raw]
       (Re.findall 2 TSCN.pair_re (" name=" ++ PyStr.dq ++ "Health" ++ PyStr.dq)) /\
    VStr "Health" = VStr (PyStr.replace_char Latin1.dquote "" raw).
Proof.
  apply (header_values_lose_their_quotes
           TSCN.empty health_header "node"
           (" name=" ++ PyStr.dq ++ "Health" ++ PyStr.dq) 0
           "name" (VStr "Health")).
  - reflexivity.
  - reflexivity.
Defined.

(** C3, refuted as stated: the header attribute [name], written as the
    quoted text [+x], is set to [+x] itself, while the body line [label]
    with the same value stores the guarded form; and the header attribute
    [desc] keeps its newline, which the body line [note] escapes. *)
Lemma header_values_are_not_guarded :
  exists doc,
    TSCN.parse_file quoted_header_text = Ok doc /\
    TSCNResource.query (TSCN.obj doc 0) (VStr "name") VNone = Ok (VStr "+x") /\
    TSCNResource.query (TSCN.obj doc 0) (VStr "label") VNone
      = Ok (VStr ("=" ++ PyStr.dq ++ "+x" ++ PyStr.dq)) /\
    TSCNResource.query (TSCN.obj doc 0) (VStr "desc") VNone
      = Ok (VStr ("a" ++ PyStr.nl ++ "b")) /\
    TSCNResource.query (TSCN.obj doc 0) (VStr "note") VNone = Ok (VStr "a\nb") /\
    TSCN.body_value (PyStr.dq ++ "+x" ++ PyStr.dq) <> "+x" /\
    TSCN.body_value (PyStr.dq ++ "a" ++ PyStr.nl ++ "b" ++ PyStr.dq)
      <> "a" ++ PyStr.nl ++ "b".
Proof.
  eexists. split; [vm_compute; reflexivity|].
  repeat split; try (vm_compute; reflexivity); vm_compute; discriminate.
Qed.

(** ** Texts without lines *)

Section NoLineFacts.
Import Re TSCN.

Lemma inert_cons (c : ascii) (s : string) :
  inert (String c s) = true ->
  Ascii.eqb "[" c = false /\ Ascii.eqb "=" c = false /\ inert s = true.
Proof.
  unfold inert, lacks. cbn [PyStr.forallb].
  rewrite !andb_true_iff, !negb_true_iff. tauto.
Qed.

Section Continuation.
Variable A : Type.
Variable k : mstate -> option A.
Hypothesis k_fails : forall st, inert (rest st) = true -> k st = None.

Lemma star_greedy_inert (p : ascii -> bool) (s : string) :
  forall st, inert s = true -> inert (rest st) = true ->
             star_greedy p s st k = None.
Proof.
  induction s as [|c s IH]; intros st Hs Hst; simpl.
  - apply k_fails. exact Hst.
  - destruct (p c); [|apply k_fails; exact Hst].
    apply inert_cons in Hs. destruct Hs as (_ & _ & Hs).
    rewrite IH; [apply k_fails; exact Hst | exact Hs | exact Hs].
Qed.

Lemma star_lazy_inert (p : ascii -> bool) (s : string) :
  forall st, inert s = true -> inert (rest st) = true ->
             star_lazy p s st k = None.
Proof.
  induction s as [|c s IH]; intros st Hs Hst; simpl;
    rewrite (k_fails st Hst).
  - reflexivity.
  - destruct (p c); [|reflexivity].
    apply inert_cons in Hs. destruct Hs as (_ & _ & Hs).
    apply IH; [exact Hs | exact Hs].
Qed.

End Continuation.

(** The matcher hands its continuation suffixes of the text only, so a
    continuation that fails on every inert text makes the match fail. *)
Lemma exec_inert (r : regex) :
  forall (A : Type) (st : mstate) (k : mstate -> option A),
    inert (rest st) = true ->
    (forall st', inert (rest st') = true -> k st' = None) ->
    exec r st k = None.
Proof.
  induction r as [|p|g p|r1 IH1 r2 IH2|r1 IH1 r2 IH2|n r IH| | | | |r IH];
    intros A st k Hst Hk; cbn [exec].
  - apply Hk. exact Hst.
  - destruct (rest st) as [|c s] eqn:Hr; [reflexivity|].
    destruct (p c); [|reflexivity].
    apply Hk. cbn [rest step].
    apply inert_cons in Hst. apply Hst.
  - destruct g.
    + apply star_greedy_inert; assumption.
    + apply star_lazy_inert; assumption.
  - apply IH1; [exact Hst|]. intros st' Hst'. apply IH2; assumption.
  - rewrite IH1 by assumption. apply IH2; assumption.
  - apply IH; [exact Hst|]. intros st' Hst'. apply Hk. exact Hst'.
  - destruct (Nat.eqb (pos st) 0); [apply Hk; exact Hst | reflexivity].
  - destruct (prev st) as [c|]; [|apply Hk; exact Hst].
    destruct (Latin1.is_newline c); [apply Hk; exact Hst | reflexivity].
  - destruct (rest st) as [|c [|c' s]] eqn:Hr; try reflexivity.
    + apply Hk. rewrite Hr. reflexivity.
    + destruct (Latin1.is_newline c); [|reflexivity].
      apply Hk. rewrite Hr. exact Hst.
  - destruct (rest st) as [|c s] eqn:Hr.
    + apply Hk. rewrite Hr. reflexivity.
    + destruct (Latin1.is_newline c); [|reflexivity].
      apply Hk. rewrite Hr. exact Hst.
  - destruct (exec r st (fun _ => Some tt)); [apply Hk; exact Hst | reflexivity].
Qed.

Lemma exec_seq_inert (r1 r2 : regex) (A : Type) (k : mstate -> option A) :
  (forall st, inert (rest st) = true -> exec r2 st k = None) ->
  forall st, inert (rest st) = true -> exec (Seq r1 r2) st k = None.
Proof.
  intros H2 st Hst. cbn [exec]. apply exec_inert; assumption.
Qed.

Lemma exec_lit_inert (c : ascii) (r : regex) (A : Type) (k : mstate -> option A) :
  c = "["%char \/ c = "="%char ->
  forall st, inert (rest st) = true -> exec (Seq (Lit c) r) st k = None.
Proof.
  intros Hc st Hst. cbn [exec Lit].
  destruct (rest st) as [|x s]; [reflexivity|].
  apply inert_cons in Hst. destruct Hst as (H1 & H2 & _).
  destruct Hc as [-> | ->]; [rewrite H1 | rewrite H2]; reflexivity.
Qed.

Lemma exec_alt_none (r1 r2 : regex) (A : Type) (k : mstate -> option A)
      (st : mstate) :
  exec r1 st k = None -> exec r2 st k = None -> exec (Alt r1 r2) st k = None.
Proof. intros H1 H2. cbn [exec]. rewrite H1. exact H2. Qed.

(** No line starts in an inert text. *)
Lemma line_re_inert (must_advance : bool) (st : mstate) :
  inert (rest st) = true -> match_at must_advance line_re st = None.
Proof.
  intros Hst. unfold match_at, line_re. cbn [seqs].
  apply exec_alt_none.
  - apply exec_seq_inert; [|exact Hst]. intros st1 H1.
    apply exec_lit_inert; auto.
  - apply exec_seq_inert; [|exact Hst]. intros st1 H1.
    apply exec_seq_inert; [|exact H1]. intros st2 H2.
    apply exec_seq_inert; [|exact H2]. intros st3 H3.
    apply exec_lit_inert; auto.
Qed.

(** A pattern that matches nowhere in the texts of a class closed under
    suffixes yields no hit. *)
Lemma scan_never_matches (P : string -> Prop) (r : regex) (n : nat) :
  (forall c s, P (String c s) -> P s) ->
  (forall b st, P (rest st) -> match_at b r st = None) ->
  forall fuel b st, P (rest st) -> hits n (scan fuel r b st) = [].
Proof.
  intros Htail Hnone. induction fuel as [|fuel IH]; intros b st Hst.
  - reflexivity.
  - cbn [scan]. rewrite (Hnone b st Hst).
    destruct (rest st) as [|c s] eqn:Hr.
    + reflexivity.
    + cbn [hits]. apply IH. cbn [rest step]. eapply Htail. exact Hst.
Qed.

Lemma findall_inert (data : string) :
  inert data = true -> findall 4 line_re data = [].
Proof.
  intros H. unfold findall, pieces.
  apply (scan_never_matches (fun s => inert s = true)).
  - intros c s Hs. apply inert_cons in Hs. apply Hs.
  - intros b st. apply line_re_inert.
  - exact H.
Qed.

End NoLineFacts.

(** C5 (as amended).  A text in which no line is recognized, in
    particular a text with neither an opening bracket nor an equals sign,
    parses to the empty Document: the flat list and the lists of every
    kind are empty.  Fragments that are neither headers nor body lines are
    skipped.  A header with no inline attribute yields a Resource with its
    kind, no entry and no other attribute.  A body line that no header
    precedes is not skipped: it raises an [AttributeError], since no
    Resource is open. *)
Theorem parse_without_header_lines :
  (forall data,
      Re.findall 4 TSCN.line_re data = [] ->
      TSCN.parse_file data = Ok TSCN.empty) /\
  (forall data,
      lacks "[" data = true -> lacks "=" data = true ->
      TSCN.parse_file data = Ok TSCN.empty) /\
  (forall data key value lines,
      Re.findall 4 TSCN.line_re data = [""; ""; key; value] :: lines ->
      TSCN.parse_file data = Raise AttributeError) /\
  (forall doc doc' kind rest id,
      Re.findall 2 TSCN.pair_re rest = [] ->
      TSCN.header doc kind rest = Ok (doc', id) ->
      TSCNResource.fields (TSCN.obj doc' id)
        = [("resource_type", VStr kind); ("entries", VDict [])]) /\
  (forall doc kind,
      recognized kind = true ->
      exists doc',
        TSCN.header doc kind "" = Ok (doc', List.length (TSCN.heap doc))) /\
  (exists doc,
      TSCN.parse_file tolerant_text = Ok doc /\
      TSCN.resources doc = [0] /\
      TSCNResource.getattr (TSCN.obj doc 0) "entries"
        = Ok (VDict [("Speed", VStr "3")])).
Proof.
  split; [|split; [|split; [|split; [|split]]]].
  - intros data Hnone. unfold TSCN.parse_file. rewrite Hnone. reflexivity.
  - intros data Hb He. unfold TSCN.parse_file.
    rewrite findall_inert; [reflexivity|].
    unfold inert. rewrite Hb, He. reflexivity.
  - intros data key value lines Hlines. unfold TSCN.parse_file.
    rewrite Hlines. reflexivity.
  - intros doc doc' kind rest id Hnone Hhead.
    destruct (header_heap _ _ _ _ _ Hhead) as (-> & rsc & Hinit & Hheap).
    rewrite (obj_new doc' (TSCN.heap doc) rsc Hheap).
    rewrite Hnone in Hinit. cbn in Hinit. inversion Hinit. reflexivity.
  - intros doc kind Hr. unfold recognized, TSCNResource.mem in Hr.
    cbn [existsb] in Hr. rewrite !orb_true_iff in Hr.
    destruct doc as [h rs n e s c sc].
    destruct Hr as [Hr|[Hr|[Hr|[Hr|[Hr|Hr]]]]]; try discriminate;
      apply String.eqb_eq in Hr; subst kind; eexists; reflexivity.
  - eexists. split; [vm_compute; reflexivity|].
    split; vm_compute; reflexivity.
Qed.

Lemma parse_without_header_lines_witness :
  TSCN.parse_file ("only some words" ++ PyStr.nl ++ "and more: 1, 2" ++ PyStr.nl)
    = Ok TSCN.empty /\
  TSCN.parse_file ("StartHealth = 50" ++ PyStr.nl) = Raise AttributeError /\
  (exists doc', TSCN.header TSCN.empty "node" "" = Ok (doc', 0)).
Proof.
  destruct parse_without_header_lines as (_ & Hinert & Hbody & _ & Hhead & _).
  split; [|split].
  - apply Hinert; reflexivity.
  - apply (Hbody _ "StartHealth" "50" []). vm_compute. reflexivity.
  - apply (Hhead TSCN.empty "node"). reflexivity.
Defined.

(** C5, refuted as stated: the text has no header line, its only line is
    a body line, and parsing it does not yield an empty Document but is
    left by an [AttributeError]. *)
Lemma body_line_without_header_raises :
  Re.findall 4 TSCN.line_re ("StartHealth = 50" ++ PyStr.nl)
    = [[""; ""; "StartHealth"; "50"]] /\
  TSCN.parse_file ("StartHealth = 50" ++ PyStr.nl) = Raise AttributeError /\
  TSCN.parse_file ("StartHealth = 50" ++ PyStr.nl) <> Ok TSCN.empty.
Proof.
  split; [vm_compute; reflexivity|].
  split; [vm_compute; reflexivity|].
  vm_compute. discriminate.
Qed.

(* ------------------------------------------------------------------ *)
(** * Further properties of the code *)

(** ** Paths of one segment *)

Section SegmentFacts.
Import TSCNResource.

Lemma split_on_lacks (sep : ascii) (s : string) :
  lacks sep s = true -> PyStr.split_on sep s = [s].
Proof.
  unfold lacks. induction s as [|c s IH]; cbn [PyStr.forallb PyStr.split_on].
  - reflexivity.
  - rewrite andb_true_iff, negb_true_iff. intros [Hc Hs].
    rewrite Ascii.eqb_sym, Hc, (IH Hs). reflexivity.
Qed.

Lemma numeric_not_blank (c : ascii) :
  Latin1.isnumeric c = true ->
  Latin1.int_space c = false /\ Ascii.eqb c "+" = false /\
  Ascii.eqb c "-" = false /\ Ascii.eqb c "_" = false.
Proof.
  destruct c as [[] [] [] [] [] [] [] []]; vm_compute; intros H;
    try discriminate; repeat split.
Qed.

Lemma digit_nonneg (c : ascii) :
  Latin1.isdecimal c = true -> (0 <= digit c <= 9)%Z.
Proof.
  destruct c as [[] [] [] [] [] [] [] []]; vm_compute; intros H;
    try discriminate; split; discriminate.
Qed.

Lemma int_digits_nonneg (s : string) :
  forall acc n after z m,
    (0 <= acc)%Z ->
    int_digits s acc n after = Some (z, m) -> (0 <= z)%Z.
Proof.
  induction s as [|c s IH]; intros acc n after z m Hacc H; cbn [int_digits] in H.
  - destruct after; inversion H. subst. exact Hacc.
  - destruct (Latin1.isdecimal c) eqn:Hd.
    + apply IH in H; [exact H|]. pose proof (digit_nonneg c Hd). lia.
    + destruct (Ascii.eqb c "_").
      * destruct after; [|discriminate]. eapply IH; eassumption.
      * destruct (Latin1.int_space c); [|discriminate].
        destruct (after && PyStr.forallb Latin1.int_space s); inversion H.
        subst. exact Hacc.
Qed.

(** What [int] makes of a numeric text is never negative. *)
Lemma int_of_numeric_nonneg (s : string) (i : Z) :
  PyStr.isnumeric s = true -> int_of_str s = Some i -> (0 <= i)%Z.
Proof.
  destruct s as [|c s]; [discriminate|].
  unfold PyStr.isnumeric. cbn [PyStr.forallb]. rewrite andb_true_iff.
  intros [Hc _]. destruct (numeric_not_blank c Hc) as (Hsp & Hplus & Hminus & _).
  unfold int_of_str. cbn [PyStr.drop_while]. rewrite Hsp.
  assert (Hsign :
    (match String c s with
     | String "+" s' => (1, s')
     | String "-" s' => (-1, s')
     | _ => (1, String c s)
     end)%Z = (1%Z, String c s)).
  { clear - Hplus Hminus.
    destruct c as [[] [] [] [] [] [] [] []]; try reflexivity; discriminate. }
  rewrite Hsign. cbn [fst snd].
  destruct (int_digits (String c s) 0 0 false) as [[z n]|] eqn:Hd; [|discriminate].
  destruct (Nat.leb n int_max_str_digits); [|discriminate].
  intros H. apply int_digits_nonneg in Hd; [|lia].
  injection H as Hi. rewrite <- Hi. destruct z; [reflexivity | | ]; exact Hd.
Qed.

End SegmentFacts.

Lemma query_name_result
      (self : TSCNResource.t) (k : string) (default : pyval) (d : dict) :
  TSCNResource.getattr self "entries" = Ok (VDict d) ->
  PyStr.isnumeric k = false ->
  lacks "/" k = true ->
  TSCNResource.query self (VStr k) default =
    Ok (match TSCNResource.getattr self k with
        | Ok v => v
        | Raise _ =>
            match lookup k d with
            | Some v => v
            | None => default
            end
        end).
Proof.
  intros Hent Hnum Hslash. unfold TSCNResource.query, TSCNResource.segments.
  rewrite (split_on_lacks "/" k Hslash).
  cbn [map mapM TSCNResource.convert]. rewrite Hnum. cbn [bind].
  unfold TSCNResource.hasattr, TSCNResource.self_getitem.
  destruct (TSCNResource.getattr self k) as [v|e] eqn:Hk; cbn [bind reduce_getitem].
  - reflexivity.
  - rewrite Hent. cbn [bind contains]. unfold has_key.
    destruct (lookup k d) as [v|] eqn:Hl; cbn [bind reduce_getitem getitem].
    + try rewrite Hl. reflexivity.
    + reflexivity.
Qed.

(** X1.  On a Resource whose entries are a mapping, a path of one segment
    that is not numeric never raises: [query] returns the attribute of
    that name when there is one, else the entry of that name, else the
    default. *)
Theorem query_of_a_name_never_raises
        (self : TSCNResource.t) (k : string) (default : pyval) (d : dict) :
  TSCNResource.getattr self "entries" = Ok (VDict d) ->
  PyStr.isnumeric k = false ->
  lacks "/" k = true ->
  TSCNResource.query self (VStr k) default =
    Ok (match TSCNResource.getattr self k with
        | Ok v => v
        | Raise _ =>
            match lookup k d with
            | Some v => v
            | None => default
            end
        end).
Proof. apply query_name_result. Qed.

Lemma query_of_a_name_never_raises_witness :
  TSCNResource.query colliding_resource (VStr "absent") (VStr "N/A")
    = Ok (VStr "N/A").
Proof.
  apply (query_of_a_name_never_raises colliding_resource "absent" (VStr "N/A")
           [("name", VStr "entry"); ("k", VStr "v")]); reflexivity.
Defined.

(** X2.  The index a numeric segment converts to is never negative, so a
    path cannot count from the end of a string: the segment selects the
    character at that offset from the start, or raises an [IndexError]. *)
Theorem numeric_segment_counts_from_the_start (s : string) (i : Z) :
  TSCNResource.convert (VStr s) = Ok (SInt i) ->
  (0 <= i)%Z /\
  forall t,
    getitem (VStr t) (SInt i) =
      match PyStr.nth_char (Z.to_nat i) t with
      | Some c => Ok (VStr (String c ""))
      | None => Raise IndexError
      end.
Proof.
  unfold TSCNResource.convert.
  destruct (PyStr.isnumeric s) eqn:Hnum; [|discriminate].
  destruct (int_of_str s) as [z|] eqn:Hint; [|discriminate].
  intros H. inversion H. subst z.
  pose proof (int_of_numeric_nonneg s i Hnum Hint) as Hi.
  split; [exact Hi|]. intros t. unfold getitem, index_of.
  destruct (Z.ltb_spec i 0) as [Hneg|_]; [lia|].
  destruct (Z.leb_spec 0 i) as [_|Hneg]; [|lia].
  destruct (Z.ltb_spec i (Z.of_nat (String.length t))) as [Hin|Hout]; cbn [andb].
  - destruct (PyStr.nth_char (Z.to_nat i) t); reflexivity.
  - destruct (PyStr.nth_char (Z.to_nat i) t) as [c|] eqn:Hc; [|reflexivity].
    apply nth_char_lt in Hc. lia.
Qed.

Lemma numeric_segment_counts_from_the_start_witness :
  (0 <= 1)%Z /\
  forall t,
    getitem (VStr t) (SInt 1) =
      match PyStr.nth_char (Z.to_nat 1) t with
      | Some c => Ok (VStr (String c ""))
      | None => Raise IndexError
      end.
Proof.
  apply (numeric_segment_counts_from_the_start "1" 1%Z). reflexivity.
Defined.

(** ** The slot of an item *)

(** X3.  The slot of an item is set only for a numeric slot type: the
    codes 0 to 6 give the label at that place of the table, a code of 7 or
    more raises an [IndexError], a numeric text that [int] refuses raises
    a [ValueError], and any other text leaves the slot unset. *)
Theorem slot_label_of_a_code :
  (forall s, PyStr.isnumeric s = false -> Game.slot_label (VStr s) = Ok None) /\
  (forall s i,
      PyStr.isnumeric s = true -> int_of_str s = Some i -> (i < 7)%Z ->
      exists label,
        Game.slot_label (VStr s) = Ok (Some label) /\
        nth_error Game.slots (Z.to_nat i) = Some label) /\
  (forall s i,
      PyStr.isnumeric s = true -> int_of_str s = Some i -> (7 <= i)%Z ->
      Game.slot_label (VStr s) = Raise IndexError) /\
  (forall s,
      PyStr.isnumeric s = true -> int_of_str s = None ->
      Game.slot_label (VStr s) = Raise ValueError).
Proof.
  split; [|split; [|split]].
  - intros s Hn. unfold Game.slot_label. rewrite Hn. reflexivity.
  - intros s i Hn Hi Hlt.
    pose proof (int_of_numeric_nonneg s i Hn Hi) as Hpos.
    unfold Game.slot_label. rewrite Hn. cbn [py_int]. rewrite Hi. cbn [bind].
    assert (Hcase : (i = 0 \/ i = 1 \/ i = 2 \/ i = 3 \/ i = 4 \/ i = 5 \/ i = 6)%Z)
      by lia.
    destruct Hcase as [->|[->|[->|[->|[->|[->| ->]]]]]];
      eexists; split; reflexivity.
  - intros s i Hn Hi Hge.
    unfold Game.slot_label. rewrite Hn. cbn [py_int]. rewrite Hi. cbn [bind].
    unfold getitem, index_of.
    destruct (Z.ltb_spec i 0) as [Hneg|_]; [lia|].
    destruct (Z.leb_spec 0 i) as [_|Hneg]; [|lia].
    destruct (Z.ltb_spec i (Z.of_nat (List.length Game.slots))) as [Hin|_].
    + cbn in Hin. lia.
    + reflexivity.
  - intros s Hn Hi. unfold Game.slot_label. rewrite Hn. cbn [py_int].
    rewrite Hi. reflexivity.
Qed.

Lemma slot_label_of_a_code_witness :
  Game.slot_label (VStr "word") = Ok None /\
  (exists label,
      Game.slot_label (VStr "5") = Ok (Some label) /\
      nth_error Game.slots (Z.to_nat 5) = Some label) /\
  Game.slot_label (VStr "7") = Raise IndexError.
Proof.
  destruct slot_label_of_a_code as (Hnone & Hlabel & Hrange & _).
  split; [|split].
  - apply Hnone. reflexivity.
  - apply (Hlabel "5" 5%Z); [reflexivity | reflexivity | lia].
  - apply (Hrange "7" 7%Z); [reflexivity | reflexivity | lia].
Defined.

(** ** The layout of a Document *)

Section LayoutFacts.
Import TSCN.

Lemma last_of_snoc (l : list nat) (x : nat) : last_of (l ++ [x]) = Some x.
Proof.
  induction l as [|y l IH]; [reflexivity|].
  cbn [app last_of]. rewrite IH. destruct (l ++ [x])%list eqn:E; [|reflexivity].
  destruct l; discriminate.
Qed.

Lemma flat_map_ext_in (f g : nat -> list nat) (l : list nat) :
  (forall x, In x l -> f x = g x) -> flat_map f l = flat_map g l.
Proof.
  induction l as [|x l IH]; intros H; cbn [flat_map].
  - reflexivity.
  - rewrite (H x) by (left; reflexivity). rewrite IH; [reflexivity|].
    intros y Hy. apply H. right. exact Hy.
Qed.

Lemma has_key_false_not_in (k : string) (d : dict) :
  has_key k d = false -> ~ In k (map fst d).
Proof.
  unfold has_key. induction d as [|[k' v] d IH]; cbn [lookup map fst In].
  - tauto.
  - destruct (String.eqb_spec k' k) as [E|E]; [discriminate|].
    intros H [Hk|Hk]; [contradiction | exact (IH H Hk)].
Qed.

(** The kind of a Resource is the one its header gave. *)
Lemma init_kind (kind : string) (attr : dict) (rsc : TSCNResource.t) :
  text_values attr ->
  TSCNResource.init (VStr kind) attr = Ok rsc ->
  lookup "resource_type" (TSCNResource.fields rsc) = Some (VStr kind).
Proof.
  intros Ha. unfold TSCNResource.init.
  destruct (has_key "self" attr) eqn:H1; [discriminate|].
  destruct (has_key "resource_type" attr) eqn:H2; [discriminate|].
  cbn [orb]. intros Hset.
  rewrite (setattrs_keeps attr Ha _ _ "resource_type" Hset
             (has_key_false_not_in _ _ H2)).
  reflexivity.
Qed.

(** What [add_to_kind] changes when it succeeds. *)
Lemma add_to_kind_result (doc doc' : t) (kind : string) (id : nat) :
  add_to_kind doc kind id = Ok doc' ->
  String.eqb kind "gd_scene" = false ->
  doc' = Make (heap doc)
              (resources doc ++ if String.eqb kind "resources" then [id] else [])
              (node doc ++ if String.eqb kind "node" then [id] else [])
              (ext_resource doc ++ if String.eqb kind "ext_resource" then [id] else [])
              (sub_resource doc ++ if String.eqb kind "sub_resource" then [id] else [])
              (connection doc ++ if String.eqb kind "connection" then [id] else [])
              (scene doc).
Proof.
  destruct doc as [h rs n e s c sc]. unfold add_to_kind. cbn [heap resources node
    ext_resource sub_resource connection scene].
  destruct (String.eqb_spec kind "node") as [->|_].
  { intros H _. inversion H. cbn. rewrite !app_nil_r. reflexivity. }
  destruct (String.eqb_spec kind "ext_resource") as [->|_].
  { intros H _. inversion H. cbn. rewrite !app_nil_r. reflexivity. }
  destruct (String.eqb_spec kind "sub_resource") as [->|_].
  { intros H _. inversion H. cbn. rewrite !app_nil_r. reflexivity. }
  destruct (String.eqb_spec kind "connection") as [->|_].
  { intros H _. inversion H. cbn. rewrite !app_nil_r. reflexivity. }
  destruct (String.eqb_spec kind "resources") as [->|_].
  { intros H _. inversion H. cbn. rewrite !app_nil_r. reflexivity. }
  destruct (String.eqb kind "scene").
  - destruct sc; discriminate.
  - destruct (TSCNResource.mem kind class_names); discriminate.
Qed.

(** What a header changes when it succeeds: the heap grows by the new
    Resource, whose place joins the flat list and the list of its kind. *)
Lemma header_result (doc doc' : t) (kind rest : string) (id : nat) :
  header doc kind rest = Ok (doc', id) ->
  id = List.length (heap doc) /\
  exists rsc,
    lookup "resource_type" (TSCNResource.fields rsc) = Some (VStr kind) /\
    doc' = Make (heap doc ++ [rsc])
                (resources doc ++ if String.eqb kind "resources" then [id; id] else [id])
                (node doc ++ if String.eqb kind "node" then [id] else [])
                (ext_resource doc ++ if String.eqb kind "ext_resource" then [id] else [])
                (sub_resource doc ++ if String.eqb kind "sub_resource" then [id] else [])
                (connection doc ++ if String.eqb kind "connection" then [id] else [])
                (if String.eqb kind "gd_scene" then Some id else scene doc).
Proof.
  unfold header.
  destruct (TSCNResource.init _ _) as [rsc|] eqn:Hinit; [|discriminate].
  cbn [bind].
  pose proof (init_kind _ _ _ (header_attr_text _ [] (Forall_nil _)) Hinit) as Hk.
  destruct (String.eqb_spec kind "gd_scene") as [->|Hgd].
  - cbn [bind]. intros H. inversion H. split; [reflexivity|].
    exists rsc. split; [exact Hk|].
    destruct doc as [h rs n e s c sc]. cbn. rewrite !app_nil_r. reflexivity.
  - destruct (add_to_kind _ _ _) as [doc1|] eqn:Hadd; [|discriminate].
    cbn [bind]. intros H. inversion H. split; [reflexivity|].
    exists rsc. split; [exact Hk|].
    apply add_to_kind_result in Hadd; [|apply String.eqb_neq; exact Hgd].
    subst doc1. destruct doc as [h rs n e s c sc].
    cbn [alloc append_resource heap resources node ext_resource sub_resource
         connection scene].
    destruct (String.eqb kind "resources"); rewrite <- ?app_assoc; reflexivity.
Qed.

End LayoutFacts.

Section LayoutSteps.
Import TSCN.

Lemma nth_replace_other (A : Type) (h : list A) (id j : nat) (x dflt : A) :
  id < List.length h -> j <> id ->
  nth j (firstn id h ++ x :: skipn (S id) h)%list dflt = nth j h dflt.
Proof.
  intros Hid Hj.
  assert (Hlen : List.length (firstn id h) = id) by (rewrite length_firstn; lia).
  destruct (Nat.lt_ge_cases j id) as [Hlt|Hge].
  - rewrite app_nth1 by lia. rewrite nth_firstn.
    destruct (Nat.ltb_spec j id); [reflexivity | lia].
  - rewrite app_nth2 by lia. rewrite Hlen.
    destruct (j - id) as [|m] eqn:Hm; [lia|].
    cbn [nth]. rewrite nth_skipn. f_equal. lia.
Qed.

(** What a body line changes when it succeeds: the open Resource gets the
    entry, and nothing else moves. *)
Lemma set_entry_result (doc doc' : t) (id : nat) (key value : string) :
  set_entry doc id key value = Ok doc' ->
  id < List.length (heap doc) /\
  exists d,
    lookup "entries" (TSCNResource.fields (obj doc id)) = Some (VDict d) /\
    doc' = Make (firstn id (heap doc)
                 ++ TSCNResource.Make
                      (store "entries" (VDict (store key (VStr value) d))
                             (TSCNResource.fields (obj doc id)))
                 :: skipn (S id) (heap doc))
                (resources doc) (node doc) (ext_resource doc)
                (sub_resource doc) (connection doc) (scene doc).
Proof.
  unfold set_entry. rewrite getattr_entries.
  destruct (lookup "entries" _) as [v|] eqn:Hl; [|discriminate].
  cbn [bind]. destruct v; try discriminate.
  intros H. split.
  - destruct (Nat.lt_ge_cases id (List.length (heap doc))) as [Hid|Hid];
      [exact Hid|].
    unfold obj in Hl. rewrite nth_overflow in Hl by exact Hid. discriminate.
  - exists d. split; [reflexivity|].
    destruct doc as [h rs n e s c sc]. inversion H. reflexivity.
Qed.

Lemma set_entry_length (doc doc' : t) (id : nat) (key value : string) :
  set_entry doc id key value = Ok doc' ->
  List.length (heap doc') = List.length (heap doc).
Proof.
  intros H. destruct (set_entry_result _ _ _ _ _ H) as (Hid & d & _ & ->).
  cbn [heap]. rewrite length_app, length_firstn. cbn [List.length].
  rewrite length_skipn. lia.
Qed.

(** A body line leaves every other Resource as it was. *)
Lemma set_entry_frame (doc doc' : t) (id j : nat) (key value : string) :
  set_entry doc id key value = Ok doc' -> j <> id -> obj doc' j = obj doc j.
Proof.
  intros H Hj. destruct (set_entry_result _ _ _ _ _ H) as (Hid & d & _ & ->).
  unfold obj. cbn [heap]. apply nth_replace_other; assumption.
Qed.

Lemma set_entry_kind (doc doc' : t) (id : nat) (key value : string) :
  set_entry doc id key value = Ok doc' ->
  forall j,
    lookup "resource_type" (TSCNResource.fields (obj doc' j))
    = lookup "resource_type" (TSCNResource.fields (obj doc j)).
Proof.
  intros H j. destruct (Nat.eq_dec j id) as [->|Hj].
  - destruct (set_entry_result _ _ _ _ _ H) as (Hid & d & _ & ->).
    unfold obj at 1. cbn [heap]. rewrite (nth_replace _ _ _ _ _ Hid).
    cbn [TSCNResource.fields]. apply lookup_store_other. discriminate.
  - rewrite (set_entry_frame _ _ _ _ _ _ H Hj). reflexivity.
Qed.

Lemma header_frame (doc doc' : t) (kind rest : string) (id : nat) :
  header doc kind rest = Ok (doc', id) ->
  forall j, j < id -> obj doc' j = obj doc j.
Proof.
  intros H j Hj. destruct (header_result _ _ _ _ _ H) as (-> & rsc & _ & ->).
  unfold obj. cbn [heap]. apply app_nth1. exact Hj.
Qed.

Lemma laid_out_header (doc doc' : t) (kind rest : string) (id : nat) :
  laid_out doc -> header doc kind rest = Ok (doc', id) -> laid_out doc'.
Proof.
  intros (Hty & Hrs & Hn & He & Hs & Hc & Hsc) H.
  pose proof (header_frame _ _ _ _ _ H) as Hframe.
  destruct (header_result _ _ _ _ _ H) as (Hid & rsc & Hk & Hdoc).
  assert (Hnew : kind_of (obj doc' id) = kind).
  { rewrite Hdoc, Hid. unfold obj, kind_of. cbn [heap].
    rewrite nth_middle, Hk. reflexivity. }
  assert (Hids : ids doc' = (ids doc ++ [id])%list).
  { unfold ids. rewrite Hdoc. cbn [heap]. rewrite length_app. cbn [List.length].
    rewrite Nat.add_1_r, seq_S, Hid. reflexivity. }
  assert (Hold : forall k j, In j (ids doc) -> is_kind doc' k j = is_kind doc k j).
  { intros k j Hj. unfold ids in Hj. apply in_seq in Hj. unfold is_kind.
    rewrite Hframe by lia. reflexivity. }
  assert (Hfilter : forall k,
    filter (is_kind doc' k) (ids doc')
    = (filter (is_kind doc k) (ids doc)
       ++ if String.eqb kind k then [id] else [])%list).
  { intros k. rewrite Hids, filter_app.
    rewrite (filter_ext_in _ _ _ (Hold k)). cbn [filter].
    unfold is_kind at 2. rewrite Hnew. reflexivity. }
  unfold laid_out. rewrite !Hfilter.
  rewrite Hdoc. cbn [heap resources node ext_resource sub_resource connection scene].
  rewrite <- Hdoc.
  split; [|split; [|split; [|split; [|split; [|split]]]]].
  - apply Forall_app. split; [exact Hty|]. constructor; [eauto | constructor].
  - rewrite Hids, flat_map_app. cbn [flat_map]. rewrite app_nil_r.
    rewrite (flat_map_ext_in (listing doc') (listing doc)).
    + rewrite Hrs. unfold listing at 3, is_kind. rewrite Hnew. reflexivity.
    + intros j Hj. unfold listing. rewrite (Hold _ _ Hj). reflexivity.
  - rewrite Hn. reflexivity.
  - rewrite He. reflexivity.
  - rewrite Hs. reflexivity.
  - rewrite Hc. reflexivity.
  - destruct (String.eqb kind "gd_scene").
    + rewrite last_of_snoc. reflexivity.
    + rewrite app_nil_r. exact Hsc.
Qed.

Lemma laid_out_set_entry (doc doc' : t) (id : nat) (key value : string) :
  laid_out doc -> set_entry doc id key value = Ok doc' -> laid_out doc'.
Proof.
  intros (Hty & Hrs & Hn & He & Hs & Hc & Hsc) H.
  pose proof (set_entry_kind _ _ _ _ _ H) as Hkind.
  pose proof (set_entry_length _ _ _ _ _ H) as Hlen.
  assert (Hids : ids doc' = ids doc) by (unfold ids; rewrite Hlen; reflexivity).
  assert (Hsame : forall k j, is_kind doc' k j = is_kind doc k j).
  { intros k j. unfold is_kind, kind_of. rewrite Hkind. reflexivity. }
  destruct (set_entry_result _ _ _ _ _ H) as (Hid & d & Hd & Hdoc).
  unfold laid_out. rewrite Hids.
  rewrite !(filter_ext _ _ (Hsame _)).
  rewrite (flat_map_ext_in (listing doc') (listing doc))
    by (intros j _; unfold listing; rewrite Hsame; reflexivity).
  rewrite Hdoc at 2 3 4 5 6 7.
  cbn [resources node ext_resource sub_resource connection scene].
  repeat split; try assumption.
  apply Forall_forall. intros r Hr.
  destruct (In_nth _ _ (TSCNResource.Make []) Hr) as (j & Hj & <-).
  fold (obj doc' j). rewrite Hkind.
  rewrite Forall_forall in Hty. apply Hty. unfold obj. apply nth_In.
  rewrite <- Hlen. exact Hj.
Qed.

(** The layout holds all along the loop. *)
Lemma laid_out_parse_lines (lines : list (list string)) :
  forall (doc doc' : t) (rsc : option nat),
    laid_out doc ->
    parse_lines lines doc rsc = Ok doc' ->
    laid_out doc'.
Proof.
  induction lines as [|line lines IH]; intros doc doc' rsc Hl Hp.
  - simpl in Hp. inversion Hp. subst. exact Hl.
  - destruct line as [|kind [|rest [|key [|value [|x line]]]]];
      try (simpl in Hp; eapply IH; eassumption).
    cbn [parse_lines] in Hp.
    destruct (Nat.ltb 0 (String.length kind)).
    + destruct (header doc kind rest) as [[doc1 id]|] eqn:Hhead; [|discriminate].
      cbn [bind fst snd] in Hp.
      eapply IH; [|exact Hp]. eapply laid_out_header; eassumption.
    + unfold body in Hp. destruct rsc as [id|]; [|discriminate].
      destruct (set_entry doc id key (body_value value)) as [doc1|] eqn:Hset;
        [|discriminate].
      cbn [bind] in Hp.
      eapply IH; [|exact Hp]. eapply laid_out_set_entry; eassumption.
Qed.

Lemma laid_out_parse_file (data : string) (doc : t) :
  parse_file data = Ok doc -> laid_out doc.
Proof.
  intros H. eapply laid_out_parse_lines; [|exact H].
  unfold laid_out. cbn. repeat split. constructor.
Qed.

End LayoutSteps.

Section LayoutReading.
Import TSCN.

Lemma filter_listing (doc : t) (k : string) (l : list nat) :
  k <> "resources" ->
  filter (is_kind doc k) (flat_map (listing doc) l) = filter (is_kind doc k) l.
Proof.
  intros Hk. induction l as [|j l IH]; [reflexivity|].
  cbn [flat_map]. rewrite filter_app, IH. unfold listing.
  destruct (is_kind doc "resources" j) eqn:Hres.
  - assert (Hno : is_kind doc k j = false).
    { unfold is_kind in *. apply String.eqb_eq in Hres. rewrite Hres.
      apply String.eqb_neq. congruence. }
    cbn [filter]. rewrite Hno. reflexivity.
  - cbn [filter]. destruct (is_kind doc k j); reflexivity.
Qed.

Lemma in_listing (doc : t) (l : list nat) (id : nat) :
  In id (flat_map (listing doc) l) <-> In id l.
Proof.
  rewrite in_flat_map. split.
  - intros (j & Hj & Hin). unfold listing in Hin.
    destruct (is_kind doc "resources" j); cbn in Hin;
      intuition (subst; assumption).
  - intros Hin. exists id. split; [exact Hin|]. unfold listing.
    destruct (is_kind doc "resources" id); cbn; auto.
Qed.

(** A selector that is a bare kind accepts the Resources of that kind. *)
Lemma predicate_bare (kind k : string) (r : TSCNResource.t) :
  lookup "resource_type" (TSCNResource.fields r) = Some (VStr k) ->
  predicate [(kind, [])] r = Ok (String.eqb k kind).
Proof.
  intros Hk. unfold predicate, clauses_for, TSCNResource.getattr.
  cbn -[String.eqb lookup]. cbn [String.eqb Ascii.eqb Bool.eqb].
  rewrite Hk. cbn [bind lookup]. rewrite String.eqb_sym.
  destruct (String.eqb k kind); reflexivity.
Qed.

Lemma select_bare (doc : t) (kind : string) :
  laid_out doc ->
  compile (Text kind) = Ok [(kind, [])] ->
  kind <> "resources" ->
  select doc (Text kind) =
    Ok (match filter (is_kind doc kind) (ids doc) with
        | [] => None
        | m :: ms => Some (m :: ms)
        end).
Proof.
  intros (Hty & Hrs & _) Hc Hk. unfold select. rewrite Hc. cbn [bind].
  rewrite (keep_filter _ (is_kind doc kind)).
  - cbn [bind]. rewrite Hrs, (filter_listing doc kind _ Hk).
    destruct (filter (is_kind doc kind) (ids doc)); reflexivity.
  - intros id Hin. rewrite Hrs in Hin. apply in_listing in Hin.
    unfold ids in Hin. apply in_seq in Hin.
    rewrite Forall_forall in Hty.
    destruct (Hty (obj doc id)) as (k & Hkind).
    { unfold obj. apply nth_In. lia. }
    rewrite (predicate_bare kind k _ Hkind).
    unfold is_kind, kind_of. rewrite Hkind. reflexivity.
Qed.

End LayoutReading.



(** X5.  On every Document the parser returns, selecting by a bare kind
    gives the list the Document keeps for that kind, and [None] when that
    list is empty. *)
Theorem select_by_kind_is_the_kind_list (data : string) (doc : TSCN.t) :
  TSCN.parse_file data = Ok doc ->
  let nonempty (l : list nat) :=
    match l with [] => None | _ :: _ => Some l end in
  TSCN.select doc (TSCN.Text "node") = Ok (nonempty (TSCN.node doc)) /\
  TSCN.select doc (TSCN.Text "ext_resource") = Ok (nonempty (TSCN.ext_resource doc)) /\
  TSCN.select doc (TSCN.Text "sub_resource") = Ok (nonempty (TSCN.sub_resource doc)) /\
  TSCN.select doc (TSCN.Text "connection") = Ok (nonempty (TSCN.connection doc)).
Proof.
  intros Hp nonempty.
  pose proof (laid_out_parse_file data doc Hp) as Hl.
  destruct Hl as (Hty & Hrs & Hn & He & Hs & Hc & Hsc).
  assert (Hl : laid_out doc) by (unfold laid_out; auto 10).
  rewrite Hn, He, Hs, Hc.
  repeat split;
    (rewrite select_bare; [|exact Hl|reflexivity|discriminate]);
    match goal with
    | |- context [filter ?f ?l] => destruct (filter f l); reflexivity
    end.
Qed.

Lemma select_by_kind_is_the_kind_list_witness :
  TSCN.select mixed (TSCN.Text "node") = Ok (Some [2; 4]) /\
  TSCN.select mixed (TSCN.Text "ext_resource") = Ok (Some [1]) /\
  TSCN.select mixed (TSCN.Text "sub_resource") = Ok None /\
  TSCN.select mixed (TSCN.Text "connection") = Ok None.
Proof.
  apply (select_by_kind_is_the_kind_list mixed_text mixed). reflexivity.
Defined.

(** X6.  The scene a Document keeps is the last Resource of the kind
    [gd_scene]: of the Resources that selecting [gd_scene] returns, it is
    the last one, and there is none when that selection is [None]. *)
Theorem scene_is_the_last_descriptor (data : string) (doc : TSCN.t) :
  TSCN.parse_file data = Ok doc ->
  let found := filter (is_kind doc "gd_scene") (TSCN.resources doc) in
  TSCN.select doc (TSCN.Text "gd_scene")
    = Ok (match found with [] => None | _ :: _ => Some found end) /\
  TSCN.scene doc = last_of found.
Proof.
  intros Hp found.
  pose proof (laid_out_parse_file data doc Hp) as Hl.
  assert (Hfound : found = filter (is_kind doc "gd_scene") (ids doc)).
  { destruct Hl as (_ & Hrs & _). unfold found. rewrite Hrs.
    apply filter_listing. discriminate. }
  rewrite Hfound. split.
  - rewrite select_bare; [|exact Hl|reflexivity|discriminate].
    destruct (filter (is_kind doc "gd_scene") (ids doc)); reflexivity.
  - destruct Hl as (_ & _ & _ & _ & _ & _ & Hsc). exact Hsc.
Qed.

Lemma scene_is_the_last_descriptor_witness :
  TSCN.select mixed (TSCN.Text "gd_scene") = Ok (Some [0; 3]) /\
  TSCN.scene mixed = Some 3.
Proof.
  apply (scene_is_the_last_descriptor mixed_text mixed). reflexivity.
Defined.

(** ** Assignments to a mapping *)

Section AssignmentFacts.
Import TSCN.

Lemma collect_lookup (queries : list (list string)) :
  forall (attrs : Selector.clauses) (path : string),
    lookup path (Selector.collect queries attrs) =
      match last_relation path queries with
      | Some r => Some r
      | None => lookup path attrs
      end.
Proof.
  induction queries as [|q queries IH]; intros attrs path; cbn [Selector.collect last_relation].
  - reflexivity.
  - destruct q as [|a [|op [|rhs [|x q]]]]; try apply IH.
    rewrite IH. destruct (last_relation path queries); [reflexivity|].
    rewrite lookup_store. destruct (String.eqb a path); reflexivity.
Qed.

Lemma collect_NoDup (queries : list (list string)) :
  forall attrs : Selector.clauses,
    NoDup (map fst attrs) -> NoDup (map fst (Selector.collect queries attrs)).
Proof.
  induction queries as [|q queries IH]; intros attrs Ha; cbn [Selector.collect].
  - exact Ha.
  - destruct q as [|a [|op [|rhs [|x q]]]]; auto.
    apply IH. apply store_NoDup. exact Ha.
Qed.

Lemma header_attr_lookup (pairs : list (list string)) :
  forall (attr : dict) (k : string),
    lookup k (header_attr pairs attr) =
      match last_value k pairs with
      | Some raw => Some (VStr (PyStr.replace_char Latin1.dquote "" raw))
      | None => lookup k attr
      end.
Proof.
  induction pairs as [|p pairs IH]; intros attr k; cbn [header_attr last_value].
  - reflexivity.
  - destruct p as [|k' [|v [|x p]]]; try apply IH.
    rewrite IH. destruct (last_value k pairs); [reflexivity|].
    rewrite lookup_store. destruct (String.eqb k' k); reflexivity.
Qed.

End AssignmentFacts.

(** X7.  A body line that succeeds changes the open Resource only, and
    of it the one entry only: the entry of the key is the stored value,
    every other entry and every attribute is kept, the other Resources
    are untouched, and no list of the Document changes. *)
Theorem body_line_changes_one_entry
        (doc doc' : TSCN.t) (id : nat) (key value : string) :
  TSCN.body doc (Some id) key value = Ok doc' ->
  (exists d d',
      TSCNResource.getattr (TSCN.obj doc id) "entries" = Ok (VDict d) /\
      TSCNResource.getattr (TSCN.obj doc' id) "entries" = Ok (VDict d') /\
      lookup key d' = Some (VStr (TSCN.body_value value)) /\
      (forall k, k <> key -> lookup k d' = lookup k d)) /\
  (forall k, k <> "entries" ->
             lookup k (TSCNResource.fields (TSCN.obj doc' id))
             = lookup k (TSCNResource.fields (TSCN.obj doc id))) /\
  (forall j, j <> id -> TSCN.obj doc' j = TSCN.obj doc j) /\
  TSCN.resources doc' = TSCN.resources doc /\
  TSCN.node doc' = TSCN.node doc /\
  TSCN.ext_resource doc' = TSCN.ext_resource doc /\
  TSCN.sub_resource doc' = TSCN.sub_resource doc /\
  TSCN.connection doc' = TSCN.connection doc /\
  TSCN.scene doc' = TSCN.scene doc.
Proof.
  unfold TSCN.body. intros H.
  destruct (set_entry_result _ _ _ _ _ H) as (Hid & d & Hd & Hdoc).
  assert (Hobj : TSCN.obj doc' id
                 = TSCNResource.Make
                     (store "entries"
                        (VDict (store key (VStr (TSCN.body_value value)) d))
                        (TSCNResource.fields (TSCN.obj doc id)))).
  { rewrite Hdoc. unfold TSCN.obj at 1. cbn [TSCN.heap].
    apply nth_replace. exact Hid. }
  split; [|split; [|split]].
  - exists d, (store key (VStr (TSCN.body_value value)) d).
    rewrite !getattr_entries, Hd, Hobj. cbn [TSCNResource.fields].
    rewrite lookup_store_same.
    repeat split; [apply lookup_store_same|].
    intros k Hk. apply lookup_store_other. congruence.
  - intros k Hk. rewrite Hobj. cbn [TSCNResource.fields].
    apply lookup_store_other. congruence.
  - intros j Hj. apply (set_entry_frame _ _ _ _ _ _ H Hj).
  - rewrite Hdoc. cbn. repeat split.
Qed.

Lemma body_line_changes_one_entry_witness :
  exists doc',
    TSCN.body three_nodes (Some 2) "StartHealth" "75" = Ok doc' /\
    (forall j, j <> 2 -> TSCN.obj doc' j = TSCN.obj three_nodes j) /\
    TSCN.resources doc' = TSCN.resources three_nodes.
Proof.
  destruct (TSCN.body three_nodes (Some 2) "StartHealth" "75") as [doc'|] eqn:H.
  - exists doc'. split; [reflexivity|].
    pose proof (body_line_changes_one_entry three_nodes doc' 2 "StartHealth" "75" H)
      as (_ & _ & Hframe & Hrs & _).
    split; assumption.
  - vm_compute in H. discriminate.
Defined.

(** X8.  A header sets each of its attributes to the value of the last
    pair of that name, with its double quotes removed; names that the
    header does not mention are not attributes of the mapping it passes to
    the constructor, and no name is passed twice. *)
Theorem header_attribute_last_wins (pairs : list (list string)) (k : string) :
  lookup k (TSCN.header_attr pairs []) =
    option_map (fun raw => VStr (PyStr.replace_char Latin1.dquote "" raw))
               (last_value k pairs) /\
  NoDup (map fst (TSCN.header_attr pairs [])).
Proof.
  split.
  - rewrite header_attr_lookup. destruct (last_value k pairs); reflexivity.
  - apply header_attr_NoDup. constructor.
Qed.

(** X9.  The clause mapping of a compiled selector has each path once,
    with the operator and right-hand side of the last clause that names
    it. *)
Theorem compiled_clauses_last_wins
        (s kind : string) (clauses : Selector.clauses) (path : string) :
  Selector.parse (VStr s) = Ok [(kind, clauses)] ->
  NoDup (map fst clauses) /\
  lookup path clauses
    = last_relation path (Re.findall 3 Selector.clause_re s).
Proof.
  unfold Selector.parse.
  destruct (Re.re_match Selector.kind_re s); [|discriminate].
  intros H. inversion H. split.
  - apply collect_NoDup. constructor.
  - rewrite collect_lookup.
    destruct (last_relation path _); reflexivity.
Qed.

Lemma compiled_clauses_last_wins_witness :
  NoDup (map fst [("a", (">=", "3")); ("b", ("<", "2"))]) /\
  lookup "a" [("a", (">=", "3")); ("b", ("<", "2"))]
    = last_relation "a" (Re.findall 3 Selector.clause_re repeated_selector).
Proof.
  apply (compiled_clauses_last_wins repeated_selector "node"). reflexivity.
Defined.

(** ** Well-formed texts *)

Section WellFormedFacts.
Import TSCN.

Lemma not_key_lookup (k : string) (d : dict) :
  ~ In k (map fst d) -> lookup k d = None.
Proof.
  induction d as [|[k' v] d IH]; cbn [lookup map fst In]; intros H.
  - reflexivity.
  - destruct (String.eqb_spec k' k) as [E|E]; [tauto|]. apply IH. tauto.
Qed.

Lemma unreserved_keys (attr : dict) :
  forallb (fun k => negb (TSCNResource.mem k reserved)) (map fst attr) = true ->
  forall k, In k reserved -> ~ In k (map fst attr).
Proof.
  intros H k Hres Hin. rewrite forallb_forall in H.
  specialize (H k Hin). apply negb_true_iff in H.
  unfold TSCNResource.mem in H.
  assert (Hex : existsb (String.eqb k) reserved = true).
  { apply existsb_exists. exists k. split; [exact Hres | apply String.eqb_refl]. }
  congruence.
Qed.

(** Keyword arguments that are strings under names that are not
    descriptors of the class are all set. *)
Lemma setattrs_succeeds (attr : dict) :
  text_values attr ->
  ~ In "__class__" (map fst attr) ->
  ~ In "__dict__" (map fst attr) ->
  ~ In "__weakref__" (map fst attr) ->
  forall self, exists self', TSCNResource.setattrs self attr = Ok self'.
Proof.
  induction 1 as [|[k v] attr (s & Hv) Htext IH]; intros H1 H2 H3 self.
  - exists self. reflexivity.
  - cbn [map fst In] in H1, H2, H3. cbn [TSCNResource.setattrs].
    unfold TSCNResource.setattr.
    destruct (String.eqb_spec k "__class__"); [tauto|].
    destruct (String.eqb_spec k "__dict__"); [tauto|].
    destruct (String.eqb_spec k "__weakref__"); [tauto|].
    cbn [bind]. apply IH; tauto.
Qed.

Lemma init_ordinary (kind : string) (attr : dict) :
  text_values attr ->
  forallb (fun k => negb (TSCNResource.mem k reserved)) (map fst attr) = true ->
  exists rsc, TSCNResource.init (VStr kind) attr = Ok rsc /\ ordinary rsc.
Proof.
  intros Ha Hkeys. pose proof (unreserved_keys attr Hkeys) as Hno.
  assert (Hin : forall k, In k reserved -> lookup k attr = None).
  { intros k Hk. apply not_key_lookup. apply Hno. exact Hk. }
  unfold TSCNResource.init, has_key.
  rewrite (Hin "self") by (cbn; tauto).
  rewrite (Hin "resource_type") by (cbn; tauto). cbn [orb].
  destruct (setattrs_succeeds attr Ha) with
    (self := TSCNResource.Make [("resource_type", VStr kind); ("entries", VDict [])])
    as (rsc & Hset); try (apply Hno; cbn; tauto).
  exists rsc. split; [exact Hset|].
  unfold ordinary.
  rewrite (setattrs_keeps attr Ha _ _ "resource_type" Hset) by (apply Hno; cbn; tauto).
  rewrite (setattrs_keeps attr Ha _ _ "entries" Hset) by (apply Hno; cbn; tauto).
  rewrite (setattrs_keeps attr Ha _ _ "query" Hset) by (apply Hno; cbn; tauto).
  split; [eexists; reflexivity|].
  split; [exists []; split; [reflexivity | constructor]|].
  split; [reflexivity|].
  intros k v Hk.
  destruct (setattrs_text attr Ha _ _ Hset k v Hk) as [Hold|Hstr]; [|auto].
  cbn [TSCNResource.fields lookup] in Hold.
  destruct (String.eqb "resource_type" k).
  - inversion Hold. eauto.
  - destruct (String.eqb_spec "entries" k); [auto | discriminate].
Qed.

Lemma recognized_true (kind : string) :
  recognized kind || String.eqb kind "resources" = true ->
  In kind ["gd_scene"; "node"; "ext_resource"; "sub_resource"; "connection";
           "resources"].
Proof.
  unfold recognized, TSCNResource.mem. cbn [existsb In].
  rewrite !orb_true_iff, !String.eqb_eq.
  intuition (try discriminate; subst; auto 10).
Qed.

Lemma header_succeeds (doc : t) (kind rest : string) :
  plain_header kind rest = true ->
  exists doc' rsc,
    header doc kind rest = Ok (doc', List.length (heap doc)) /\
    heap doc' = (heap doc ++ [rsc])%list /\
    ordinary rsc.
Proof.
  unfold plain_header. rewrite andb_true_iff. intros [Hkind Hkeys].
  destruct (init_ordinary kind _ (header_attr_text _ [] (Forall_nil _)) Hkeys)
    as (rsc & Hinit & Hord).
  unfold header. rewrite Hinit. cbn [bind].
  apply recognized_true in Hkind.
  destruct doc as [h rs n e s c sc].
  cbn [In] in Hkind.
  destruct Hkind as [<-|[<-|[<-|[<-|[<-|[<-|[]]]]]]];
    eexists; exists rsc; (split; [reflexivity|]); split; auto.
Qed.

Lemma set_entry_succeeds (doc : t) (id : nat) (key value : string) :
  Forall ordinary (heap doc) ->
  id < List.length (heap doc) ->
  exists doc',
    set_entry doc id key value = Ok doc' /\
    Forall ordinary (heap doc') /\
    List.length (heap doc') = List.length (heap doc).
Proof.
  intros Hall Hid.
  assert (Hobj : ordinary (obj doc id)).
  { rewrite Forall_forall in Hall. apply Hall. unfold obj. apply nth_In. exact Hid. }
  destruct Hobj as ((k & Hk) & (d & Hd & Htext) & Hq & Hstr).
  destruct (set_entry doc id key value) as [doc'|e] eqn:Hset.
  - exists doc'. split; [reflexivity|].
    split; [|eapply set_entry_length; exact Hset].
    destruct (set_entry_result _ _ _ _ _ Hset) as (_ & d0 & Hd0 & Hdoc).
    rewrite Hd in Hd0. inversion Hd0. subst d0.
    rewrite Hdoc. cbn [heap].
    apply Forall_app. split; [|constructor].
    + rewrite <- (firstn_skipn id (heap doc)) in Hall.
      apply Forall_app in Hall. apply Hall.
    + unfold ordinary. cbn [TSCNResource.fields].
      rewrite lookup_store_same.
      rewrite !lookup_store_other by discriminate.
      split; [eauto|].
      split; [eexists; split; [reflexivity | apply text_values_store; exact Htext]|].
      split; [exact Hq|].
      intros k' v'. rewrite lookup_store.
      destruct (String.eqb_spec "entries" k'); [auto | apply Hstr].
    + rewrite <- (firstn_skipn (S id) (heap doc)) in Hall.
      apply Forall_app in Hall. apply Hall.
  - exfalso. unfold set_entry in Hset. rewrite getattr_entries, Hd in Hset.
    cbn [bind] in Hset. destruct doc. discriminate.
Qed.

(** Plain lines after an open Resource, or beginning with a header, are
    all taken in. *)
Lemma parse_lines_succeeds (lines : list (list string)) :
  forall (doc : t) (rsc : option nat),
    Forall ordinary (heap doc) ->
    match rsc with
    | Some id => id < List.length (heap doc)
    | None => begins_with_header lines = true
    end ->
    forallb plain_line lines = true ->
    exists doc', parse_lines lines doc rsc = Ok doc' /\
                 Forall ordinary (heap doc').
Proof.
  induction lines as [|line lines IH]; intros doc rsc Hall Hrsc Hplain.
  - exists doc. split; [reflexivity | exact Hall].
  - cbn [forallb] in Hplain. apply andb_true_iff in Hplain.
    destruct Hplain as [Hline Hplain].
    assert (Hskip : forall id, rsc = Some id -> id < List.length (heap doc) ->
              exists doc', parse_lines lines doc rsc = Ok doc' /\
                           Forall ordinary (heap doc')).
    { intros id -> Hid. apply IH; assumption. }
    destruct line as [|kind [|rest [|key [|value [|x line]]]]];
      try (destruct rsc as [id|]; [cbn [parse_lines]; eapply Hskip; eauto
                                  | discriminate]).
    cbn [parse_lines]. cbn [plain_line] in Hline.
    destruct (Nat.ltb 0 (String.length kind)) eqn:Hk.
    + destruct (header_succeeds doc kind rest Hline) as (doc1 & r & Hh & Hheap & Hord).
      rewrite Hh. cbn [bind fst snd]. apply IH.
      * rewrite Hheap. apply Forall_app. split; [exact Hall|].
        constructor; [exact Hord | constructor].
      * rewrite Hheap, length_app. cbn. lia.
      * exact Hplain.
    + destruct rsc as [id|].
      * unfold body.
        destruct (set_entry_succeeds doc id key (body_value value) Hall Hrsc)
          as (doc1 & Hs & Hall1 & Hlen).
        rewrite Hs. cbn [bind]. apply IH; [exact Hall1 | | exact Hplain].
        rewrite Hlen. exact Hrsc.
      * cbn [begins_with_header] in Hrsc. congruence.
Qed.

End WellFormedFacts.

Lemma parse_file_succeeds (data : string) :
  well_formed data = true ->
  exists doc, TSCN.parse_file data = Ok doc /\ Forall ordinary (TSCN.heap doc).
Proof.
  unfold well_formed. rewrite andb_true_iff. intros [Hfirst Hplain].
  unfold TSCN.parse_file.
  apply parse_lines_succeeds; [constructor | exact Hfirst | exact Hplain].
Qed.

(** X10.  A well-formed text, one whose first recognized line is a header
    and whose headers are of a kind the Document has a list for and set no
    reserved attribute name, always parses; every Resource of the result
    has its kind, a mapping of string entries, its method [query], and
    strings for attributes. *)
Theorem well_formed_text_parses (data : string) :
  well_formed data = true ->
  exists doc, TSCN.parse_file data = Ok doc /\ Forall ordinary (TSCN.heap doc).
Proof. apply parse_file_succeeds. Qed.

Lemma well_formed_text_parses_witness :
  exists doc, TSCN.parse_file mixed_text = Ok doc /\ Forall ordinary (TSCN.heap doc).
Proof.
  apply (well_formed_text_parses mixed_text). vm_compute. reflexivity.
Defined.

(** ** Selections and extractions that do not raise *)

Section TotalFacts.
Import TSCN.

Lemma plain_name_parts (k : string) :
  plain_name k = true ->
  PyStr.isnumeric k = false /\ lacks "/" k = true /\
  k <> "entries" /\ k <> "__class__" /\ k <> "__dict__" /\
  TSCNResource.mem k TSCNResource.method_names = false.
Proof.
  unfold plain_name, TSCNResource.mem. cbn [existsb].
  rewrite !andb_true_iff, !negb_true_iff, !orb_false_iff.
  rewrite !String.eqb_neq. tauto.
Qed.

(** On an ordinary Resource the query of a plain name gives the default
    or a string; only the names [__doc__] and [__weakref__] give [None]. *)
Lemma query_plain (r : TSCNResource.t) (k : string) (default : pyval) :
  ordinary r -> plain_name k = true ->
  exists v, TSCNResource.call_query r (VStr k) default = Ok v /\
            (v = default \/ (exists s, v = VStr s) \/
             (v = VNone /\ (k = "__doc__" \/ k = "__weakref__"))).
Proof.
  intros ((kind & Hkind) & (d & Hd & Htext) & Hq & Hstr) Hk.
  destruct (plain_name_parts k Hk) as (Hnum & Hslash & He & Hc & Hdi & Hm).
  unfold TSCNResource.call_query. rewrite Hq.
  assert (Hent : TSCNResource.getattr r "entries" = Ok (VDict d)).
  { rewrite getattr_entries, Hd. reflexivity. }
  rewrite (query_name_result r k default d Hent Hnum Hslash).
  eexists. split; [reflexivity|].
  unfold TSCNResource.getattr.
  apply String.eqb_neq in Hc, Hdi. rewrite Hc, Hdi.
  destruct (String.eqb_spec k "__weakref__"); [auto|].
  destruct (lookup k (TSCNResource.fields r)) as [v|] eqn:Hl.
  - destruct (Hstr k v Hl) as [Habs|Hs]; [contradiction | auto].
  - destruct (String.eqb k "__module__"); [eauto|].
    destruct (String.eqb_spec k "__doc__"); [auto|].
    rewrite Hm.
    destruct (lookup k d) as [v|] eqn:Hv; [|auto].
    right. left. eapply text_values_lookup; eassumption.
Qed.

Lemma query_text (r : TSCNResource.t) (k default : string) :
  ordinary r -> plain_name k = true ->
  k <> "__doc__" -> k <> "__weakref__" ->
  exists s, TSCNResource.call_query r (VStr k) (VStr default) = Ok (VStr s).
Proof.
  intros Hr Hk H1 H2.
  destruct (query_plain r k (VStr default) Hr Hk) as (v & Hq & Hv).
  destruct Hv as [->|[(s & ->)|(_ & [Habs|Habs])]];
    try contradiction; eauto.
Qed.

Lemma clause_plain (r : TSCNResource.t) (path op rhs : string) :
  ordinary r -> plain_name path = true ->
  exists b, clause r path op rhs = Ok b.
Proof.
  intros Hr Hp. unfold clause.
  destruct (query_plain r path VNone Hr Hp) as (v & -> & Hv). cbn [bind].
  destruct Hv as [->|[(s & ->)|(-> & _)]]; try (eexists; reflexivity).
  cbn [py_int]. destruct (int_of_str s); [|eexists; reflexivity].
  destruct (int_of_str rhs); eexists; reflexivity.
Qed.

Lemma predicate_plain (selectors : Selector.t) (r : TSCNResource.t) :
  ordinary r -> plain_selector selectors = true ->
  exists b, predicate selectors r = Ok b.
Proof.
  intros Hr Hsel. pose proof Hr as ((kind & Hkind) & _).
  unfold predicate, clauses_for, TSCNResource.getattr.
  cbn -[String.eqb lookup]. cbn [String.eqb Ascii.eqb Bool.eqb].
  rewrite Hkind. cbn [bind].
  destruct (lookup kind selectors) as [cs|] eqn:Hl; [|eexists; reflexivity].
  destruct cs as [|[path [op rhs]] cs]; [eexists; reflexivity|].
  apply clause_plain; [exact Hr|].
  unfold plain_selector in Hsel. rewrite forallb_forall in Hsel.
  apply (Hsel (kind, (path, (op, rhs)) :: cs)). apply lookup_In. exact Hl.
Qed.

Lemma keep_total (p : nat -> result bool) (l : list nat) :
  (forall id, In id l -> exists b, p id = Ok b) ->
  exists kept, keep p l = Ok kept /\ incl kept l.
Proof.
  induction l as [|id l IH]; intros H; cbn [keep].
  - exists []. split; [reflexivity | apply incl_refl].
  - destruct (H id) as (b & ->); [left; reflexivity|]. cbn [bind].
    destruct IH as (kept & -> & Hincl); [intros; apply H; right; assumption|].
    cbn [bind]. destruct b; eexists; (split; [reflexivity|]).
    + apply incl_cons; [left; reflexivity | apply incl_tl; exact Hincl].
    + apply incl_tl. exact Hincl.
Qed.

(** The Resources of a laid out Document are those of its heap. *)
Lemma listed_in_heap (doc : t) (id : nat) :
  laid_out doc -> In id (resources doc) -> In (obj doc id) (heap doc).
Proof.
  intros (_ & Hrs & _) Hin. rewrite Hrs in Hin. apply in_listing in Hin.
  unfold ids in Hin. apply in_seq in Hin. unfold obj. apply nth_In. lia.
Qed.

Lemma select_plain (doc : t) (source : source) (selectors : Selector.t) :
  laid_out doc -> Forall ordinary (heap doc) ->
  compile source = Ok selectors -> plain_selector selectors = true ->
  exists found, select doc source = Ok found /\
                forall l, found = Some l -> l <> [] /\ incl l (resources doc).
Proof.
  intros Hl Hall Hc Hsel. unfold select. rewrite Hc. cbn [bind].
  destruct (keep_total (fun id => predicate selectors (obj doc id)) (resources doc))
    as (kept & -> & Hincl).
  { intros id Hin. apply predicate_plain; [|exact Hsel].
    rewrite Forall_forall in Hall. apply Hall. apply listed_in_heap; assumption. }
  cbn [bind]. destruct kept as [|m kept].
  - eexists. split; [reflexivity|]. discriminate.
  - eexists. split; [reflexivity|]. intros l H. inversion H. subst.
    split; [discriminate | exact Hincl].
Qed.

Lemma first_selected_plain (doc : t) (selector : string) (selectors : Selector.t) :
  laid_out doc -> Forall ordinary (heap doc) ->
  compile (Text selector) = Ok selectors -> plain_selector selectors = true ->
  exists found, Game.first_selected doc selector = Ok found /\
                match found with
                | Some node => ordinary node
                | None => True
                end.
Proof.
  intros Hl Hall Hc Hsel. unfold Game.first_selected.
  destruct (select_plain doc (Text selector) selectors Hl Hall Hc Hsel)
    as (found & -> & Hfound).
  cbn [bind].
  destruct found as [[|id l]|];
    try (exists None; split; [reflexivity | exact I]).
  exists (Some (obj doc id)). split; [reflexivity|].
  destruct (Hfound _ eq_refl) as (_ & Hincl).
  rewrite Forall_forall in Hall. apply Hall. apply listed_in_heap; [exact Hl|].
  apply Hincl. left. reflexivity.
Qed.

End TotalFacts.

(** X11.  On a well-formed text, a selector that compiles and whose first
    clauses are on plain names never raises: the text parses and [select]
    returns [None] or a list, never empty, of Resources of the flat
    list. *)
Theorem select_on_well_formed_text_returns
        (data : string) (source : TSCN.source) (selectors : Selector.t) :
  well_formed data = true ->
  TSCN.compile source = Ok selectors ->
  plain_selector selectors = true ->
  exists doc found,
    TSCN.parse_file data = Ok doc /\
    TSCN.select doc source = Ok found /\
    forall l, found = Some l -> l <> [] /\ incl l (TSCN.resources doc).
Proof.
  intros Hwf Hc Hsel.
  destruct (parse_file_succeeds data Hwf) as (doc & Hp & Hall).
  destruct (select_plain doc source selectors
              (laid_out_parse_file data doc Hp) Hall Hc Hsel) as (found & Hs & Hf).
  exists doc, found. auto.
Qed.

Lemma select_on_well_formed_text_returns_witness :
  exists doc found,
    TSCN.parse_file mixed_text = Ok doc /\
    TSCN.select doc (TSCN.Text "node[StartHealth>=50]") = Ok found /\
    forall l, found = Some l -> l <> [] /\ incl l (TSCN.resources doc).
Proof.
  apply (select_on_well_formed_text_returns
           mixed_text (TSCN.Text "node[StartHealth>=50]")
           [("node", [("StartHealth", (">=", "50"))])]);
    vm_compute; reflexivity.
Defined.

Section ExtractionFacts.
Import TSCN.

Lemma monster_succeeds (path data : string) :
  well_formed data = true ->
  exists m, Game.monster path data = Ok m /\
            Game.Monster.file m = Game.stem path /\ textual_monster m.
Proof.
  intros Hwf. destruct (parse_file_succeeds data Hwf) as (doc & Hp & Hall).
  pose proof (laid_out_parse_file data doc Hp) as Hl.
  unfold Game.monster. rewrite Hp. cbn [bind].
  destruct (first_selected_plain doc "node[name=AreaOfEffect]"
              [("node", [("name", ("=", "AreaOfEffect"))])] Hl Hall
              eq_refl eq_refl) as (area & -> & Harea).
  cbn [bind].
  assert (Haoe : exists aoe,
    match area with
    | Some node =>
        damage <- TSCNResource.call_query node (VStr "ApplyDamage") (VStr "0") ;;
        radius <- TSCNResource.call_query node (VStr "Radius") (VStr "0") ;;
        Ok (Some damage, Some radius)
    | None => Ok (None, None)
    end = Ok aoe /\
    textual_slot (fst aoe) /\ textual_slot (snd aoe) /\
    (fst aoe = None <-> snd aoe = None)).
  { destruct area as [node|].
    - destruct (query_text node "ApplyDamage" "0" Harea eq_refl) as (d & ->);
        try discriminate.
      destruct (query_text node "Radius" "0" Harea eq_refl) as (r & ->);
        try discriminate.
      eexists. split; [reflexivity|]. cbn.
      repeat split; eauto; discriminate.
    - eexists. split; [reflexivity|]. cbn. tauto. }
  destruct Haoe as (aoe & -> & Ha1 & Ha2 & Ha3). cbn [bind].
  destruct (first_selected_plain doc "node[name=Health]"
              [("node", [("name", ("=", "Health"))])] Hl Hall
              eq_refl eq_refl) as (vital & -> & Hvital).
  cbn [bind].
  assert (Hhp : exists hp,
    match vital with
    | Some node =>
        health <- TSCNResource.call_query node (VStr "StartHealth") (VStr "0") ;;
        hits <- TSCNResource.call_query node (VStr "KillAfterNumberOfHits")
                                        (VStr "N/A") ;;
        Ok (Some health, Some hits)
    | None => Ok (None, None)
    end = Ok hp /\
    textual_slot (fst hp) /\ textual_slot (snd hp) /\
    (fst hp = None <-> snd hp = None)).
  { destruct vital as [node|].
    - destruct (query_text node "StartHealth" "0" Hvital eq_refl) as (h & ->);
        try discriminate.
      destruct (query_text node "KillAfterNumberOfHits" "N/A" Hvital eq_refl)
        as (k & ->); try discriminate.
      eexists. split; [reflexivity|]. cbn.
      repeat split; eauto; discriminate.
    - eexists. split; [reflexivity|]. cbn. tauto. }
  destruct Hhp as (hp & -> & Hh1 & Hh2 & Hh3). cbn [bind].
  eexists. split; [reflexivity|]. split; [reflexivity|].
  unfold textual_monster. cbn. tauto.
Qed.

End ExtractionFacts.

(** X12.  On a directory whose scene files are well-formed,
    [parse_monsters] never raises.  It returns one monster for each name
    that ends in [.tscn], in the order of the listing, named by the text
    before the first dot; the slots of a monster are set in pairs (damage
    with radius, health with hits to kill), and to strings. *)
Theorem monsters_of_well_formed_files (dir : Game.directory) :
  (forall path data,
      In (path, data) dir -> Game.endswith ".tscn" path = true ->
      well_formed data = true) ->
  exists monsters,
    Game.parse_monsters dir = Ok monsters /\
    map Game.Monster.file monsters
      = map (fun entry => Game.stem (fst entry)) (filter is_tscn dir) /\
    Forall textual_monster monsters.
Proof.
  induction dir as [|[path data] dir IH]; intros Hwf.
  - exists []. repeat split; constructor.
  - destruct IH as (ms & Hms & Hfiles & Hall).
    { intros p d Hin. apply Hwf. right. exact Hin. }
    cbn [Game.parse_monsters filter]. unfold is_tscn at 1. cbn [fst].
    destruct (Game.endswith ".tscn" path) eqn:Hext.
    + destruct (monster_succeeds path data) as (m & -> & Hfile & Hm).
      { apply (Hwf path data); [left; reflexivity | exact Hext]. }
      cbn [bind]. rewrite Hms. cbn [bind].
      exists (m :: ms). split; [reflexivity|]. split.
      * cbn [map fst]. rewrite Hfile, Hfiles. reflexivity.
      * constructor; assumption.
    + exists ms. auto.
Qed.

Lemma monsters_of_well_formed_files_witness :
  exists monsters,
    Game.parse_monsters sample_directory = Ok monsters /\
    map Game.Monster.file monsters
      = map (fun entry => Game.stem (fst entry)) (filter is_tscn sample_directory) /\
    Forall textual_monster monsters.
Proof.
  apply (monsters_of_well_formed_files sample_directory).
  intros path data [H|[H|[H|[]]]] Hext; inversion H; subst;
    try (vm_compute; reflexivity).
  vm_compute in Hext. discriminate.
Defined.

Section ItemFacts.
Import TSCN.




End ItemFacts.



(** ** The value of a body line *)

Section ValueFacts.
Import Re TSCN.

Lemma lacks_app (x : ascii) (s t : string) :
  lacks x (s ++ t) = lacks x s && lacks x t.
Proof.
  unfold lacks. induction s as [|c s IH]; cbn [append PyStr.forallb].
  - reflexivity.
  - rewrite IH, andb_assoc. reflexivity.
Qed.

(** After the escape no newline is left. *)
Lemma escaped_lacks_newline (value : string) :
  lacks Latin1.newline (PyStr.replace_char Latin1.newline "\n" value) = true.
Proof.
  induction value as [|c value IH]; cbn [PyStr.replace_char].
  - reflexivity.
  - destruct (Ascii.eqb c Latin1.newline) eqn:E.
    + rewrite lacks_app, IH. reflexivity.
    + unfold lacks in *. cbn [PyStr.forallb].
      rewrite Ascii.eqb_sym, E, IH. reflexivity.
Qed.

Lemma ends_quoted_app (s m : string) :
  ends_quoted s = Some m <-> s = m ++ PyStr.dq.
Proof.
  revert m. induction s as [|c s IH]; intros m.
  - cbn. split; [discriminate|]. destruct m; discriminate.
  - cbn [ends_quoted]. destruct s as [|c' s'].
    + destruct (Ascii.eqb_spec Latin1.dquote c) as [<-|Hc].
      * split.
        -- intros H. inversion H. reflexivity.
        -- destruct m as [|a [|b m]]; cbn; intros H; inversion H; reflexivity.
      * split; [discriminate|].
        destruct m as [|a [|b m]]; cbn; intros H; inversion H; congruence.
    + destruct (ends_quoted (String c' s')) as [m'|]; cbn [option_map].
      * split.
        -- intros H. inversion H. cbn. f_equal. apply (IH m'). reflexivity.
        -- destruct m as [|a m]; cbn; intros H; inversion H.
           match goal with
           | E : String c' s' = _ |- _ => apply IH in E; inversion E
           end.
           reflexivity.
      * split; [discriminate|].
        destruct m as [|a m]; cbn; intros H; inversion H.
        match goal with
        | E : String c' s' = _ |- _ => apply IH in E; discriminate
        end.
Qed.

Lemma between_quotes_app (s m : string) :
  between_quotes s = Some m <-> s = PyStr.dq ++ m ++ PyStr.dq.
Proof.
  destruct s as [|c s]; cbn [between_quotes].
  - split; discriminate.
  - destruct (Ascii.eqb_spec Latin1.dquote c) as [<-|Hc].
    + rewrite ends_quoted_app. cbn. split; [intros ->; reflexivity|].
      intros H. inversion H. reflexivity.
    + split; [discriminate|]. cbn. intros H. inversion H. congruence.
Qed.

Lemma lacks_cons (x c : ascii) (s : string) :
  lacks x (String c s) = true -> Ascii.eqb x c = false /\ lacks x s = true.
Proof.
  unfold lacks. cbn [PyStr.forallb]. intros H.
  apply andb_true_iff in H. destruct H as (H1 & H2).
  apply negb_true_iff in H1. auto.
Qed.

Lemma dot_of_lacks (c : ascii) (s : string) :
  lacks Latin1.newline (String c s) = true -> dot c = true.
Proof.
  intros H. apply lacks_cons in H. destruct H as (H & _).
  unfold dot, Latin1.is_newline. rewrite Ascii.eqb_sym, H. reflexivity.
Qed.

(** The closing quote and the end of the text, after the greedy run of
    group 1: they hold before a last character that is a double quote,
    and nowhere else. *)
Lemma unquote_run (A : Type) (k : mstate -> option A) (st0 : mstate) (s : string) :
  forall st, lacks Latin1.newline s = true -> rest st = s ->
    star_greedy dot s st
      (fun st' => exec (Lit Latin1.dquote) (capture 1 st0 st')
                    (fun st'' => exec Eos st'' k))
    = match ends_quoted s with
      | Some m =>
          k (MState (Some Latin1.dquote) "" (S (pos st + String.length m))
               ((1, PyStr.take (pos st + String.length m - pos st0) (rest st0))
                  :: caps st))
      | None => None
      end.
Proof.
  induction s as [|c s IH]; intros st Hl Hr.
  - cbn [star_greedy ends_quoted exec Lit capture rest]. rewrite Hr. reflexivity.
  - cbn [star_greedy]. rewrite (dot_of_lacks c s Hl).
    destruct (lacks_cons _ _ _ Hl) as (Hc & Hs).
    rewrite (IH (step c s st) Hs eq_refl).
    cbn [ends_quoted]. destruct s as [|c' s'].
    + cbn [ends_quoted exec Lit capture rest]. rewrite Hr.
      destruct (Ascii.eqb_spec Latin1.dquote c) as [<-|Hq]; [|reflexivity].
      cbn [exec step capture rest pos caps prev String.length].
      rewrite Nat.add_0_r. reflexivity.
    + assert (Hnone : exec (Lit Latin1.dquote) (capture 1 st0 st)
                        (fun st'' => exec Eos st'' k) = None).
      { cbn [exec Lit capture rest]. rewrite Hr.
        destruct (Ascii.eqb Latin1.dquote c); [|reflexivity].
        cbn [exec step rest].
        destruct s' as [|c'' s'']; [|reflexivity].
        apply dot_of_lacks in Hs. unfold dot in Hs.
        apply negb_true_iff in Hs. rewrite Hs. reflexivity. }
      rewrite Hnone.
      destruct (ends_quoted (String c' s')) as [m|]; cbn [option_map];
        [|reflexivity].
      cbn [step pos caps String.length Nat.add]. rewrite Nat.add_succ_r.
      destruct (k _); reflexivity.
Qed.

(** One attempt of the pattern of the quotes at the start of a text
    without a newline. *)
Lemma unquote_at_start (s : string) :
  lacks Latin1.newline s = true ->
  match_at false unquote_re (start s) =
    match between_quotes s with
    | Some m => Some (MState (Some Latin1.dquote) "" (String.length s) [(1, m)])
    | None => None
    end.
Proof.
  intros Hl. unfold match_at, unquote_re.
  cbn [seqs exec start pos Nat.eqb Lit rest].
  destruct s as [|c s]; [reflexivity|].
  cbn [between_quotes].
  destruct (Ascii.eqb_spec Latin1.dquote c) as [<-|Hq]; [|reflexivity].
  apply lacks_cons in Hl. destruct Hl as (_ & Hl).
  etransitivity; [apply unquote_run; [exact Hl | reflexivity]|].
  cbn [step pos caps rest start andb Nat.add Nat.sub].
  destruct (ends_quoted s) as [m|] eqn:E; [|reflexivity].
  apply ends_quoted_app in E. subst s.
  rewrite Nat.sub_0_r, take_length_app.
  f_equal. f_equal. cbn [String.length]. f_equal.
  clear. induction m as [|a m IH]; cbn; [reflexivity | rewrite <- IH; reflexivity].
Qed.

(** Past the start of the text the pattern of the quotes matches
    nowhere: the text is copied. *)
Lemma unquote_scan_rest (fuel : nat) :
  forall (b : bool) (st : mstate),
    pos st <> 0 -> String.length (rest st) < fuel ->
    rebuild (scan fuel unquote_re b st) = rest st.
Proof.
  induction fuel as [|fuel IH]; intros b st Hp Hf; [lia|].
  cbn [scan].
  assert (Hm : match_at b unquote_re st = None).
  { unfold match_at, unquote_re. cbn [seqs exec].
    destruct (Nat.eqb_spec (pos st) 0); [contradiction | reflexivity]. }
  rewrite Hm. destruct (rest st) as [|c s] eqn:Hr; [reflexivity|].
  cbn [rebuild]. rewrite IH; cbn [step pos rest]; [reflexivity | lia |].
  cbn [String.length] in Hf. lia.
Qed.

Lemma append_empty (s : string) : s ++ "" = s.
Proof. induction s as [|c s IH]; cbn; [reflexivity | rewrite IH; reflexivity]. Qed.

Lemma sub_unquote (s : string) :
  lacks Latin1.newline s = true ->
  sub_group1 unquote_re s =
    match between_quotes s with
    | Some m => m
    | None => s
    end.
Proof.
  intros Hl. unfold sub_group1, pieces.
  replace (2 * String.length s + 2) with (S (2 * String.length s + 1)) by lia.
  cbn [scan]. rewrite (unquote_at_start s Hl).
  destruct (between_quotes s) as [m|] eqn:E.
  - cbn [rebuild group Nat.eqb pos start rest fresh prev].
    destruct s as [|c s]; [discriminate|].
    replace (2 * String.length (String c s) + 1)
      with (S (2 * String.length (String c s))) by lia.
    cbn [scan]. unfold match_at, unquote_re.
    cbn [seqs exec fresh pos String.length Nat.eqb rest rebuild caps group].
    apply append_empty.
  - destruct s as [|c s]; [reflexivity|].
    cbn [start rest rebuild]. rewrite unquote_scan_rest.
    + reflexivity.
    + cbn. discriminate.
    + cbn [step rest String.length]. cbn [String.length]. lia.
Qed.

(** What a body line stores, from the escaped text. *)
Lemma body_value_inner (value : string) :
  let escaped := PyStr.replace_char Latin1.newline "\n" value in
  let inner := match between_quotes escaped with
               | Some m => m
               | None => escaped
               end in
  body_value value =
    if PyStr.startswith "+" inner
    then "=" ++ PyStr.dq ++ inner ++ PyStr.dq
    else inner.
Proof.
  cbv zeta. unfold body_value.
  rewrite (sub_unquote _ (escaped_lacks_newline value)). reflexivity.
Qed.

End ValueFacts.

Lemma body_value_lacks_newline (value : string) :
  lacks Latin1.newline (TSCN.body_value value) = true.
Proof.
  pose proof (body_value_inner value) as H. cbv zeta in H. rewrite H.
  pose proof (escaped_lacks_newline value) as He.
  set (escaped := PyStr.replace_char Latin1.newline "\n" value) in *.
  assert (Hi : lacks Latin1.newline
                 match between_quotes escaped with
                 | Some m => m
                 | None => escaped
                 end = true).
  { destruct (between_quotes escaped) as [m|] eqn:E; [|exact He].
    apply between_quotes_app in E. rewrite E, !lacks_app in He.
    apply andb_true_iff in He. destruct He as (_ & He).
    apply andb_true_iff in He. apply He. }
  destruct (PyStr.startswith "+" _); [|exact Hi].
  rewrite !lacks_app, Hi. reflexivity.
Qed.

(** X14.  A body line stores the text of its value with every newline
    written as a backslash and the letter [n].  When that text begins and
    ends with a double quote, two distinct characters, this one pair is
    removed and the quotes inside are kept; a text of any other shape, a
    lone double quote included, is kept whole.  The guard of a leading
    plus applies to what is left. *)
Theorem body_value_strips_one_pair (value : string) :
  let escaped := PyStr.replace_char Latin1.newline "\n" value in
  let guarded := fun inner : string =>
    if PyStr.startswith "+" inner
    then "=" ++ PyStr.dq ++ inner ++ PyStr.dq
    else inner in
  lacks Latin1.newline escaped = true /\
  (forall m, escaped = PyStr.dq ++ m ++ PyStr.dq ->
             TSCN.body_value value = guarded m) /\
  ((forall m, escaped <> PyStr.dq ++ m ++ PyStr.dq) ->
   TSCN.body_value value = guarded escaped).
Proof.
  cbv zeta. pose proof (body_value_inner value) as H. cbv zeta in H.
  split; [apply escaped_lacks_newline|]. split.
  - intros m Hm. apply between_quotes_app in Hm. rewrite Hm in H. exact H.
  - intros Hn.
    destruct (between_quotes (PyStr.replace_char Latin1.newline "\n" value))
      as [m|] eqn:E; [|exact H].
    apply between_quotes_app in E. contradiction (Hn m).
Qed.

Lemma body_value_strips_one_pair_witness :
  TSCN.body_value (PyStr.dq ++ "say " ++ PyStr.dq ++ "hi" ++ PyStr.dq ++ PyStr.dq)
    = "say " ++ PyStr.dq ++ "hi" ++ PyStr.dq /\
  TSCN.body_value PyStr.dq = PyStr.dq.
Proof.
  split.
  - pose proof (body_value_strips_one_pair
                  (PyStr.dq ++ "say " ++ PyStr.dq ++ "hi" ++ PyStr.dq ++ PyStr.dq))
      as H.
    cbv zeta in H. destruct H as (_ & Hpair & _).
    apply (Hpair ("say " ++ PyStr.dq ++ "hi" ++ PyStr.dq)). reflexivity.
  - pose proof (body_value_strips_one_pair PyStr.dq) as H.
    cbv zeta in H. destruct H as (_ & _ & Hwhole).
    apply Hwhole.
    intros m H. destruct m as [|a m]; cbn in H; [discriminate|].
    inversion H.
Defined.

(** X15.  No entry of a parsed Document holds a newline: a value that
    runs over several lines of the file is stored on one line, with its
    line ends escaped. *)
Theorem entries_hold_no_newline (data : string) (doc : TSCN.t) :
  TSCN.parse_file data = Ok doc ->
  forall r d k v,
    In r (TSCN.heap doc) ->
    TSCNResource.getattr r "entries" = Ok (VDict d) ->
    In (k, v) d ->
    exists s, v = VStr s /\ lacks Latin1.newline s = true.
Proof.
  intros Hp.
  exact (parse_file_hold (fun s => lacks Latin1.newline s = true)
                         body_value_lacks_newline data doc Hp).
Qed.

Lemma entries_hold_no_newline_witness :
  exists s, VStr "first\nsecond" = VStr s /\ lacks Latin1.newline s = true.
Proof.
  apply (entries_hold_no_newline two_line_text two_line eq_refl
           (TSCN.obj two_line 0) [("Description", VStr "first\nsecond")]
           "Description" (VStr "first\nsecond")).
  - left. reflexivity.
  - reflexivity.
  - left. reflexivity.
Defined.

(** ** The clauses of a selector on one line *)

Section EngineFacts.
Import Re.

Lemma append_assoc (a b c : string) : (a ++ b) ++ c = a ++ b ++ c.
Proof. induction a as [|x a IH]; cbn; [reflexivity | rewrite IH; reflexivity]. Qed.

Lemma length_append (a b : string) :
  String.length (a ++ b) = String.length a + String.length b.
Proof. induction a as [|x a IH]; cbn; [reflexivity | rewrite IH; reflexivity]. Qed.

Lemma follows_refl (st : mstate) : follows st st.
Proof. exists "". split; [reflexivity | cbn; lia]. Qed.

Lemma follows_trans (st1 st2 st3 : mstate) :
  follows st1 st2 -> follows st2 st3 -> follows st1 st3.
Proof.
  intros (r1 & H1 & P1) (r2 & H2 & P2).
  exists (r1 ++ r2). split.
  - rewrite H1, H2, append_assoc. reflexivity.
  - rewrite length_append. lia.
Qed.

Lemma follows_step (st : mstate) (c : ascii) (s : string) :
  rest st = String c s -> follows st (step c s st).
Proof.
  intros Hr. exists (String c ""). split; [rewrite Hr; reflexivity | cbn; lia].
Qed.

Lemma follows_lacks (x : ascii) (st st' : mstate) :
  follows st st' -> lacks x (rest st) = true -> lacks x (rest st') = true.
Proof.
  intros (r & Hr & _) Hl. rewrite Hr, lacks_app in Hl.
  apply andb_true_iff in Hl. apply Hl.
Qed.

Lemma follows_pos (st st' : mstate) : follows st st' -> pos st <= pos st'.
Proof. intros (r & _ & Hp). lia. Qed.

Section Reaches.
Variable A : Type.
Variable k : mstate -> option A.
Variable x : A.

Lemma star_greedy_reaches (p : ascii -> bool) (s : string) :
  forall st, rest st = s ->
    star_greedy p s st k = Some x ->
    exists st', follows st st' /\ k st' = Some x.
Proof.
  induction s as [|c s IH]; intros st Hr H; cbn [star_greedy] in H.
  - exists st. split; [apply follows_refl | exact H].
  - destruct (p c).
    + destruct (star_greedy p s (step c s st) k) as [y|] eqn:E.
      * rewrite H in E.
        destruct (IH (step c s st) eq_refl E) as (st' & Hf & Hk).
        exists st'. split; [|exact Hk].
        eapply follows_trans; [apply follows_step; exact Hr | exact Hf].
      * exists st. split; [apply follows_refl | exact H].
    + exists st. split; [apply follows_refl | exact H].
Qed.

Lemma star_lazy_reaches (p : ascii -> bool) (s : string) :
  forall st, rest st = s ->
    star_lazy p s st k = Some x ->
    exists st', follows st st' /\ k st' = Some x.
Proof.
  induction s as [|c s IH]; intros st Hr H; cbn [star_lazy] in H.
  - destruct (k st) eqn:E; [|discriminate].
    exists st. split; [apply follows_refl | congruence].
  - destruct (k st) eqn:E.
    + exists st. split; [apply follows_refl | congruence].
    + destruct (p c); [|discriminate].
      destruct (IH (step c s st) eq_refl H) as (st' & Hf & Hk).
      exists st'. split; [|exact Hk].
      eapply follows_trans; [apply follows_step; exact Hr | exact Hf].
Qed.

End Reaches.

(** A pattern that matches has run its continuation at a position that
    follows the one it was started at. *)
Lemma exec_reaches (r : regex) :
  forall (A : Type) (st : mstate) (k : mstate -> option A) (x : A),
    exec r st k = Some x ->
    exists st', follows st st' /\ k st' = Some x.
Proof.
  induction r as [|p|greedy p|r1 IH1 r2 IH2|r1 IH1 r2 IH2|n r IH| | | | |r IH];
    intros A st k x H; cbn [exec] in H.
  - exists st. split; [apply follows_refl | exact H].
  - destruct (rest st) as [|c s] eqn:Hr; [discriminate|].
    destruct (p c); [|discriminate].
    exists (step c s st). split; [apply follows_step; exact Hr | exact H].
  - destruct greedy.
    + eapply star_greedy_reaches; [reflexivity | exact H].
    + eapply star_lazy_reaches; [reflexivity | exact H].
  - destruct (IH1 _ _ _ _ H) as (st1 & Hf1 & H1).
    destruct (IH2 _ _ _ _ H1) as (st2 & Hf2 & H2).
    exists st2. split; [eapply follows_trans; eassumption | exact H2].
  - destruct (exec r1 st k) as [y|] eqn:E.
    + apply IH1. congruence.
    + apply IH2. exact H.
  - destruct (IH _ _ _ _ H) as (st1 & Hf1 & H1).
    exists (capture n st st1). split; [exact Hf1 | exact H1].
  - destruct (Nat.eqb (pos st) 0); [|discriminate].
    exists st. split; [apply follows_refl | exact H].
  - exists st. split; [apply follows_refl|].
    destruct (prev st) as [c|]; [|exact H].
    destruct (Latin1.is_newline c); [exact H | discriminate].
  - exists st. split; [apply follows_refl|].
    destruct (rest st) as [|c [|c' s]]; [exact H | | discriminate].
    destruct (Latin1.is_newline c); [exact H | discriminate].
  - exists st. split; [apply follows_refl|].
    destruct (rest st) as [|c s]; [exact H|].
    destruct (Latin1.is_newline c); [exact H | discriminate].
  - exists st. split; [apply follows_refl|].
    destruct (exec r st (fun _ => Some tt)); [exact H | discriminate].
Qed.

End EngineFacts.

Section ClauseFacts.
Import Re Selector.

Lemma exec_cls (p : ascii -> bool) (A : Type) (st : mstate)
      (k : mstate -> option A) (x : A) :
  exec (Cls p) st k = Some x ->
  exists c s, rest st = String c s /\ p c = true /\ k (step c s st) = Some x.
Proof.
  cbn [exec]. destruct (rest st) as [|c s]; [discriminate|].
  destruct (p c) eqn:E; [|discriminate]. eauto.
Qed.

Section LastBracket.
Variable A : Type.
Variable k : mstate -> option A.
Variable p0 : nat.
Hypothesis k_total : forall st, p0 < pos st -> k st <> None.
Variable from : mstate.

(** When the greedy run of the right-hand side finds no closing bracket
    to stop before, there is none. *)
Lemma greedy_none (s : string) :
  forall st, rest st = s -> p0 <= pos st ->
    lacks Latin1.newline s = true ->
    star_greedy dot s st
      (fun st' => exec (Lit "]") (capture 3 from st') k) = None ->
    lacks "]" s = true.
Proof.
  induction s as [|c s IH]; intros st Hr Hp Hl H; [reflexivity|].
  cbn [star_greedy] in H. rewrite (dot_of_lacks c s Hl) in H.
  destruct (lacks_cons _ _ _ Hl) as (_ & Hs).
  destruct (star_greedy dot s (step c s st) _) eqn:E; [discriminate|].
  cbn [exec Lit capture rest] in H. rewrite Hr in H.
  unfold lacks. cbn [PyStr.forallb].
  destruct (Ascii.eqb "]" c) eqn:Ec.
  - exfalso. revert H. apply k_total. cbn. lia.
  - cbn [negb andb]. apply (IH (step c s st)); [reflexivity | cbn; lia | exact Hs | exact E].
Qed.

(** The greedy run of the right-hand side stops before the last closing
    bracket of the line. *)
Lemma greedy_last (s : string) (x : A) :
  forall st, rest st = s -> p0 <= pos st ->
    lacks Latin1.newline s = true ->
    star_greedy dot s st
      (fun st' => exec (Lit "]") (capture 3 from st') k) = Some x ->
    exists st' post,
      follows st st' /\ rest st' = String "]" post /\
      lacks "]" post = true /\
      k (step "]" post (capture 3 from st')) = Some x.
Proof.
  induction s as [|c s IH]; intros st Hr Hp Hl H.
  - cbn [star_greedy exec Lit capture rest] in H. rewrite Hr in H. discriminate.
  - cbn [star_greedy] in H. rewrite (dot_of_lacks c s Hl) in H.
    destruct (lacks_cons _ _ _ Hl) as (_ & Hs).
    destruct (star_greedy dot s (step c s st) _) as [y|] eqn:E.
    + rewrite H in E.
      destruct (IH (step c s st)) as (st' & post & F & Hr' & Hb & Hk);
        [reflexivity | cbn; lia | exact Hs | exact E |].
      exists st', post. split; [|auto].
      eapply follows_trans; [apply follows_step; exact Hr | exact F].
    + cbn [exec Lit capture rest] in H. rewrite Hr in H.
      destruct (Ascii.eqb_spec "]" c) as [<-|]; [|discriminate].
      exists st, s. split; [apply follows_refl|]. split; [exact Hr|].
      split; [|exact H].
      apply (greedy_none s (step "]" s st)); [reflexivity | cbn; lia | exact Hs | exact E].
Qed.

End LastBracket.

(** The parts of a match of the clause pattern: the opening bracket,
    then a position from which the right-hand side runs. *)
Lemma clause_parts (A : Type) (st : mstate) (k : mstate -> option A) (x : A) :
  exec clause_re st k = Some x ->
  exists s st5,
    rest st = String "[" s /\ follows (step "[" s st) st5 /\
    star_greedy dot (rest st5) st5
      (fun st' => exec (Lit "]") (capture 3 st5 st') k) = Some x.
Proof.
  unfold clause_re. cbn [seqs]. intros H.
  change (exec (Lit "[") st
            (fun s1 => exec (Grp 1 (Plus true path_char)) s1
            (fun s2 => exec (Opt space) s2
            (fun s3 => exec (Grp 2 (Plus true (one_of "!<>="))) s3
            (fun s4 => exec (Opt space) s4
            (fun s5 => exec (Grp 3 (Star true dot)) s5
            (fun s6 => exec (Lit "]") s6 k)))))) = Some x) in H.
  apply exec_cls in H. destruct H as (c & s & Hr & Hc & H).
  apply Ascii.eqb_eq in Hc. subst c.
  apply exec_reaches in H. destruct H as (s2 & F2 & H).
  apply exec_reaches in H. destruct H as (s3 & F3 & H).
  apply exec_reaches in H. destruct H as (s4 & F4 & H).
  apply exec_reaches in H. destruct H as (s5 & F5 & H).
  exists s, s5. split; [exact Hr|]. split.
  - eapply follows_trans; [exact F2|].
    eapply follows_trans; [exact F3|].
    eapply follows_trans; [exact F4 | exact F5].
  - exact H.
Qed.

(** A clause on a line: its right-hand side, group 3, is the text up to
    the last closing bracket of the line. *)
Lemma clause_match (b : bool) (st st' : mstate) :
  lacks Latin1.newline (rest st) = true ->
  match_at b clause_re st = Some st' ->
  exists pre post,
    rest st = pre ++ group 3 (caps st') ++ "]" ++ post /\
    lacks "]" post = true /\ rest st' = post.
Proof.
  intros Hl H. unfold match_at in H.
  apply clause_parts in H. destruct H as (s & st5 & Hr & F & H).
  assert (Hl5 : lacks Latin1.newline (rest st5) = true).
  { eapply follows_lacks; [exact F|]. cbn [step rest].
    rewrite Hr in Hl. apply lacks_cons in Hl. apply Hl. }
  pose proof (follows_pos _ _ F) as Hp5. cbn [step pos] in Hp5.
  apply (greedy_last _ _ (pos st)) in H; try assumption; try reflexivity.
  - destruct H as (st6 & post & F6 & Hr6 & Hb & Hk).
    destruct (b && Nat.eqb _ (pos st)); [discriminate|].
    inversion Hk. subst st'. clear Hk.
    destruct F as (r5 & Hr5 & _). cbn [step rest] in Hr5.
    destruct F6 as (r6 & Hr56 & Hp6).
    exists (String "[" r5), post.
    cbn [step capture caps rest group Nat.eqb].
    split; [|split; [exact Hb | reflexivity]].
    replace (pos st6 - pos st5) with (String.length r6) by lia.
    rewrite Hr56, take_length_app, Hr, Hr5, Hr56, Hr6. reflexivity.
  - intros st1 Hp.
    destruct (Nat.eqb_spec (pos st1) (pos st)) as [He|Hne]; [lia|].
    rewrite andb_false_r. discriminate.
  - lia.
Qed.

(** A clause ends with a closing bracket. *)
Lemma clause_needs_bracket (b : bool) (st : mstate) :
  lacks "]" (rest st) = true -> match_at b clause_re st = None.
Proof.
  intros Hl. destruct (match_at b clause_re st) as [st'|] eqn:H; [|reflexivity].
  exfalso. unfold match_at in H.
  apply clause_parts in H. destruct H as (s & st5 & Hr & F & H).
  apply star_greedy_reaches in H; [|reflexivity].
  destruct H as (st6 & F6 & H).
  apply exec_cls in H. destruct H as (c & t & Hr6 & Hc & _).
  cbn [capture rest] in Hr6. apply Ascii.eqb_eq in Hc. subst c.
  assert (Hl6 : lacks "]" (rest st6) = true).
  { eapply follows_lacks; [exact F6|].
    eapply follows_lacks; [exact F|]. cbn [step rest].
    rewrite Hr in Hl. apply lacks_cons in Hl. apply Hl. }
  rewrite Hr6 in Hl6. apply lacks_cons in Hl6. destruct Hl6 as (Habs & _).
  discriminate.
Qed.

(** The scan of a line for clauses finds none, or one whose right-hand
    side runs to the last closing bracket. *)
Lemma clause_scan_once (fuel : nat) :
  forall (b : bool) (st : mstate),
    lacks Latin1.newline (rest st) = true ->
    hits 3 (scan fuel clause_re b st) = [] \/
    exists path op rhs pre post,
      hits 3 (scan fuel clause_re b st) = [[path; op; rhs]] /\
      rest st = pre ++ rhs ++ "]" ++ post /\ lacks "]" post = true.
Proof.
  induction fuel as [|fuel IH]; intros b st Hl; [left; reflexivity|].
  cbn [scan]. destruct (match_at b clause_re st) as [st'|] eqn:E.
  - right. destruct (clause_match b st st' Hl E) as (pre & post & Hr & Hb & Hr').
    cbn [hits].
    rewrite (scan_never_matches (fun s => lacks "]" s = true) clause_re 3).
    + exists (group 1 (caps st')), (group 2 (caps st')), (group 3 (caps st')),
             pre, post.
      split; [reflexivity | auto].
    + intros c s Hs. apply lacks_cons in Hs. apply Hs.
    + intros b' st0. apply clause_needs_bracket.
    + cbn [fresh rest]. rewrite Hr'. exact Hb.
  - destruct (rest st) as [|c s] eqn:Hr; [left; reflexivity|].
    cbn [hits]. apply lacks_cons in Hl. destruct Hl as (_ & Hl).
    destruct (IH false (step c s st) Hl)
      as [Hnone | (path & op & rhs & pre & post & Hone & Hs & Hb)].
    + left. exact Hnone.
    + right. exists path, op, rhs, (String c pre), post.
      cbn [step rest] in Hs.
      split; [exact Hone | split; [rewrite Hs; reflexivity | exact Hb]].
Qed.

Lemma one_line_kind (s : string) :
  lacks Latin1.newline s = true -> exists n, kind_length s = Some n.
Proof.
  intros Hl.
  destruct (kind_shapes s) as [(pre & tail & -> & Hp & Ht) | (pre & post & -> & Hn & Hp)].
  - rewrite (kind_length_found _ _ Hp Ht). eauto.
  - rewrite lacks_app in Hl. apply andb_true_iff in Hl. destruct Hl as (_ & Hl).
    apply lacks_cons in Hl. destruct Hl as (Habs & _). discriminate.
Qed.

End ClauseFacts.

(** X16.  A selector on one line always compiles, to one kind with at
    most one clause.  The right-hand side of that clause is the text up to
    the last closing bracket of the line, so that clauses written one
    after another on a line end up in it and are no clauses of their
    own. *)
Theorem one_line_selector_has_one_clause (s : string) :
  lacks Latin1.newline s = true ->
  exists kind clauses,
    TSCN.compile (TSCN.Text s) = Ok [(kind, clauses)] /\
    (clauses = [] \/
     exists path op rhs pre post,
       clauses = [(path, (op, rhs))] /\
       s = pre ++ rhs ++ "]" ++ post /\ lacks "]" post = true).
Proof.
  intros Hl. cbn [TSCN.compile]. rewrite parse_str.
  destruct (one_line_kind s Hl) as (n & ->).
  eexists. eexists. split; [reflexivity|].
  unfold Re.findall, Re.pieces.
  destruct (clause_scan_once (2 * String.length s + 2) false (Re.start s) Hl)
    as [-> | (path & op & rhs & pre & post & -> & Hs & Hb)].
  - left. reflexivity.
  - right. exists path, op, rhs, pre, post. split; [reflexivity | auto].
Qed.

Lemma one_line_selector_has_one_clause_witness :
  exists kind clauses,
    TSCN.compile (TSCN.Text "node[a=1][b=2]") = Ok [(kind, clauses)] /\
    (clauses = [] \/
     exists path op rhs pre post,
       clauses = [(path, (op, rhs))] /\
       "node[a=1][b=2]" = pre ++ rhs ++ "]" ++ post /\ lacks "]" post = true).
Proof.
  apply (one_line_selector_has_one_clause "node[a=1][b=2]"). reflexivity.
Defined.

(** ** The texts that parse *)

Section AcceptFacts.
Import TSCN.

Lemma has_key_in (V : Type) (k : string) (d : list (string * V)) :
  has_key k d = true <-> In k (map fst d).
Proof.
  unfold has_key. induction d as [|[k' v] d IH]; cbn [lookup map fst In].
  - split; [discriminate | tauto].
  - destruct (String.eqb_spec k' k) as [E|E].
    + split; auto.
    + rewrite IH. split; [auto | intros [H|H]; [contradiction | exact H]].
Qed.

Lemma none_of (l keys : list string) :
  forallb (fun k => negb (TSCNResource.mem k l)) keys = true <->
  forall k, In k l -> ~ In k keys.
Proof.
  rewrite forallb_forall. unfold TSCNResource.mem. split.
  - intros H k Hl Hk. specialize (H k Hk). apply negb_true_iff in H.
    assert (Hex : existsb (String.eqb k) l = true).
    { apply existsb_exists. exists k. split; [exact Hl | apply String.eqb_refl]. }
    congruence.
  - intros H k Hk. apply negb_true_iff.
    destruct (existsb (String.eqb k) l) eqn:E; [|reflexivity].
    apply existsb_exists in E. destruct E as (x & Hx & Hkx).
    apply String.eqb_eq in Hkx. subst x. exfalso. exact (H k Hx Hk).
Qed.

(** Keyword arguments that are strings are all set exactly when none is
    named after a descriptor of the class. *)
Lemma setattrs_accepts (attr : dict) :
  text_values attr ->
  forall self,
    (exists self', TSCNResource.setattrs self attr = Ok self') <->
    (~ In "__class__" (map fst attr) /\ ~ In "__dict__" (map fst attr) /\
     ~ In "__weakref__" (map fst attr)).
Proof.
  intros Ha self. split.
  - revert self. induction Ha as [|[k v] attr (s & Hv) Htext IH];
      intros self (self' & H).
    + cbn. tauto.
    + cbn [snd] in Hv. subst v.
      cbn [TSCNResource.setattrs] in H. unfold TSCNResource.setattr in H.
      cbn [map fst In].
      destruct (String.eqb_spec k "__class__"); [discriminate|].
      destruct (String.eqb_spec k "__dict__"); [discriminate|].
      destruct (String.eqb_spec k "__weakref__"); [discriminate|].
      cbn [bind] in H. specialize (IH _ (ex_intro _ self' H)). tauto.
  - intros (H1 & H2 & H3). apply setattrs_succeeds; assumption.
Qed.

Lemma init_accepts (kind : string) (attr : dict) :
  text_values attr ->
  (exists rsc, TSCNResource.init (VStr kind) attr = Ok rsc) <->
  forallb (fun k => negb (TSCNResource.mem k refused)) (map fst attr) = true.
Proof.
  intros Ha. rewrite none_of. unfold TSCNResource.init. split.
  - intros (rsc & H).
    destruct (has_key "self" attr) eqn:E1; [discriminate|].
    destruct (has_key "resource_type" attr) eqn:E2; [discriminate|].
    cbn [orb] in H.
    apply has_key_false_not_in in E1, E2.
    destruct (proj1 (setattrs_accepts attr Ha _) (ex_intro _ rsc H))
      as (H1 & H2 & H3).
    intros k [<-|[<-|[<-|[<-|[<-|[]]]]]]; assumption.
  - intros H.
    assert (E1 : has_key "self" attr = false).
    { destruct (has_key "self" attr) eqn:E; [|reflexivity].
      apply has_key_in in E. exfalso. apply (H "self"); [cbn; tauto | exact E]. }
    assert (E2 : has_key "resource_type" attr = false).
    { destruct (has_key "resource_type" attr) eqn:E; [|reflexivity].
      apply has_key_in in E. exfalso.
      apply (H "resource_type"); [cbn; tauto | exact E]. }
    rewrite E1, E2. cbn [orb].
    apply setattrs_accepts; [exact Ha|].
    repeat split; apply H; cbn; tauto.
Qed.

(** A header is taken in exactly when its kind is one the Document has
    a list for and it sets no refused name. *)
Lemma header_accepts (doc : t) (kind rest : string) :
  (exists doc' id, header doc kind rest = Ok (doc', id)) <->
  (recognized kind || String.eqb kind "resources") &&
  forallb (fun k => negb (TSCNResource.mem k refused))
          (map fst (header_attr (Re.findall 2 pair_re rest) [])) = true.
Proof.
  pose proof (header_attr_text (Re.findall 2 pair_re rest) [] (Forall_nil _))
    as Ha.
  rewrite andb_true_iff, <- (init_accepts kind _ Ha). split.
  - intros (doc' & id & H). split.
    + destruct (recognized kind) eqn:Hr; [reflexivity|]. cbn [orb].
      destruct (String.eqb_spec kind "resources") as [E|E]; [reflexivity|].
      destruct (header_raises doc kind rest Hr E) as (e & He & _). congruence.
    + destruct (header_heap _ _ _ _ _ H) as (_ & rsc & Hinit & _). eauto.
  - intros (Hkind & rsc & Hinit).
    unfold header. rewrite Hinit. cbn [bind].
    apply recognized_true in Hkind.
    destruct doc as [h rs n e s c sc].
    cbn [In] in Hkind.
    destruct Hkind as [<-|[<-|[<-|[<-|[<-|[<-|[]]]]]]];
      eexists; eexists; reflexivity.
Qed.

(** The entries of the Resource a header opens. *)
Lemma header_entries (doc doc' : t) (kind rest : string) (id : nat) :
  header doc kind rest = Ok (doc', id) ->
  tracks doc' (Some id)
         (Some (negb (has_key "entries"
                              (header_attr (Re.findall 2 pair_re rest) [])))).
Proof.
  intros H. destruct (header_heap _ _ _ _ _ H) as (-> & rsc & Hinit & Hheap).
  pose proof (header_attr_text (Re.findall 2 pair_re rest) [] (Forall_nil _))
    as Ha.
  set (attr := header_attr (Re.findall 2 pair_re rest) []) in *.
  unfold TSCNResource.init in Hinit.
  destruct (has_key "self" attr || has_key "resource_type" attr); [discriminate|].
  destruct (has_key "entries" attr) eqn:E; cbn [negb tracks];
    rewrite (obj_new doc' (heap doc) rsc Hheap).
  - unfold has_key in E.
    destruct (lookup "entries" attr) as [v|] eqn:Hl; [|discriminate].
    assert (Hv : exists s, v = VStr s).
    { unfold text_values in Ha. rewrite Forall_forall in Ha.
      apply (Ha ("entries", v)). apply lookup_In. exact Hl. }
    destruct Hv as (s & ->). exists s.
    apply (setattrs_sets attr Ha (header_attr_NoDup _ [] (NoDup_nil _))
                         _ _ _ _ Hinit Hl).
  - exists []. apply has_key_false_not_in in E.
    rewrite (setattrs_keeps attr Ha _ _ "entries" Hinit E). reflexivity.
Qed.

Lemma obj_lookup_lt (doc : t) (id : nat) (k : string) (v : pyval) :
  lookup k (TSCNResource.fields (obj doc id)) = Some v ->
  id < List.length (heap doc).
Proof.
  intros H. destruct (Nat.lt_ge_cases id (List.length (heap doc))) as [Hlt|Hge];
    [exact Hlt|].
  unfold obj in H. rewrite nth_overflow in H by exact Hge. discriminate.
Qed.

(** A body line on an open Resource is taken in exactly when the entries
    of the Resource are a mapping, and they stay one. *)
Lemma set_entry_accepts (doc : t) (id : nat) (key value : string) (d : dict) :
  lookup "entries" (TSCNResource.fields (obj doc id)) = Some (VDict d) ->
  exists doc', set_entry doc id key value = Ok doc' /\
               tracks doc' (Some id) (Some true).
Proof.
  intros Hd. pose proof (obj_lookup_lt _ _ _ _ Hd) as Hid.
  destruct (set_entry doc id key value) as [doc'|e] eqn:Hset.
  - exists doc'. split; [reflexivity|].
    destruct (set_entry_heap _ _ _ _ _ Hset) as (d0 & _ & Hheap).
    cbn [tracks]. unfold obj at 1. rewrite Hheap, nth_replace by exact Hid.
    cbn [TSCNResource.fields]. rewrite lookup_store_same. eauto.
  - exfalso. unfold set_entry in Hset. rewrite getattr_entries, Hd in Hset.
    cbn [bind] in Hset. destruct doc. discriminate.
Qed.

Lemma set_entry_refuses (doc : t) (id : nat) (key value s : string) :
  lookup "entries" (TSCNResource.fields (obj doc id)) = Some (VStr s) ->
  set_entry doc id key value = Raise TypeError.
Proof.
  intros Hs. unfold set_entry. rewrite getattr_entries, Hs. reflexivity.
Qed.

Lemma parse_lines_accepts (lines : list (list string)) :
  forall (doc : t) (rsc : option nat) (opened : option bool),
    tracks doc rsc opened ->
    (exists doc', parse_lines lines doc rsc = Ok doc') <->
    accepted lines opened = true.
Proof.
  induction lines as [|line lines IH]; intros doc rsc opened Ht.
  - cbn. split; eauto.
  - destruct line as [|kind [|rest [|key [|value [|x line]]]]];
      cbn [parse_lines accepted]; try (apply IH; exact Ht).
    destruct (Nat.ltb 0 (String.length kind)).
    + rewrite !andb_true_iff, <- andb_true_iff, <- (header_accepts doc kind rest).
      split.
      * intros (doc' & H).
        destruct (header doc kind rest) as [[doc1 id]|e] eqn:Hh;
          [|discriminate].
        cbn [bind fst snd] in H. split; [eauto|].
        apply (IH doc1 (Some id) _ (header_entries _ _ _ _ _ Hh)). eauto.
      * intros ((doc1 & id & Hh) & Hrest). rewrite Hh. cbn [bind fst snd].
        apply (IH doc1 (Some id) _ (header_entries _ _ _ _ _ Hh)). exact Hrest.
    + unfold body. destruct rsc as [id|], opened as [[|]|]; cbn [tracks] in Ht;
        try contradiction.
      * destruct Ht as (d & Hd).
        destruct (set_entry_accepts doc id key (body_value value) d Hd)
          as (doc1 & -> & Ht1).
        cbn [bind]. apply IH. exact Ht1.
      * destruct Ht as (s & Hs).
        rewrite (set_entry_refuses doc id key (body_value value) s Hs).
        cbn [bind]. split; [intros (doc' & H); discriminate | discriminate].
      * split; [intros (doc' & H); discriminate | discriminate].
Qed.

Lemma add_to_kind_errors (doc : t) (kind : string) (id : nat) (e : exn) :
  add_to_kind doc kind id = Raise e -> e = AttributeError \/ e = TypeError.
Proof.
  destruct doc as [h rs n ex s c sc]. unfold add_to_kind.
  repeat match goal with
         | |- context [if ?b then _ else _] => destruct b
         | |- context [match ?o with Some _ => _ | None => _ end] => destruct o
         end;
    intros H; inversion H; auto.
Qed.

Lemma header_errors (doc : t) (kind rest : string) (e : exn) :
  header doc kind rest = Raise e -> e = AttributeError \/ e = TypeError.
Proof.
  unfold header.
  destruct (TSCNResource.init _ _) as [rsc|e0] eqn:Hinit; cbn [bind].
  - destruct (String.eqb kind "gd_scene"); cbn [bind]; [discriminate|].
    destruct (add_to_kind _ kind _) as [doc1|e1] eqn:Hadd; cbn [bind];
      [discriminate|].
    intros H. inversion H. subst e1. eapply add_to_kind_errors. exact Hadd.
  - intros H. inversion H. subst e0. eapply init_errors. exact Hinit.
Qed.

Lemma set_entry_errors (doc : t) (id : nat) (key value : string) (e : exn) :
  set_entry doc id key value = Raise e -> e = AttributeError \/ e = TypeError.
Proof.
  unfold set_entry. rewrite getattr_entries.
  destruct (lookup "entries" _) as [v|]; cbn [bind].
  - destruct v; destruct doc; intros H; inversion H; auto.
  - intros H. inversion H. auto.
Qed.

Lemma parse_lines_errors (lines : list (list string)) :
  forall (doc : t) (rsc : option nat) (e : exn),
    parse_lines lines doc rsc = Raise e ->
    e = AttributeError \/ e = TypeError.
Proof.
  induction lines as [|line lines IH]; intros doc rsc e H.
  - discriminate.
  - destruct line as [|kind [|rest [|key [|value [|x line]]]]];
      cbn [parse_lines] in H; try (eapply IH; exact H).
    destruct (Nat.ltb 0 (String.length kind)).
    + destruct (header doc kind rest) as [[doc1 id]|e1] eqn:Hh;
        cbn [bind fst snd] in H.
      * eapply IH. exact H.
      * inversion H. subst e1. eapply header_errors. exact Hh.
    + unfold body in H. destruct rsc as [id|].
      * destruct (set_entry doc id key (body_value value)) as [doc1|e1] eqn:Hs;
          cbn [bind] in H.
        -- eapply IH. exact H.
        -- inversion H. subst e1. eapply set_entry_errors. exact Hs.
      * inversion H. auto.
Qed.

End AcceptFacts.

(** X17.  The texts that parse are known from their lines alone.  A text
    parses exactly when every header is of a kind the Document has a list
    for ([gd_scene], [node], [ext_resource], [sub_resource], [connection]
    or [resources]) and sets none of the names [self], [resource_type],
    [__class__], [__dict__] and [__weakref__], and every body line comes
    after a header that has not set the name [entries]. *)
Theorem parse_succeeds_exactly (data : string) :
  (exists doc, TSCN.parse_file data = Ok doc) <->
  accepted (Re.findall 4 TSCN.line_re data) None = true.
Proof.
  unfold TSCN.parse_file. apply parse_lines_accepts. exact I.
Qed.

(** X18.  Whatever the text, the parser returns a Document or is left by
    an [AttributeError] or a [TypeError]; it raises nothing else. *)
Theorem parse_raises_two_errors (data : string) (e : exn) :
  TSCN.parse_file data = Raise e -> e = AttributeError \/ e = TypeError.
Proof.
  unfold TSCN.parse_file. apply parse_lines_errors.
Qed.

Lemma parse_raises_two_errors_witness :
  AttributeError = AttributeError \/ AttributeError = TypeError.
Proof.
  apply (parse_raises_two_errors orphan_text AttributeError). reflexivity.
Defined.
